(** * Recruitment system: embedding service, hybrid scorer and rankings table

    A shallow embedding of [src/utils/embedding_utils.py] (class
    [EmbeddingService]), [src/agents/shortlister.py] (class [Shortlister])
    and the [rankings] table of [src/db/init_db.py], of their callers in
    [src/agents/mas_controller.py] and of the scheduling side that reads
    the rankings ([src/agents/scheduler.py], [src/utils/email_utils.py] and
    the [interviews] table), followed by the properties of the matching
    engine and of the scheduler.

    Conventions.
    - Python and numpy floats are idealised as real numbers: the scorer only
      adds, multiplies, divides, takes square roots and compares, and no
      property below is about rounding.
    - A Python call either returns or raises; [Py.outcome] records which.
    - The SentenceTransformer encoder, the index library's search and the
      LLM chain are not part of the repository: they are parameters of the
      model (a field of the service, a section variable, a field of the
      agent), and one concrete model of the index search is given so that
      everything can be run on examples. The same goes for the mail server,
      for [isoformat] and [fromisoformat], and for the orders in which the
      engine returns rows. *)

From Stdlib Require Import Reals Lra List Permutation Sorted.
From stdpp Require Import gmap strings pretty list sorting.

#[global] Instance Rle_decision (x y : R) : Decision (x <= y)%R := Rle_dec x y.

(** ** Python values and control *)

Module Py.

Inductive exn : Type :=
| AttributeError      (* [.get] on something that is not a dict *)
| TypeError           (* arithmetic on something that is not a number *)
| AssertionError      (* an [assert] of the index library *)
| OperationalError.   (* sqlite3 could not carry out a statement *)

Inductive outcome (A : Type) : Type :=
| Returns (a : A)
| Raises (e : exn).
Arguments Returns {A} a.
Arguments Raises {A} e.

Definition bind {A B : Type} (m : outcome A) (k : A -> outcome B) : outcome B :=
  match m with
  | Returns a => k a
  | Raises e => Raises e
  end.

#[global] Instance outcome_ret : MRet outcome := fun A a => Returns a.
#[global] Instance outcome_bind : MBind outcome := fun A B k m => bind m k.

(** What [json.loads] produces. Numbers are reals; the items of an object
    are listed in the order of the dict. *)
#[local] Set Warnings "-register-all".
Inductive json : Type :=
| JNull
| JBool (b : bool)
| JNum (x : R)
| JStr (s : string)
| JArr (items : list json)
| JObj (fields : list (string * json)).

(** [dict.get(key)] on the items of a dict. *)
Fixpoint dict_get (fields : list (string * json)) (key : string) : option json :=
  match fields with
  | [] => None
  | (k, v) :: rest => if String.eqb k key then Some v else dict_get rest key
  end.

(** [sep.join(parts)] *)
Fixpoint join (sep : string) (parts : list string) : string :=
  match parts with
  | [] => ""
  | [p] => p
  | p :: rest => p +:+ sep +:+ join sep rest
  end.

End Py.
Export Py.

(** ** A stable insertion sort, used to model the orderings of the database
    engine and of the index library on examples. [before x y] says that [x]
    may stay in front of [y]; equal elements keep their input order. *)

Section StableSort.
Context {A : Type} (before : A -> A -> bool).

Fixpoint insert_by (x : A) (l : list A) : list A :=
  match l with
  | [] => [x]
  | y :: l' => if before x y then x :: y :: l' else y :: insert_by x l'
  end.

Definition sort_by (l : list A) : list A := fold_right insert_by [] l.
End StableSort.

(** ** src/utils/embedding_utils.py *)

Module Embedding.
Local Open Scope R_scope.

Definition vec := list R.

(** [np.dot] of two one-dimensional arrays. *)
Definition dot (a b : vec) : R :=
  fold_right (fun xy acc => fst xy * snd xy + acc) 0 (combine a b).

(** [np.linalg.norm] of a one-dimensional array. *)
Definition norm (a : vec) : R := sqrt (dot a a).

(** [embedding / n], division of every component. *)
Definition div_by (a : vec) (n : R) : vec := map (fun x => x / n) a.

(** *** faiss.IndexFlatL2: the stored vectors, in insertion order. *)
Record IndexFlatL2 : Type := { d : nat; xb : list vec }.

Definition ntotal (idx : IndexFlatL2) : nat := length (xb idx).

(** [index.add(x)] for one row [x]; the wrapper asserts the dimension. *)
Definition index_add (idx : IndexFlatL2) (x : vec) : outcome IndexFlatL2 :=
  if decide (length x = d idx)
  then Returns {| d := d idx; xb := xb idx ++ [x] |}
  else Raises AssertionError.

(** Squared Euclidean distance, the metric of IndexFlatL2. *)
Definition l2sqr (q v : vec) : R :=
  fold_right (fun xy acc => (fst xy - snd xy) * (fst xy - snd xy) + acc) 0 (combine q v).

(** One slot of a search result: [None] is the label -1 of an unfilled
    slot, [Some (distance, label)] a hit. *)
Definition slot : Type := option (R * nat).

Definition hit_le (h1 h2 : R * nat) : bool := bool_decide (fst h1 <= fst h2).

(** A model of [index.search(q, k)] for one query row: exact search, the
    [k] smallest distances in non-decreasing order, unfilled slots
    labelled -1. The wrapper asserts the dimension and [k > 0]. *)
Definition flat_search (idx : IndexFlatL2) (q : vec) (k : Z) : outcome (list slot) :=
  if decide (length q = d idx) then
    if decide (0 < k)%Z then
      let scored := imap (fun i v => (l2sqr q v, i)) (xb idx) in
      let best := take (Z.to_nat k) (sort_by hit_le scored) in
      Returns (map Some best ++ replicate (Z.to_nat k - length best) None)
    else Raises AssertionError
  else Raises AssertionError.

(** *** EmbeddingService *)

(** An entry of [jd_metadata] / [resume_metadata]:
    [{"jd_id": ..., "metadata": ...}], respectively [{"resume_id": ...}]. *)
Record MetaEntry : Type := { ext_id : string; metadata : list (string * json) }.

(** The state built by [__init__]. The four files under [embeddings/] are
    rewritten from these fields after every insert and are not modelled
    apart from them. *)
Record EmbeddingService : Type := {
  encode : string -> vec;                      (* self.model.encode *)
  embedding_dim : nat;
  jd_index : IndexFlatL2;
  resume_index : IndexFlatL2;
  jd_metadata : gmap string MetaEntry;         (* keyed by str(index_id) *)
  resume_metadata : gmap string MetaEntry
}.

Definition get_embedding (self : EmbeddingService) (text : string) : vec :=
  encode self text.

Definition add_jd_embedding (self : EmbeddingService) (jd_id text : string)
    (meta : list (string * json)) : outcome (nat * EmbeddingService) :=
  let embedding := get_embedding self text in
  let index_id := ntotal (jd_index self) in
  idx' ← index_add (jd_index self) embedding;
  Returns (index_id,
           {| encode := encode self;
              embedding_dim := embedding_dim self;
              jd_index := idx';
              resume_index := resume_index self;
              jd_metadata :=
                <[pretty index_id := {| ext_id := jd_id; metadata := meta |}]> (jd_metadata self);
              resume_metadata := resume_metadata self |}).

Definition add_resume_embedding (self : EmbeddingService) (resume_id text : string)
    (meta : list (string * json)) : outcome (nat * EmbeddingService) :=
  let embedding := get_embedding self text in
  let index_id := ntotal (resume_index self) in
  idx' ← index_add (resume_index self) embedding;
  Returns (index_id,
           {| encode := encode self;
              embedding_dim := embedding_dim self;
              jd_index := jd_index self;
              resume_index := idx';
              jd_metadata := jd_metadata self;
              resume_metadata :=
                <[pretty index_id := {| ext_id := resume_id; metadata := meta |}]>
                  (resume_metadata self) |}).

(** One element of the list returned by a search. *)
Record SearchResult : Type := {
  index_id : nat;
  found_id : string;                           (* "jd_id" / "resume_id" *)
  found_metadata : list (string * json);
  similarity : R
}.

(** The loop over [indices[0]]: unfilled slots are skipped, the metadata
    of a hit is looked up under [str(idx)] with empty defaults. *)
Fixpoint collect_results (meta : gmap string MetaEntry) (hits : list slot)
    : list SearchResult :=
  match hits with
  | [] => []
  | None :: rest => collect_results meta rest
  | Some (distance, idx) :: rest =>
      let entry := meta !! pretty idx in
      {| index_id := idx;
         found_id := from_option ext_id "" entry;
         found_metadata := from_option metadata [] entry;
         similarity := 1 - distance |} :: collect_results meta rest
  end.

Section Search.
(** [index.search] of the index library. *)
Variable index_search : IndexFlatL2 -> vec -> Z -> outcome (list slot).

Definition search_similar_jds (self : EmbeddingService) (text : string) (k : Z)
    : outcome (list SearchResult) :=
  let embedding := get_embedding self text in
  if decide (ntotal (jd_index self) = 0%nat) then Returns []
  else
    hits ← index_search (jd_index self) embedding
             (Z.min k (Z.of_nat (ntotal (jd_index self))));
    Returns (collect_results (jd_metadata self) hits).

Definition search_similar_resumes (self : EmbeddingService) (text : string) (k : Z)
    : outcome (list SearchResult) :=
  let embedding := get_embedding self text in
  if decide (ntotal (resume_index self) = 0%nat) then Returns []
  else
    hits ← index_search (resume_index self) embedding
             (Z.min k (Z.of_nat (ntotal (resume_index self))));
    Returns (collect_results (resume_metadata self) hits).
End Search.

Definition calculate_similarity (self : EmbeddingService) (jd_text resume_text : string) : R :=
  let jd_embedding := get_embedding self jd_text in
  let resume_embedding := get_embedding self resume_text in
  let jd_embedding := div_by jd_embedding (norm jd_embedding) in
  let resume_embedding := div_by resume_embedding (norm resume_embedding) in
  dot jd_embedding resume_embedding.

(** *** Derived notions used in the statements below *)

(** What the model asks of [index.search] for a query of the right
    dimension and [0 < k <= ntotal]: [k] hits, in order of non-decreasing
    distance, each the squared distance from the query to a stored vector. *)
Definition search_contract (index_search : IndexFlatL2 -> vec -> Z -> outcome (list slot))
    : Prop :=
  forall (idx : IndexFlatL2) (q : vec) (k : Z),
    length q = d idx -> (0 < k <= Z.of_nat (ntotal idx))%Z ->
    exists hits : list (R * nat),
      index_search idx q k = Returns (map Some hits)
      /\ length hits = Z.to_nat k
      /\ StronglySorted (fun h1 h2 => fst h1 <= fst h2) hits
      /\ Forall (fun h => exists v, xb idx !! snd h = Some v /\ fst h = l2sqr q v) hits.

(** A result list for query [q] on [idx]: [n] records, by non-decreasing
    distance [1 - similarity], each one a stored vector at its true
    distance, with the metadata filed under its ordinal. *)
Definition nearest_listing (idx : IndexFlatL2) (meta : gmap string MetaEntry)
    (q : vec) (n : nat) (results : list SearchResult) : Prop :=
  length results = n
  /\ StronglySorted (fun r1 r2 => 1 - similarity r1 <= 1 - similarity r2) results
  /\ Forall (fun r => exists v, xb idx !! index_id r = Some v
                      /\ 1 - similarity r = l2sqr q v
                      /\ found_id r = from_option ext_id "" (meta !! pretty (index_id r)))
            results.

(** The order of an exact search: by distance and, among equal distances,
    by ordinal. *)
Definition hit_before (h1 h2 : R * nat) : Prop :=
  fst h1 < fst h2 \/ (fst h1 = fst h2 /\ (snd h1 < snd h2)%nat).

(** What the exact search of the index library does. It refuses a
    [k <= 0] (the [assert k > 0] of its wrapper). For a query of the right
    dimension and [0 < k <= ntotal] it yields [k] hits, each the squared
    distance from the query to a stored vector, in the order [hit_before],
    and they are the nearest: a stored vector that is left out is at least
    as far as every hit. *)
Definition exact_search_contract
    (index_search : IndexFlatL2 -> vec -> Z -> outcome (list slot)) : Prop :=
  (forall (idx : IndexFlatL2) (q : vec) (k : Z),
      (k <= 0)%Z -> index_search idx q k = Raises AssertionError)
  /\ forall (idx : IndexFlatL2) (q : vec) (k : Z),
       length q = d idx -> (0 < k <= Z.of_nat (ntotal idx))%Z ->
       exists hits : list (R * nat),
         index_search idx q k = Returns (map Some hits)
         /\ length hits = Z.to_nat k
         /\ StronglySorted hit_before hits
         /\ Forall (fun h => exists v, xb idx !! snd h = Some v /\ fst h = l2sqr q v) hits
         /\ forall (i : nat) (v : vec),
              xb idx !! i = Some v ->
              In i (map snd hits) \/ Forall (fun h => fst h <= l2sqr q v) hits.

(** A result list for query [q] on [idx]: the [n] nearest records, by
    non-decreasing squared distance [1 - similarity] (which is the order of
    the Euclidean distances), ties by ascending ordinal, each one a stored
    vector at its true distance with the id filed under its ordinal. *)
Definition nearest_first (idx : IndexFlatL2) (meta : gmap string MetaEntry)
    (q : vec) (n : nat) (results : list SearchResult) : Prop :=
  length results = n
  /\ StronglySorted
       (fun r1 r2 => 1 - similarity r1 < 1 - similarity r2
                     \/ (1 - similarity r1 = 1 - similarity r2
                         /\ (index_id r1 < index_id r2)%nat)) results
  /\ Forall (fun r => exists v, xb idx !! index_id r = Some v
                       /\ 1 - similarity r = l2sqr q v
                       /\ found_id r = from_option ext_id "" (meta !! pretty (index_id r)))
            results
  /\ forall (i : nat) (v : vec),
       xb idx !! i = Some v ->
       In i (map index_id results)
       \/ Forall (fun r => 1 - similarity r <= l2sqr q v) results.

End Embedding.

(** ** src/db/init_db.py: the tables the shortlister reads and writes *)

Module Database.

(** A row of [job_descriptions], with [skills] already parsed from JSON
    (the columns the shortlister formats). *)
Record JobDescription : Type := {
  job_title : string;
  company : string;
  description : string;
  jd_skills : list string;
  experience_required : string;
  qualification : string
}.

(** [exp.get('responsibilities', [])]: a list of lines or one text. *)
Inductive Responsibilities : Type :=
| RespList (lines : list string)
| RespText (text : string).

(** An item of a resume's [experience] list; a missing key reads as "". *)
Record Experience : Type := {
  exp_company : string;
  position : string;
  exp_dates : string;
  responsibilities : Responsibilities
}.

(** An item of a resume's [education] list. *)
Record Education : Type := {
  institution : string;
  degree : string;
  edu_dates : string
}.

(** A row of [resumes], with its three JSON columns parsed. *)
Record Resume : Type := {
  name : string;
  resume_skills : list string;
  experience : list Experience;
  education : list Education
}.

(** A row of [rankings]. [rank] is NULL until the first renumbering;
    [id] and [created_at] are left out, the rows of the table being kept
    in the order of their [id]. *)
Record Ranking : Type := {
  resume_id : string;
  job_id : string;
  match_score : R;
  rank : option nat;
  shortlisted : bool
}.

(** The database file [db/memory.sqlite]. [job_descriptions] and
    [resumes] are keyed by their UNIQUE [job_id] / [resume_id]. *)
Record DB : Type := {
  job_descriptions : gmap string JobDescription;
  resumes : gmap string Resume;
  rankings : list Ranking
}.

(** [init_db] creates the tables empty. *)
Definition init_db : DB :=
  {| job_descriptions := ∅; resumes := ∅; rankings := [] |}.

Definition same_pair (r_id j_id : string) (r : Ranking) : bool :=
  bool_decide (resume_id r = r_id ∧ job_id r = j_id).

(** [INSERT OR REPLACE INTO rankings (resume_id, job_id, match_score,
    shortlisted) VALUES (?, ?, ?, ?)] under [UNIQUE(resume_id, job_id)]:
    the row in conflict is deleted, the new row gets a fresh [id] (it is
    last) and a NULL [rank]. *)
Definition insert_or_replace (r_id j_id : string) (score : R) (flag : bool)
    (t : list Ranking) : list Ranking :=
  List.filter (fun r => negb (same_pair r_id j_id r)) t
    ++ [{| resume_id := r_id; job_id := j_id; match_score := score;
           rank := None; shortlisted := flag |}].

(** [SET rank = ?] on one row. *)
Definition set_rank (new_rank : nat) (r : Ranking) : Ranking :=
  {| resume_id := resume_id r; job_id := job_id r; match_score := match_score r;
     rank := Some new_rank; shortlisted := shortlisted r |}.

(** [UPDATE rankings SET rank = ? WHERE resume_id = ? AND job_id = ?] *)
Definition update_rank (new_rank : nat) (r_id j_id : string)
    (t : list Ranking) : list Ranking :=
  map (fun r => if same_pair r_id j_id r then set_rank new_rank r else r) t.

(** The columns of the constraint [UNIQUE(resume_id, job_id)]. *)
Definition pair_of (r : Ranking) : string * string := (resume_id r, job_id r).

(** [WHERE job_id = ?] *)
Definition where_job (j_id : string) (t : list Ranking) : list Ranking :=
  List.filter (fun r => bool_decide (job_id r = j_id)) t.

(** One way the engine can carry out [ORDER BY match_score DESC]: a stable
    sort of the rows met in [id] order. SQL leaves the order of rows with
    equal scores open; the shortlister below takes the ordering as a
    parameter and this one serves on examples. *)
Definition score_ge (r1 r2 : Ranking) : bool :=
  bool_decide (match_score r2 <= match_score r1)%R.

Definition stable_order_by_score_desc (rows : list Ranking) : list Ranking :=
  sort_by score_ge rows.

(** *** A connection with an open transaction.
    [work] is the table as the connection sees it, [executed] counts the
    calls made on it. [fault], when [Some n], makes call number [n] raise
    (connect is call 0). *)
Record Conn : Type := { work : list Ranking; executed : nat }.

Definition Sql (A : Type) : Type := Conn -> outcome (A * Conn).

Definition sql_ret {A : Type} (a : A) : Sql A := fun c => Returns (a, c).

Definition sql_bind {A B : Type} (m : Sql A) (k : A -> Sql B) : Sql B :=
  fun c => match m c with
           | Returns (a, c') => k a c'
           | Raises e => Raises e
           end.

Definition execute {A : Type} (fault : option nat)
    (stmt : list Ranking -> A * list Ranking) : Sql A :=
  fun c =>
    if decide (fault = Some (executed c)) then Raises OperationalError
    else let '(a, t) := stmt (work c) in
         Returns (a, {| work := t; executed := S (executed c) |}).

End Database.

Declare Scope sql_scope.
Delimit Scope sql_scope with sql.
Notation "x <- m ;; k" := (Database.sql_bind m (fun x => k))
  (at level 100, m at next level, right associativity) : sql_scope.
Notation "m ;; k" := (Database.sql_bind m (fun _ => k))
  (at level 100, right associativity) : sql_scope.

(** ** src/agents/shortlister.py *)

Module Shortlister.
Import Embedding Database.
Local Open Scope R_scope.

(** What [self.chain.invoke] does for one prompt: it raises (no network,
    time-out, ...), or it answers with a text that [json.loads] rejects
    ([ReplyText None]) or parses ([ReplyText (Some v)]). *)
Inductive llm_reply : Type :=
| InvokeRaises
| ReplyText (parsed : option json).

(** The lines written with [print]. *)
Inductive message : Type :=
| LLMNotInitialized        (* "Error: LLM not initialized. Check your API key." *)
| FailedToParseJSON        (* "Error: Failed to parse LLM response as JSON." *)
| DetailedMatchError       (* "Error in detailed match evaluation: ..." *)
| StoringRankingError (e : exn).   (* "Error storing ranking: ..." *)

(** The attributes of the agent. [chain] is absent when [__init__]
    returned early for want of an API key. *)
Record Agent : Type := {
  embedding_service : EmbeddingService;
  shortlist_threshold : R;
  chain : option (string -> string -> llm_reply)
}.

(** [Shortlister.__init__], given the value of GROQ_API_KEY and the
    behaviour of the chain it would build. *)
Definition __init__ (service : EmbeddingService) (api_key : string)
    (llm : string -> string -> llm_reply) : Agent :=
  {| embedding_service := service;
     shortlist_threshold := 0.8;
     chain := if decide (api_key = "") then None else Some llm |}.

(** [get_job_description] / [get_resume]: [None] stands for the empty
    dict returned when there is no such row. *)
Definition get_job_description (db : DB) (job_id : string) : option JobDescription :=
  job_descriptions db !! job_id.

Definition get_resume (db : DB) (resume_id : string) : option Resume :=
  resumes db !! resume_id.

(** *** The texts built with f-strings *)

Definition nl : string := String (Ascii.ascii_of_nat 10) "".
Definition indent8 : string := "        ".
Definition indent12 : string := "            ".

Definition field (indent label value : string) : string :=
  nl +:+ indent +:+ label +:+ value.

Definition jd_text_of (indent : string) (jd : JobDescription) : string :=
  field indent "Job Title: " (job_title jd)
  +:+ field indent "Company: " (company jd)
  +:+ field indent "Experience Required: " (experience_required jd)
  +:+ field indent "Qualification: " (qualification jd)
  +:+ field indent "Skills: " (join ", " (jd_skills jd))
  +:+ field indent "Description: " (description jd)
  +:+ nl +:+ indent.

Definition exp_line (e : Experience) : string :=
  exp_company e +:+ ", " +:+ position e +:+ ", " +:+ exp_dates e.

Definition edu_line (e : Education) : string :=
  institution e +:+ ", " +:+ degree e +:+ ", " +:+ edu_dates e.

Definition resp_text_of (r : Responsibilities) : string :=
  match r with
  | RespList lines => join nl lines
  | RespText text => text
  end.

(** [experience_text] of [evaluate_semantic_similarity]. *)
Definition experience_text_short (es : list Experience) : string :=
  fold_left (fun acc e => acc +:+ exp_line e +:+ nl) es "".

(** [experience_text] of [evaluate_detailed_match]. *)
Definition experience_text_long (es : list Experience) : string :=
  fold_left
    (fun acc e => acc +:+ (exp_line e +:+ nl +:+ resp_text_of (responsibilities e)) +:+ nl +:+ nl)
    es "".

Definition education_text_of (es : list Education) : string :=
  fold_left (fun acc e => acc +:+ edu_line e +:+ nl) es "".

Definition resume_text_of (indent experience_text : string) (resume : Resume) : string :=
  field indent "Name: " (name resume)
  +:+ field indent "Skills: " (join ", " (resume_skills resume))
  +:+ field indent "Experience: " experience_text
  +:+ field indent "Education: " (education_text_of (education resume))
  +:+ nl +:+ indent.

(** *** Scoring *)

Definition evaluate_semantic_similarity (self : Agent) (db : DB)
    (job_id resume_id : string) : R :=
  match get_job_description db job_id, get_resume db resume_id with
  | Some jd, Some resume =>
      let jd_text := jd_text_of indent8 jd in
      let resume_text :=
        resume_text_of indent8 (experience_text_short (experience resume)) resume in
      calculate_similarity (embedding_service self) jd_text resume_text
  | _, _ => 0
  end.

(** [{"overall_score": 0.0}] *)
Definition zero_match : json := JObj [("overall_score", JNum 0)].

(** Returns the dict handed back and what was printed on the way. *)
Definition evaluate_detailed_match (self : Agent) (db : DB)
    (job_id resume_id : string) : json * list message :=
  match chain self with
  | None => (zero_match, [LLMNotInitialized])
  | Some invoke =>
      match get_job_description db job_id, get_resume db resume_id with
      | Some jd, Some resume =>
          let job_description := jd_text_of indent12 jd in
          let resume_text :=
            resume_text_of indent12 (experience_text_long (experience resume)) resume in
          match invoke job_description resume_text with
          | ReplyText (Some result) => (result, [])
          | ReplyText None => (zero_match, [FailedToParseJSON])
          | InvokeRaises => (zero_match, [DetailedMatchError])
          end
      | _, _ => (zero_match, [])
      end
  end.

(** [detailed_match.get("overall_score", 0.0) / 100.0]: [.get] needs a
    dict, the division a number ([True] and [False] count as 1 and 0). *)
Definition llm_score_of (detailed_match : json) : outcome R :=
  match detailed_match with
  | JObj fields =>
      match default (JNum 0) (dict_get fields "overall_score") with
      | JNum x => Returns (x / 100)
      | JBool b => Returns ((if b then 1 else 0) / 100)
      | _ => Raises TypeError
      end
  | _ => Raises AttributeError
  end.

Section Store.
(** How the engine orders the rows of [SELECT ... ORDER BY match_score
    DESC]. *)
Variable order_by_score_desc : list Ranking -> list Ranking.
(** Which call on the connection fails, if any. *)
Variable fault : option nat.

(** [SELECT resume_id, match_score FROM rankings WHERE job_id = ?
    ORDER BY match_score DESC], then [fetchall]. *)
Definition select_ranked (j_id : string) (t : list Ranking) : list (string * R) :=
  map (fun r => (resume_id r, match_score r)) (order_by_score_desc (where_job j_id t)).

(** [for rank, (r_id, _) in enumerate(rankings, 1): UPDATE ...] *)
Fixpoint update_ranks (j_id : string) (rank : nat) (ranked : list (string * R))
    : Sql unit :=
  match ranked with
  | [] => sql_ret tt
  | (r_id, _) :: rest =>
      (execute fault (fun t => (tt, update_rank rank r_id j_id t)) ;;
       update_ranks j_id (S rank) rest)%sql
  end.

(** The body of the [try] block of [shortlist_candidate], up to and
    including [conn.commit()]; the [conn.close()] that follows a commit
    changes nothing. *)
Definition store_ranking (r_id j_id : string) (match_score : R) (is_shortlisted : bool)
    : Sql unit :=
  (execute fault (fun t => (tt, t)) ;;                                   (* connect *)
   execute fault (fun t => (tt, insert_or_replace r_id j_id match_score is_shortlisted t)) ;;
   ranked <- execute fault (fun t => (select_ranked j_id t, t)) ;;
   update_ranks j_id 1 ranked ;;
   execute fault (fun t => (tt, t)))%sql.                                (* commit *)

(** A call of [shortlist_candidate]: what it returns or raises, the
    database afterwards, and what it printed. *)
Record Run : Type := {
  returned : outcome (R * bool);
  db_after : DB;
  printed : list message
}.

(** A connection dropped before [commit] leaves the file as it was. *)
Definition shortlist_candidate (self : Agent) (db : DB) (j_id r_id : string) : Run :=
  let semantic_score := evaluate_semantic_similarity self db j_id r_id in
  let '(detailed_match, out) := evaluate_detailed_match self db j_id r_id in
  match llm_score_of detailed_match with
  | Raises e => {| returned := Raises e; db_after := db; printed := out |}
  | Returns llm_score =>
      let combined_score := 0.6 * semantic_score + 0.4 * llm_score in
      let match_score := combined_score * 100 in
      let is_shortlisted :=
        bool_decide (shortlist_threshold self * 100 <= match_score) in
      match store_ranking r_id j_id match_score is_shortlisted
              {| work := rankings db; executed := 0 |} with
      | Returns (_, conn) =>
          {| returned := Returns (match_score, is_shortlisted);
             db_after := {| job_descriptions := job_descriptions db;
                            resumes := resumes db;
                            rankings := work conn |};
             printed := out |}
      | Raises e =>
          {| returned := Returns (match_score, is_shortlisted);
             db_after := db;
             printed := out ++ [StoringRankingError e] |}
      end
  end.
End Store.

(** *** Derived notions used in the statements below *)

(** The table after the renumbering loop when none of its calls fails. *)
Fixpoint assign_ranks (j_id : string) (rank : nat) (ranked : list (string * R))
    (t : list Ranking) : list Ranking :=
  match ranked with
  | [] => t
  | (r_id, _) :: rest => assign_ranks j_id (S rank) rest (update_rank rank r_id j_id t)
  end.

(** What the renumbering loop does to one row. *)
Fixpoint rerank (j_id : string) (rank : nat) (ranked : list (string * R))
    (row : Ranking) : Ranking :=
  match ranked with
  | [] => row
  | (r_id, _) :: rest =>
      rerank j_id (S rank) rest (if same_pair r_id j_id row then set_rank rank row else row)
  end.

(** The rows of one job carry the ranks 1..N, each once, and a row with a
    smaller rank never has a smaller score. *)
Definition dense_ranking (rows : list Ranking) : Prop :=
  Permutation (map rank rows) (map Some (seq 1 (length rows)))
  /\ forall (a b : Ranking) (m n : nat),
       In a rows -> In b rows -> rank a = Some m -> rank b = Some n ->
       (m < n)%nat -> match_score b <= match_score a.

(** Does the failing call, if any, fall among calls [lo .. lo + len - 1]? *)
Definition fault_within (fault : option nat) (lo len : nat) : bool :=
  match fault with
  | Some n => bool_decide (lo ≤ n < lo + len)%nat
  | None => false
  end.

(** One call of [shortlist_candidate] as the controller makes it
    ([match_resume_to_job], [find_candidates_for_job], ...): by an agent
    fresh from [__init__], on the database as it is at that time. *)
Record Call : Type := {
  c_service : EmbeddingService;
  c_api_key : string;
  c_llm : string -> string -> llm_reply;
  c_jobs : gmap string JobDescription;
  c_resumes : gmap string Resume;
  c_fault : option nat;
  c_job : string;
  c_resume : string
}.

Definition call_run (order_by_score_desc : list Ranking -> list Ranking)
    (c : Call) (t : list Ranking) : Run :=
  shortlist_candidate order_by_score_desc (c_fault c)
    (__init__ (c_service c) (c_api_key c) (c_llm c))
    {| job_descriptions := c_jobs c; resumes := c_resumes c; rankings := t |}
    (c_job c) (c_resume c).

(** The [rankings] table after a sequence of calls, starting from [t]. A
    call that raises leaves the table alone and the next one goes ahead. *)
Fixpoint replay (order_by_score_desc : list Ranking -> list Ranking)
    (calls : list Call) (t : list Ranking) : list Ranking :=
  match calls with
  | [] => t
  | c :: rest =>
      replay order_by_score_desc rest (rankings (db_after (call_run order_by_score_desc c t)))
  end.

End Shortlister.

(** ** src/utils/email_utils.py: EmailService, and the interviews table
    of src/db/init_db.py that it writes *)

Module Email.
Import Database.

(** A row of [interviews]; [created_at] is left out. The rows are kept in
    the order in which they were inserted. *)
Record Interview : Type := {
  interview_id : Z;
  i_resume_id : string;
  i_job_id : string;
  interview_date : option string;
  status : option string;
  notes : option string
}.

(** A naive [datetime]: the microseconds since [datetime.min]. *)
Definition datetime_max : Z := 3652059 * 86400 * 1000000 - 1.

(** [t + timedelta(minutes=n)]; [None] stands for the OverflowError raised
    when the sum (or the timedelta) is out of range. *)
Definition add_minutes (t n : Z) : option Z :=
  let t' := (t + n * 60000000)%Z in
  if bool_decide (0 ≤ t' ≤ datetime_max)%Z then Some t' else None.

(** The fields of [EmailService] that decide whether a mail goes out. *)
Record EmailService : Type := {
  smtp_username : string;
  smtp_password : string
}.

(** A mail accepted by the server: the recipient, the subject and the date
    that the two bodies name. *)
Record Mail : Type := {
  recipient : string;
  subject : string;
  invited_for : Z
}.

(** [send_email]; [smtp] tells whether the exchange with the server goes
    through ([False] is returned when any step of it raises). *)
Definition send_email (self : EmailService) (smtp : bool) : bool :=
  if bool_decide (smtp_username self = "") || bool_decide (smtp_password self = "")
  then false else smtp.

Section Invitation.
(** [datetime.isoformat]. *)
Variable isoformat : Z -> string.
(** The [id] that AUTOINCREMENT gives to the next row. *)
Variable new_id : list Interview -> Z.

(** [send_interview_invitation]: the mail, then one transaction (connect,
    INSERT, commit: calls 0, 1 and 2 on the connection) that [fault] may
    break. The result is the value returned, the table and the mails that
    went out. The two bodies of the mail, with the [strftime] that formats
    the date for them, and the lines written with [print] are left out. *)
Definition send_interview_invitation (self : EmailService) (smtp : bool)
    (fault : option nat) (interviews : list Interview)
    (candidate_email candidate_name job_title company : string) (date : Z)
    (j_id r_id : string) : bool * list Interview * list Mail :=
  let mail := {| recipient := candidate_email;
                 subject := "Interview Invitation: " +:+ job_title +:+ " at " +:+ company;
                 invited_for := date |} in
  if send_email self smtp then
    if Shortlister.fault_within fault 0 3 then (false, interviews, [mail])
    else (true,
          interviews ++ [{| interview_id := new_id interviews;
                            i_resume_id := r_id;
                            i_job_id := j_id;
                            interview_date := Some (isoformat date);
                            status := Some "scheduled";
                            notes := None |}],
          [mail])
  else (false, interviews, []).
End Invitation.

End Email.

(** ** src/agents/scheduler.py: the functions that read the rankings and
    keep the interviews table *)

Module Scheduler.
Import Database Email.
Local Open Scope R_scope.

(** The dict of [get_job_details]: the four columns it selects. [None]
    stands for the empty dict returned when there is no such job. *)
Record JobDetails : Type := {
  details_job_id : string;
  details_job_title : string;
  details_company : string;
  details_description : string
}.

Definition get_job_details (db : DB) (j_id : string) : option JobDetails :=
  match job_descriptions db !! j_id with
  | Some jd => Some {| details_job_id := j_id;
                       details_job_title := job_title jd;
                       details_company := company jd;
                       details_description := description jd |}
  | None => None
  end.

(** A dict of the list returned by [get_shortlisted_candidates]. *)
Record Candidate : Type := {
  cand_resume_id : string;
  cand_name : string;
  cand_email : string;
  cand_match_score : R;
  cand_rank : option nat
}.

(** [WHERE rk.job_id = ? AND rk.shortlisted = 1], on the rows that the
    JOIN with [resumes] keeps. *)
Definition shortlisted_rows (db : DB) (j_id : string) : list Ranking :=
  List.filter (fun rk => bool_decide (job_id rk = j_id) && shortlisted rk)
    (List.filter (fun rk => bool_decide (is_Some (resumes db !! resume_id rk)))
       (rankings db)).

Section Shortlisted.
(** The [email] column of the [resumes] row of a resume id, a column the
    record [Resume] does not carry. *)
Variable resume_email : string -> string.
(** How the engine orders the rows for [ORDER BY rk.rank ASC]. *)
Variable order_by_rank_asc : list Ranking -> list Ranking.

Definition get_shortlisted_candidates (db : DB) (j_id : string) : list Candidate :=
  map (fun rk => {| cand_resume_id := resume_id rk;
                    cand_name := from_option name "" (resumes db !! resume_id rk);
                    cand_email := resume_email (resume_id rk);
                    cand_match_score := match_score rk;
                    cand_rank := rank rk |})
    (order_by_rank_asc (shortlisted_rows db j_id)).
End Shortlisted.

(** One way the engine can carry out [ORDER BY rk.rank ASC]: a stable sort
    in which NULL comes first, as in SQLite. *)
Definition rank_le (r1 r2 : Ranking) : bool :=
  match rank r1, rank r2 with
  | None, _ => true
  | Some _, None => false
  | Some m, Some n => bool_decide (m ≤ n)%nat
  end.

Definition stable_order_by_rank_asc (rows : list Ranking) : list Ranking :=
  sort_by rank_le rows.

(** *** The interviews table *)

Definition valid_statuses : list string :=
  ["scheduled"; "completed"; "cancelled"; "pending"].

(** The lines written with [print]. *)
Inductive message : Type :=
| InvalidStatus (status : string)      (* "Invalid status: ..." *)
| UpdatingStatusError.                 (* "Error updating interview status: ..." *)

(** [SET status = ?] and, when notes are given, [notes = ?] on one row. *)
Definition set_status (new_status : string) (new_notes : option string)
    (i : Interview) : Interview :=
  {| interview_id := interview_id i;
     i_resume_id := i_resume_id i;
     i_job_id := i_job_id i;
     interview_date := interview_date i;
     status := Some new_status;
     notes := match new_notes with
              | Some text => if bool_decide (text = "") then notes i else Some text
              | None => notes i
              end |}.

(** [update_interview_status]. The transaction is connect, one UPDATE and
    commit (calls 0, 1 and 2 on the connection); when [fault] names one of
    them the [except] branch is taken and the table stays as it was. *)
Definition update_interview_status (fault : option nat) (interviews : list Interview)
    (id : Z) (new_status : string) (new_notes : option string)
    : bool * list Interview * list message :=
  if bool_decide (new_status ∈ valid_statuses) then
    if Shortlister.fault_within fault 0 3 then (false, interviews, [UpdatingStatusError])
    else (true,
          map (fun i => if bool_decide (interview_id i = id)
                        then set_status new_status new_notes i else i) interviews,
          [])
  else (false, interviews, [InvalidStatus new_status]).

(** The dict returned by [schedule_interviews]; its "message" is fixed by
    the other two entries. *)
Record Scheduled : Type := { success : bool; scheduled : nat }.

(** What a call of [schedule_interviews] leaves: the dict returned, or
    [None] when OverflowError comes out of it, the interviews table and the
    mails that went out. *)
Record ScheduleRun : Type := {
  answer : option Scheduled;
  interviews_after : list Interview;
  mails : list Mail
}.

(** A value of the column [interview_date] as [get_interview_schedule]
    hands it back. *)
Inductive DateValue : Type :=
| NoDate                 (* NULL *)
| RawText (s : string)   (* a falsy text, left as it is *)
| Parsed (t : Z).        (* a datetime *)

(** A dict of the list returned by [get_interview_schedule]. *)
Record ScheduleEntry : Type := {
  e_id : Z;
  e_resume_id : string;
  e_job_id : string;
  e_interview_date : DateValue;
  e_status : option string;
  e_candidate_name : string;
  e_candidate_email : string;
  e_job_title : string;
  e_company : string
}.

(** Is an optional argument given and truthy? *)
Definition given (arg : option string) : option string :=
  match arg with
  | Some text => if bool_decide (text = "") then None else Some text
  | None => None
  end.

Section Scheduling.
Variable resume_email : string -> string.
Variable order_by_rank_asc : list Ranking -> list Ranking.
Variable isoformat : Z -> string.
Variable new_id : list Interview -> Z.
(** Whether the exchange with the mail server goes through for the
    invitation number [k] of a call, and which statement, if any, fails in
    its transaction. *)
Variable smtp_of : nat -> bool.
Variable fault_of : nat -> option nat.

(** The loop of [schedule_interviews]; [k] counts the candidates met. *)
Fixpoint invite_all (self : EmailService) (job_details : JobDetails) (j_id : string)
    (interview_duration : Z) (candidates : list Candidate) (k : nat)
    (current_time : Z) (scheduled_count : nat) (interviews : list Interview)
    (sent : list Mail) : ScheduleRun :=
  match candidates with
  | [] => {| answer := Some {| success := true; scheduled := scheduled_count |};
             interviews_after := interviews;
             mails := sent |}
  | candidate :: rest =>
      let '(result, interviews', mail) :=
        send_interview_invitation isoformat new_id self (smtp_of k) (fault_of k) interviews
          (cand_email candidate) (cand_name candidate)
          (details_job_title job_details) (details_company job_details)
          current_time j_id (cand_resume_id candidate) in
      match add_minutes current_time interview_duration with
      | None => {| answer := None; interviews_after := interviews'; mails := sent ++ mail |}
      | Some next_time =>
          invite_all self job_details j_id interview_duration rest (S k) next_time
            (if result then S scheduled_count else scheduled_count) interviews'
            (sent ++ mail)
      end
  end.

Definition schedule_interviews (self : EmailService) (db : DB)
    (interviews : list Interview) (j_id : string) (start_date : Z)
    (interview_duration : Z) : ScheduleRun :=
  let candidates := get_shortlisted_candidates resume_email order_by_rank_asc db j_id in
  match candidates, get_job_details db j_id with
  | _ :: _, Some job_details =>
      invite_all self job_details j_id interview_duration candidates 0 start_date 0
        interviews []
  | _, _ => {| answer := Some {| success := false; scheduled := 0 |};
               interviews_after := interviews;
               mails := [] |}
  end.

(** [datetime.fromisoformat]; [None] stands for the ValueError it raises. *)
Variable fromisoformat : string -> option Z.
(** How the engine orders the rows for [ORDER BY i.interview_date ASC]. *)
Variable order_by_date_asc : list Interview -> list Interview.

(** The rows that the two JOINs and the WHERE clause keep. *)
Definition selected_interviews (db : DB) (interviews : list Interview)
    (j_id r_id : option string) : list Interview :=
  List.filter
    (fun i =>
       bool_decide (is_Some (resumes db !! i_resume_id i))
       && bool_decide (is_Some (job_descriptions db !! i_job_id i))
       && match given j_id with
          | Some j => bool_decide (i_job_id i = j)
          | None => true
          end
       && match given r_id with
          | Some r => bool_decide (i_resume_id i = r)
          | None => true
          end)
    interviews.

(** The conversion of one row in the loop of [get_interview_schedule];
    [None] when [fromisoformat] raises. *)
Definition entry_of (db : DB) (i : Interview) : option ScheduleEntry :=
  date ← match interview_date i with
         | None => Some NoDate
         | Some text =>
             if bool_decide (text = "") then Some (RawText text)
             else Parsed <$> fromisoformat text
         end;
  Some {| e_id := interview_id i;
          e_resume_id := i_resume_id i;
          e_job_id := i_job_id i;
          e_interview_date := date;
          e_status := status i;
          e_candidate_name := from_option name "" (resumes db !! i_resume_id i);
          e_candidate_email := resume_email (i_resume_id i);
          e_job_title := from_option job_title "" (job_descriptions db !! i_job_id i);
          e_company := from_option company "" (job_descriptions db !! i_job_id i) |}.

(** [get_interview_schedule]: the loop runs inside the [try], so that one
    date that does not parse turns the whole answer into the empty list. *)
Definition get_interview_schedule (db : DB) (interviews : list Interview)
    (j_id r_id : option string) : list ScheduleEntry :=
  default [] (mapM (entry_of db)
                (order_by_date_asc (selected_interviews db interviews j_id r_id))).
End Scheduling.

(** *** Derived notions used in the statements below *)

(** The time of the interview number [k] (from 0) of a call. *)
Definition slot (start_date interview_duration : Z) (k : nat) : Z :=
  (start_date + Z.of_nat k * (interview_duration * 60000000))%Z.

(** The candidates with the times that the loop reaches for them. *)
Definition slots (start_date interview_duration : Z) (candidates : list Candidate)
    : list (Candidate * Z) :=
  imap (fun k c => (c, slot start_date interview_duration k)) candidates.

(** The mail that invites a candidate for a time. *)
Definition mail_of (job_details : JobDetails) (s : Candidate * Z) : Mail :=
  {| recipient := cand_email s.1;
     subject := "Interview Invitation: " +:+ details_job_title job_details
                +:+ " at " +:+ details_company job_details;
     invited_for := s.2 |}.

(** The row [i] records the invitation of a candidate to job [j_id] for a
    time. *)
Definition records (isoformat : Z -> string) (j_id : string) (i : Interview)
    (s : Candidate * Z) : Prop :=
  i_resume_id i = cand_resume_id s.1
  /\ i_job_id i = j_id
  /\ interview_date i = Some (isoformat s.2)
  /\ status i = Some "scheduled"
  /\ notes i = None.

(** What identifies an interview: its id, the resume, the job and the
    date. *)
Definition appointment (i : Interview) : Z * string * string * option string :=
  (interview_id i, i_resume_id i, i_job_id i, interview_date i).

(** The status of a row is one of the four that the CHECK constraint of
    the table names. *)
Definition status_ok (i : Interview) : Prop :=
  exists s, status i = Some s /\ s ∈ valid_statuses.

(** The calls that write the interviews table, with what the world does
    during each. *)
Inductive Op : Type :=
| OpSchedule (smtp_of : nat -> bool) (fault_of : nat -> option nat)
    (self : EmailService) (db : DB) (j_id : string) (start_date interview_duration : Z)
| OpUpdate (fault : option nat) (id : Z) (new_status : string) (new_notes : option string).

Section History.
Variable resume_email : string -> string.
Variable order_by_rank_asc : list Ranking -> list Ranking.
Variable isoformat : Z -> string.
Variable new_id : list Interview -> Z.

Definition apply_op (interviews : list Interview) (op : Op) : list Interview :=
  match op with
  | OpSchedule smtp_of fault_of self db j_id start_date interview_duration =>
      interviews_after
        (schedule_interviews resume_email order_by_rank_asc isoformat new_id smtp_of
           fault_of self db interviews j_id start_date interview_duration)
  | OpUpdate fault id new_status new_notes =>
      (update_interview_status fault interviews id new_status new_notes).1.2
  end.

(** The interviews table after a sequence of calls, from the empty one. *)
Definition history (ops : list Op) : list Interview := fold_left apply_op ops [].
End History.

End Scheduler.

(** ** src/agents/mas_controller.py *)

Module Controller.
Import Embedding Database.
Local Open Scope R_scope.

(** The controller: its shortlister and its own embedding service. The two
    agents that call the LLM to fill the tables enter through the ids they
    hand back. *)
Record MAS : Type := {
  shortlister_agent : Shortlister.Agent;
  embedding_service : EmbeddingService
}.

(** The dict returned by [process_job_description] and [process_resume]:
    without or with "success". *)
Inductive Reply : Type :=
| Failure (message : string)
| Success (message : string) (id : string).

(** The metadata dicts handed to the embedding service. *)
Definition jd_metadata_of (jd : JobDescription) : list (string * json) :=
  [("job_title", JStr (job_title jd));
   ("company", JStr (company jd));
   ("skills", JArr (map JStr (jd_skills jd)))].

Definition resume_metadata_of (email : string) (resume : Resume) : list (string * json) :=
  [("name", JStr (name resume));
   ("skills", JArr (map JStr (resume_skills resume)));
   ("email", JStr email)].

(** [process_job_description], from the point where
    [jd_agent.process_and_store] has handed back [stored] (the new job id,
    or None) and left the database [db]. *)
Definition process_job_description (self : MAS) (db : DB) (stored : option string)
    : outcome Reply * MAS :=
  match stored with
  | None => (Returns (Failure "Failed to process job description"), self)
  | Some j_id =>
      if bool_decide (j_id = "")
      then (Returns (Failure "Failed to process job description"), self)
      else
        match Shortlister.get_job_description db j_id with
        | None => (Returns (Failure "Failed to retrieve processed job description"), self)
        | Some jd =>
            let jd_text := Shortlister.jd_text_of Shortlister.indent8 jd in
            match add_jd_embedding (embedding_service self) j_id jd_text
                    (jd_metadata_of jd) with
            | Raises e => (Raises e, self)
            | Returns (_, service) =>
                (Returns (Success "Job description processed successfully" j_id),
                 {| shortlister_agent := shortlister_agent self;
                    embedding_service := service |})
            end
        end
  end.

(** The text the controller builds for a resume (the one of
    [evaluate_semantic_similarity]). *)
Definition resume_text_short (resume : Resume) : string :=
  Shortlister.resume_text_of Shortlister.indent8
    (Shortlister.experience_text_short (experience resume)) resume.

Section Pipeline.
(** The [email] column of the [resumes] row of a resume id. *)
Variable resume_email : string -> string.
(** [index.search] of the index library. *)
Variable index_search : IndexFlatL2 -> vec -> Z -> outcome (list slot).
(** The engine's ordering for [ORDER BY match_score DESC]. *)
Variable order_by_score_desc : list Ranking -> list Ranking.
(** Which call on the connection fails, if any, in the n-th call of
    [shortlist_candidate] made by one loop. *)
Variable fault_of_call : nat -> option nat.

Definition process_resume (self : MAS) (db : DB) (stored : option string)
    : outcome Reply * MAS :=
  match stored with
  | None => (Returns (Failure "Failed to process resume"), self)
  | Some r_id =>
      if bool_decide (r_id = "")
      then (Returns (Failure "Failed to process resume"), self)
      else
        match Shortlister.get_resume db r_id with
        | None => (Returns (Failure "Failed to retrieve processed resume"), self)
        | Some resume =>
            match add_resume_embedding (embedding_service self) r_id
                    (resume_text_short resume)
                    (resume_metadata_of (resume_email r_id) resume) with
            | Raises e => (Raises e, self)
            | Returns (_, service) =>
                (Returns (Success "Resume processed successfully" r_id),
                 {| shortlister_agent := shortlister_agent self;
                    embedding_service := service |})
            end
        end
  end.

(** What a matching loop leaves: the list it returns (or the exception),
    the database and the lines printed by the shortlister. *)
Record MatchRun (A : Type) : Type := {
  result : outcome A;
  final_db : DB;
  output : list Shortlister.message
}.
Arguments result {A} _.
Arguments final_db {A} _.
Arguments output {A} _.

(** A dict of the list returned by [match_resume_to_all_jobs]. *)
Record JobMatch : Type := {
  jm_job_id : string;
  jm_job_title : string;
  jm_company : string;
  jm_match_score : R;
  jm_shortlisted : bool
}.

(** A dict of the list returned by [find_candidates_for_job]. *)
Record CandidateMatch : Type := {
  cm_resume_id : string;
  cm_name : string;
  cm_email : string;
  cm_match_score : R;
  cm_shortlisted : bool
}.

(** [results.sort(key=lambda x: x['match_score'], reverse=True)]: Python's
    sort is stable, also with [reverse]. *)
Definition job_match_ge (a b : JobMatch) : bool :=
  bool_decide (jm_match_score b <= jm_match_score a).

Definition candidate_match_ge (a b : CandidateMatch) : bool :=
  bool_decide (cm_match_score b <= cm_match_score a).

(** The loop of [match_resume_to_all_jobs] over the records found; [n]
    counts the calls of [shortlist_candidate] made so far. *)
Fixpoint score_jobs (self : MAS) (r_id : string) (similar_jds : list SearchResult)
    (n : nat) (db : DB) (results : list JobMatch) (out : list Shortlister.message)
    : MatchRun (list JobMatch) :=
  match similar_jds with
  | [] => {| result := Returns results; final_db := db; output := out |}
  | jd :: rest =>
      let j_id := found_id jd in
      if bool_decide (j_id = "") then score_jobs self r_id rest n db results out
      else
        let run := Shortlister.shortlist_candidate order_by_score_desc (fault_of_call n)
                     (shortlister_agent self) db j_id r_id in
        match Shortlister.returned run with
        | Raises e => {| result := Raises e;
                         final_db := Shortlister.db_after run;
                         output := out ++ Shortlister.printed run |}
        | Returns (match_score, is_shortlisted) =>
            let job_details := Scheduler.get_job_details (Shortlister.db_after run) j_id in
            score_jobs self r_id rest (S n) (Shortlister.db_after run)
              (results
               ++ [{| jm_job_id := j_id;
                      jm_job_title :=
                        from_option Scheduler.details_job_title "" job_details;
                      jm_company := from_option Scheduler.details_company "" job_details;
                      jm_match_score := match_score;
                      jm_shortlisted := is_shortlisted |}])
              (out ++ Shortlister.printed run)
        end
  end.

Definition match_resume_to_all_jobs (self : MAS) (db : DB) (r_id : string)
    : MatchRun (list JobMatch) :=
  match Shortlister.get_resume db r_id with
  | None => {| result := Returns []; final_db := db; output := [] |}
  | Some resume =>
      match search_similar_jds index_search (embedding_service self)
              (resume_text_short resume) 10 with
      | Raises e => {| result := Raises e; final_db := db; output := [] |}
      | Returns similar_jds =>
          let run := score_jobs self r_id similar_jds 0 db [] [] in
          {| result := match result run with
                       | Returns results => Returns (sort_by job_match_ge results)
                       | Raises e => Raises e
                       end;
             final_db := final_db run;
             output := output run |}
      end
  end.

(** The loop of [find_candidates_for_job]. *)
Fixpoint score_candidates (self : MAS) (j_id : string) (min_score : R)
    (similar_resumes : list SearchResult) (n : nat) (db : DB)
    (results : list CandidateMatch) (out : list Shortlister.message)
    : MatchRun (list CandidateMatch) :=
  match similar_resumes with
  | [] => {| result := Returns results; final_db := db; output := out |}
  | resume :: rest =>
      let r_id := found_id resume in
      if bool_decide (r_id = "") then score_candidates self j_id min_score rest n db results out
      else
        let run := Shortlister.shortlist_candidate order_by_score_desc (fault_of_call n)
                     (shortlister_agent self) db j_id r_id in
        match Shortlister.returned run with
        | Raises e => {| result := Raises e;
                         final_db := Shortlister.db_after run;
                         output := out ++ Shortlister.printed run |}
        | Returns (match_score, is_shortlisted) =>
            if bool_decide (min_score <= match_score) then
              let resume_details := Shortlister.get_resume (Shortlister.db_after run) r_id in
              score_candidates self j_id min_score rest (S n) (Shortlister.db_after run)
                (results
                 ++ [{| cm_resume_id := r_id;
                        cm_name := from_option name "" resume_details;
                        cm_email := match resume_details with
                                    | Some _ => resume_email r_id
                                    | None => ""
                                    end;
                        cm_match_score := match_score;
                        cm_shortlisted := is_shortlisted |}])
                (out ++ Shortlister.printed run)
            else
              score_candidates self j_id min_score rest (S n) (Shortlister.db_after run)
                results (out ++ Shortlister.printed run)
        end
  end.

Definition find_candidates_for_job (self : MAS) (db : DB) (j_id : string) (min_score : R)
    : MatchRun (list CandidateMatch) :=
  match Shortlister.get_job_description db j_id with
  | None => {| result := Returns []; final_db := db; output := [] |}
  | Some jd =>
      match search_similar_resumes index_search (embedding_service self)
              (Shortlister.jd_text_of Shortlister.indent8 jd) 20 with
      | Raises e => {| result := Raises e; final_db := db; output := [] |}
      | Returns similar_resumes =>
          let run := score_candidates self j_id min_score similar_resumes 0 db [] [] in
          {| result := match result run with
                       | Returns results => Returns (sort_by candidate_match_ge results)
                       | Raises e => Raises e
                       end;
             final_db := final_db run;
             output := output run |}
      end
  end.

(** *** Derived notions used in the statements below *)

(** A step of ingestion: a job description or a resume handed to the
    controller, with the database as the storing agent left it. *)
Inductive Step : Type :=
| ProcessJD (db : DB) (stored : option string)
| ProcessResume (db : DB) (stored : option string).

Definition step (self : MAS) (s : Step) : MAS :=
  match s with
  | ProcessJD db stored => snd (process_job_description self db stored)
  | ProcessResume db stored => snd (process_resume self db stored)
  end.

(** The controller after a sequence of steps; a step that fails or raises
    leaves it as it was. *)
Definition ingest (self : MAS) (steps : list Step) : MAS := fold_left step steps self.

End Pipeline.

Arguments result {A} _.
Arguments final_db {A} _.
Arguments output {A} _.

(** The embedding service as [EmbeddingService.__init__] builds it when
    there is no file under [embeddings/]: two empty indices of the
    encoder's dimension, two empty metadata dicts. *)
Definition fresh_service (encoder : string -> vec) (dim : nat) : EmbeddingService :=
  {| encode := encoder;
     embedding_dim := dim;
     jd_index := {| d := dim; xb := [] |};
     resume_index := {| d := dim; xb := [] |};
     jd_metadata := ∅;
     resume_metadata := ∅ |}.

(** The index and the metadata go together: the keys of the metadata are
    the ordinals below [ntotal], written in decimal, and every stored
    vector has the dimension of the index. *)
Definition in_step (idx : IndexFlatL2) (meta : gmap string MetaEntry) : Prop :=
  (forall key, is_Some (meta !! key) <-> exists i, (i < ntotal idx)%nat /\ key = pretty i)
  /\ Forall (fun v => length v = d idx) (xb idx).

(** No entry on file has an empty id. *)
Definition ids_given (meta : gmap string MetaEntry) : Prop :=
  forall key e, meta !! key = Some e -> ext_id e <> "".

End Controller.

(** ** Sample data on which the definitions are run *)

Module Examples.
Import Embedding Database Shortlister.
Local Open Scope R_scope.

(** An encoder with one-dimensional embeddings: the text "jd" is sent to
    [1], every other text to [-1]. *)
Definition sign_encoder (text : string) : vec :=
  if String.eqb text "jd" then [1] else [-1].

(** The service right after [__init__] with no files under [embeddings/]. *)
Definition svc0 : EmbeddingService :=
  {| encode := sign_encoder;
     embedding_dim := 1;
     jd_index := {| d := 1; xb := [] |};
     resume_index := {| d := 1; xb := [] |};
     jd_metadata := ∅;
     resume_metadata := ∅ |}.

Definition entry_J1 : MetaEntry := {| ext_id := "J1"; metadata := [] |}.
Definition entry_R1 : MetaEntry := {| ext_id := "R1"; metadata := [] |}.

(** [svc0] after one job description "J1" and one resume "R1". *)
Definition svc1 : EmbeddingService :=
  {| encode := sign_encoder;
     embedding_dim := 1;
     jd_index := {| d := 1; xb := [[1]] |};
     resume_index := {| d := 1; xb := [[-1]] |};
     jd_metadata := <["0" := entry_J1]> ∅;
     resume_metadata := <["0" := entry_R1]> ∅ |}.

(** A service with three job descriptions, the first and the third with
    the same embedding, and two resumes with the same embedding. *)
Definition svc3 : EmbeddingService :=
  {| encode := sign_encoder;
     embedding_dim := 1;
     jd_index := {| d := 1; xb := [[1]; [-1]; [1]] |};
     resume_index := {| d := 1; xb := [[-1]; [-1]] |};
     jd_metadata :=
       <["2" := {| ext_id := "J3"; metadata := [] |}]>
         (<["1" := {| ext_id := "J2"; metadata := [] |}]> (<["0" := entry_J1]> ∅));
     resume_metadata :=
       <["1" := {| ext_id := "R2"; metadata := [] |}]> (<["0" := entry_R1]> ∅) |}.

(** A database with one job description and one resume, no ranking yet. *)
Definition jd1 : JobDescription :=
  {| job_title := "Backend Engineer"; company := "Acme"; description := "Builds services";
     jd_skills := ["python"; "sql"]; experience_required := "2 years";
     qualification := "BSc" |}.

Definition resume1 : Resume :=
  {| name := "Jane Doe"; resume_skills := ["python"];
     experience := [{| exp_company := "Initech"; position := "Developer";
                       exp_dates := "2020-2023";
                       responsibilities := RespList ["APIs"; "Reviews"] |}];
     education := [{| institution := "MIT"; degree := "BSc"; edu_dates := "2016-2020" |}] |}.

Definition db1 : DB :=
  {| job_descriptions := <["J1" := jd1]> ∅;
     resumes := <["R1" := resume1]> ∅;
     rankings := [] |}.

(** A judge that answers every prompt with an overall score of 90, and one
    whose call always raises. *)
Definition judge90 (job_description resume_text : string) : llm_reply :=
  ReplyText (Some (JObj [("skills_score", JNum 95); ("overall_score", JNum 90)])).

Definition judge_down (job_description resume_text : string) : llm_reply := InvokeRaises.

Definition agent90 : Agent := __init__ svc0 "gsk" judge90.
Definition agent_down : Agent := __init__ svc0 "gsk" judge_down.



(** An agent started without GROQ_API_KEY. *)
Definition agent_nokey : Agent := __init__ svc0 "" judge90.

(** A call for job "J1" and the given resume, made without API key on a
    database that holds neither the job nor the resume, nothing failing. *)
Definition call_for (r_id : string) : Call :=
  {| c_service := svc0; c_api_key := ""; c_llm := judge90;
     c_jobs := ∅; c_resumes := ∅; c_fault := None;
     c_job := "J1"; c_resume := r_id |}.

(** A judge whose object has no "overall_score", and one whose
    "overall_score" is a string. *)
Definition judge_partial (job_description resume_text : string) : llm_reply :=
  ReplyText (Some (JObj [("skills_score", JNum 70)])).

Definition judge_text (job_description resume_text : string) : llm_reply :=
  ReplyText (Some (JObj [("overall_score", JStr "90%")])).

Definition agent_partial : Agent := __init__ svc0 "gsk" judge_partial.
Definition agent_text : Agent := __init__ svc0 "gsk" judge_text.

Definition entry_J2 : MetaEntry :=
  {| ext_id := "J2"; metadata := [("job_title", JStr "Data Engineer")] |}.
Definition entry_R2 : MetaEntry :=
  {| ext_id := "R2"; metadata := [("name", JStr "John Roe")] |}.

(** [svc1] after the job description "J2" has been added. *)
Definition svc1_J2 : EmbeddingService :=
  {| encode := sign_encoder;
     embedding_dim := 1;
     jd_index := {| d := 1; xb := [[1]; [-1]] |};
     resume_index := {| d := 1; xb := [[-1]] |};
     jd_metadata := <["1" := entry_J2]> (<["0" := entry_J1]> ∅);
     resume_metadata := <["0" := entry_R1]> ∅ |}.

(** [svc1] after the resume "R2" has been added. *)
Definition svc1_R2 : EmbeddingService :=
  {| encode := sign_encoder;
     embedding_dim := 1;
     jd_index := {| d := 1; xb := [[1]] |};
     resume_index := {| d := 1; xb := [[-1]; [-1]] |};
     jd_metadata := <["0" := entry_J1]> ∅;
     resume_metadata := <["1" := entry_R2]> (<["0" := entry_R1]> ∅) |}.

(** A controller with the judge that answers 90 and the service [svc1]. *)
Definition mas1 : Controller.MAS :=
  {| Controller.shortlister_agent := agent90; Controller.embedding_service := svc1 |}.

(** A controller before any ingestion. *)
Definition mas0 : Controller.MAS :=
  {| Controller.shortlister_agent := agent90;
     Controller.embedding_service := Controller.fresh_service sign_encoder 1 |}.

Definition no_fault (n : nat) : option nat := None.

Definition sample_email (r_id : string) : string := "jane@example.org".

(** What [match_resume_to_all_jobs] returns for "R1" on [db1]. *)
Definition sample_job_matches : list Controller.JobMatch :=
  [{| Controller.jm_job_id := "J1";
      Controller.jm_job_title := "Backend Engineer";
      Controller.jm_company := "Acme";
      Controller.jm_match_score := 96;
      Controller.jm_shortlisted := true |}].

(** What [find_candidates_for_job] returns for "J1" on [db1] with
    [min_score = 50]. *)
Definition sample_candidate_matches : list Controller.CandidateMatch :=
  [{| Controller.cm_resume_id := "R1";
      Controller.cm_name := "Jane Doe";
      Controller.cm_email := "jane@example.org";
      Controller.cm_match_score := 96;
      Controller.cm_shortlisted := true |}].

(** The call that scores "R1" for "J1" on [db1] with the judge that
    answers 90, and the database it leaves. *)
Definition call_db1 : Call :=
  {| c_service := svc0; c_api_key := "gsk"; c_llm := judge90;
     c_jobs := job_descriptions db1; c_resumes := resumes db1; c_fault := None;
     c_job := "J1"; c_resume := "R1" |}.

Definition db1_scored : DB :=
  {| job_descriptions := job_descriptions db1;
     resumes := resumes db1;
     rankings := replay stable_order_by_score_desc [call_db1] [] |}.

(** [db1] with "R1" ranked first for "J1" and shortlisted. *)
Definition db1_ranked : DB :=
  {| job_descriptions := job_descriptions db1;
     resumes := resumes db1;
     rankings := [{| resume_id := "R1"; job_id := "J1"; match_score := 96;
                     rank := Some 1%nat; shortlisted := true |}] |}.

Definition details_J1 : Scheduler.JobDetails :=
  {| Scheduler.details_job_id := "J1";
     Scheduler.details_job_title := "Backend Engineer";
     Scheduler.details_company := "Acme";
     Scheduler.details_description := "Builds services" |}.

(** A mail service with credentials and one without. *)
Definition mailer : Email.EmailService :=
  {| Email.smtp_username := "hr@acme.example"; Email.smtp_password := "secret" |}.

Definition mailer_anon : Email.EmailService :=
  {| Email.smtp_username := ""; Email.smtp_password := "" |}.

(** A server that accepts every mail, a clock format that names every time
    alike and reads it back as 0, and ids counted from 1. *)
Definition smtp_up (k : nat) : bool := true.

Definition sample_isoformat (t : Z) : string := "0001-01-01T00:00:00".

Definition sample_fromisoformat (text : string) : option Z :=
  if String.eqb text "0001-01-01T00:00:00" then Some 0%Z else None.

Definition count_id (interviews : list Email.Interview) : Z :=
  Z.of_nat (S (length interviews)).

Definition keep_order (interviews : list Email.Interview) : list Email.Interview :=
  interviews.

(** An interviews table with one row. *)
Definition interviews1 : list Email.Interview :=
  [{| Email.interview_id := 1; Email.i_resume_id := "R1"; Email.i_job_id := "J1";
      Email.interview_date := Some "next Monday"; Email.status := Some "scheduled";
      Email.notes := None |}].

(** The one record a search over the resumes of [svc1] hands back. *)
Definition sample_resume_hit : SearchResult :=
  {| index_id := 0; found_id := "R1"; found_metadata := [];
     similarity := 1 - l2sqr [-1] [-1] |}.

End Examples.

(** * Properties *)

(** ** The stable insertion sort *)

Section StableSortFacts.
Context {A : Type} (before : A -> A -> bool).

Lemma insert_by_perm (x : A) (l : list A) : Permutation (insert_by before x l) (x :: l).
Proof.
  induction l as [|y l IH]; simpl; [reflexivity|].
  destruct (before x y); [reflexivity|].
  rewrite IH. apply perm_swap.
Qed.

Lemma sort_by_perm (l : list A) : Permutation (sort_by before l) l.
Proof.
  induction l as [|x l IH]; simpl; [reflexivity|].
  rewrite insert_by_perm. now constructor.
Qed.

Hypothesis before_total : forall x y, before x y = false -> before y x = true.
Hypothesis before_trans :
  forall x y z, before x y = true -> before y z = true -> before x z = true.

Lemma insert_by_sorted (x : A) (l : list A) :
  StronglySorted (fun a b => before a b = true) l ->
  StronglySorted (fun a b => before a b = true) (insert_by before x l).
Proof.
  induction 1 as [|y l Hs IH Hy]; simpl.
  - repeat constructor.
  - destruct (before x y) eqn:Hxy.
    + constructor; [now constructor|].
      constructor; [exact Hxy|].
      eapply Forall_impl; [exact Hy|]. intros z Hz. simpl in Hz. eauto.
    + constructor; [exact IH|].
      rewrite insert_by_perm. constructor; [auto|exact Hy].
Qed.

Lemma sort_by_sorted (l : list A) :
  StronglySorted (fun a b => before a b = true) (sort_by before l).
Proof.
  induction l as [|x l IH]; simpl; [constructor|].
  now apply insert_by_sorted.
Qed.
End StableSortFacts.

(** ** The embedding service *)

Section EmbeddingFacts.
Import Embedding Examples.
Local Open Scope R_scope.

Lemma dot_div_by (a b : vec) (n m : R) :
  n <> 0 -> m <> 0 -> dot (div_by a n) (div_by b m) = dot a b / (n * m).
Proof.
  intros Hn Hm. unfold dot, div_by.
  revert b. induction a as [|x a IH]; intros [|y b]; simpl;
    try (field; split; assumption).
  rewrite IH. field. split; assumption.
Qed.

Lemma norm_singleton_1 : norm [1] = 1.
Proof.
  unfold norm, dot. simpl. replace (1 * 1 + 0) with 1 by lra. apply sqrt_1.
Qed.

Lemma norm_singleton_m1 : norm [-1] = 1.
Proof.
  unfold norm, dot. simpl. replace (-1 * -1 + 0) with 1 by lra. apply sqrt_1.
Qed.

(** C4, as amended: for texts whose embeddings have a non-zero norm,
    [calculate_similarity] is the cosine dot(a,b)/(norm(a)*norm(b)) of the
    two embeddings, as it is: no clamping to [0,1] is applied. *)
Theorem calculate_similarity_is_plain_cosine
    (self : EmbeddingService) (jd_text resume_text : string) :
  norm (get_embedding self jd_text) <> 0 ->
  norm (get_embedding self resume_text) <> 0 ->
  calculate_similarity self jd_text resume_text
  = dot (get_embedding self jd_text) (get_embedding self resume_text)
    / (norm (get_embedding self jd_text) * norm (get_embedding self resume_text)).
Proof.
  intros Ha Hb. unfold calculate_similarity. now apply dot_div_by.
Qed.

(** The statement above at the sample service, for the texts "jd" and "cv". *)
Lemma calculate_similarity_is_plain_cosine_witness :
  norm (get_embedding svc0 "jd") <> 0
  /\ norm (get_embedding svc0 "cv") <> 0
  /\ calculate_similarity svc0 "jd" "cv"
     = dot (get_embedding svc0 "jd") (get_embedding svc0 "cv")
       / (norm (get_embedding svc0 "jd") * norm (get_embedding svc0 "cv")).
Proof.
  assert (H1 : norm (get_embedding svc0 "jd") <> 0).
  { change (norm [1] <> 0). rewrite norm_singleton_1. lra. }
  assert (H2 : norm (get_embedding svc0 "cv") <> 0).
  { change (norm [-1] <> 0). rewrite norm_singleton_m1. lra. }
  split; [exact H1|]. split; [exact H2|].
  exact (calculate_similarity_is_plain_cosine svc0 "jd" "cv" H1 H2).
Defined.

(** C4 as stated fails: two opposite embeddings have similarity -1, where
    the clamped cosine would be 0. *)
Lemma calculate_similarity_not_clamped :
  calculate_similarity svc0 "jd" "cv" = -1
  /\ Rmax 0 (Rmin 1 (dot (get_embedding svc0 "jd") (get_embedding svc0 "cv")
                     / (norm (get_embedding svc0 "jd") * norm (get_embedding svc0 "cv")))) = 0
  /\ calculate_similarity svc0 "jd" "cv"
     <> Rmax 0 (Rmin 1 (dot (get_embedding svc0 "jd") (get_embedding svc0 "cv")
                       / (norm (get_embedding svc0 "jd") * norm (get_embedding svc0 "cv")))).
Proof.
  assert (Hs : calculate_similarity svc0 "jd" "cv" = -1).
  { unfold calculate_similarity. change (get_embedding svc0 "jd") with [1].
    change (get_embedding svc0 "cv") with [-1].
    rewrite norm_singleton_1, norm_singleton_m1. unfold dot, div_by. simpl. lra. }
  assert (Hc : Rmax 0 (Rmin 1 (dot (get_embedding svc0 "jd") (get_embedding svc0 "cv")
                 / (norm (get_embedding svc0 "jd") * norm (get_embedding svc0 "cv")))) = 0).
  { change (get_embedding svc0 "jd") with [1].
    change (get_embedding svc0 "cv") with [-1].
    rewrite norm_singleton_1, norm_singleton_m1. unfold dot. simpl.
    replace (1 * -1 + 0) with (-1) by lra. replace (-1 / (1 * 1)) with (-1) by lra.
    rewrite Rmin_right by lra. apply Rmax_left. lra. }
  split; [exact Hs|]. split; [exact Hc|]. rewrite Hs, Hc. lra.
Qed.

(** C7, as amended: an insert never looks at the ids already filed. When
    the embedding has the dimension of the index, [add_jd_embedding] and
    [add_resume_embedding] append the vector, return the new ordinal (the
    former [ntotal]) and file the given id under it; every entry filed
    under another ordinal stays, one with the same external id included. *)
Theorem add_embedding_appends_whatever_the_id
    (self : EmbeddingService) (ext text : string) (meta : list (string * json)) :
  length (get_embedding self text) = d (jd_index self) ->
  length (get_embedding self text) = d (resume_index self) ->
  (exists self',
      add_jd_embedding self ext text meta = Returns (ntotal (jd_index self), self')
      /\ xb (jd_index self') = xb (jd_index self) ++ [get_embedding self text]
      /\ jd_metadata self' !! pretty (ntotal (jd_index self))
         = Some {| ext_id := ext; metadata := meta |}
      /\ forall key e, key <> pretty (ntotal (jd_index self)) ->
           jd_metadata self !! key = Some e -> jd_metadata self' !! key = Some e)
  /\ (exists self',
      add_resume_embedding self ext text meta = Returns (ntotal (resume_index self), self')
      /\ xb (resume_index self') = xb (resume_index self) ++ [get_embedding self text]
      /\ resume_metadata self' !! pretty (ntotal (resume_index self))
         = Some {| ext_id := ext; metadata := meta |}
      /\ forall key e, key <> pretty (ntotal (resume_index self)) ->
           resume_metadata self !! key = Some e -> resume_metadata self' !! key = Some e).
Proof.
  intros Hj Hr. split.
  - unfold add_jd_embedding, index_add. rewrite decide_True by exact Hj.
    eexists. split; [reflexivity|]. simpl. split; [reflexivity|].
    split; [apply lookup_insert_eq|].
    intros key e Hk He. rewrite lookup_insert_ne by congruence. exact He.
  - unfold add_resume_embedding, index_add. rewrite decide_True by exact Hr.
    eexists. split; [reflexivity|]. simpl. split; [reflexivity|].
    split; [apply lookup_insert_eq|].
    intros key e Hk He. rewrite lookup_insert_ne by congruence. exact He.
Qed.

(** The statement above at [svc1], adding "J1" once more. *)
Lemma add_embedding_appends_whatever_the_id_witness :
  (exists self',
      add_jd_embedding svc1 "J1" "jd" [] = Returns (ntotal (jd_index svc1), self')
      /\ xb (jd_index self') = xb (jd_index svc1) ++ [get_embedding svc1 "jd"]
      /\ jd_metadata self' !! pretty (ntotal (jd_index svc1))
         = Some {| ext_id := "J1"; metadata := [] |}
      /\ forall key e, key <> pretty (ntotal (jd_index svc1)) ->
           jd_metadata svc1 !! key = Some e -> jd_metadata self' !! key = Some e)
  /\ (exists self',
      add_resume_embedding svc1 "J1" "jd" [] = Returns (ntotal (resume_index svc1), self')
      /\ xb (resume_index self') = xb (resume_index svc1) ++ [get_embedding svc1 "jd"]
      /\ resume_metadata self' !! pretty (ntotal (resume_index svc1))
         = Some {| ext_id := "J1"; metadata := [] |}
      /\ forall key e, key <> pretty (ntotal (resume_index svc1)) ->
           resume_metadata svc1 !! key = Some e -> resume_metadata self' !! key = Some e).
Proof.
  apply (add_embedding_appends_whatever_the_id svc1 "J1" "jd" []); reflexivity.
Defined.

(** C7 as stated fails: "J1" and "R1" are on file in [svc1] under ordinal
    0, and adding them again succeeds with ordinal 1; the index then holds
    two vectors and the metadata two entries for the same id. *)
Lemma duplicate_id_is_inserted :
  jd_metadata svc1 !! "0" = Some entry_J1
  /\ resume_metadata svc1 !! "0" = Some entry_R1
  /\ match add_jd_embedding svc1 "J1" "jd" [] with
     | Returns (ordinal, self') =>
         ordinal = 1%nat
         /\ ntotal (jd_index svc1) = 1%nat /\ ntotal (jd_index self') = 2%nat
         /\ jd_metadata self' !! "0" = Some entry_J1
         /\ jd_metadata self' !! "1" = Some entry_J1
     | Raises _ => False
     end
  /\ match add_resume_embedding svc1 "R1" "cv" [] with
     | Returns (ordinal, self') =>
         ordinal = 1%nat
         /\ ntotal (resume_index svc1) = 1%nat /\ ntotal (resume_index self') = 2%nat
         /\ resume_metadata self' !! "0" = Some entry_R1
         /\ resume_metadata self' !! "1" = Some entry_R1
     | Raises _ => False
     end.
Proof.
  repeat split; reflexivity.
Qed.

(** *** Searching *)

Lemma collect_results_hits (meta : gmap string MetaEntry) (hits : list (R * nat)) :
  collect_results meta (map Some hits)
  = map (fun h => {| index_id := snd h;
                     found_id := from_option ext_id "" (meta !! pretty (snd h));
                     found_metadata := from_option metadata [] (meta !! pretty (snd h));
                     similarity := 1 - fst h |}) hits.
Proof.
  induction hits as [|[dist idx] hits IH]; simpl; [reflexivity|].
  now rewrite IH.
Qed.

Lemma hit_le_total (h1 h2 : R * nat) : hit_le h1 h2 = false -> hit_le h2 h1 = true.
Proof.
  unfold hit_le. intros H. apply bool_decide_eq_false in H.
  apply bool_decide_eq_true. lra.
Qed.

Lemma hit_le_trans (h1 h2 h3 : R * nat) :
  hit_le h1 h2 = true -> hit_le h2 h3 = true -> hit_le h1 h3 = true.
Proof.
  unfold hit_le. rewrite !bool_decide_eq_true. lra.
Qed.

(** The model [flat_search] of the library's search meets the contract. *)
Lemma flat_search_contract : search_contract flat_search.
Proof.
  intros idx q k Hd [Hk0 Hkn]. unfold flat_search.
  rewrite decide_True by exact Hd. rewrite decide_True by exact Hk0.
  set (scored := imap (fun i v => (l2sqr q v, i)) (xb idx)).
  assert (Hlen : length (take (Z.to_nat k) (sort_by hit_le scored)) = Z.to_nat k).
  { apply length_take_le. rewrite (Permutation_length (sort_by_perm hit_le scored)).
    unfold scored. rewrite length_imap. unfold ntotal in Hkn. lia. }
  exists (take (Z.to_nat k) (sort_by hit_le scored)).
  rewrite Hlen, Nat.sub_diag. simpl. rewrite app_nil_r.
  split; [reflexivity|]. split; [reflexivity|]. split.
  - pose proof (sort_by_sorted hit_le hit_le_total hit_le_trans scored) as Hs.
    rewrite <- (take_drop (Z.to_nat k) (sort_by hit_le scored)) in Hs.
    apply StronglySorted_app_1_l in Hs.
    rewrite <- (list_fmap_id (take _ _)).
    eapply StronglySorted_fmap; [|exact Hs].
    intros x y Hxy. unfold hit_le in Hxy. now apply bool_decide_eq_true in Hxy.
  - apply Forall_forall. intros h Hh.
    apply subseteq_take in Hh.
    rewrite (sort_by_perm hit_le scored) in Hh.
    apply elem_of_lookup_imap_1 in Hh as (i & v & -> & Hv).
    exists v. simpl. split; [exact Hv|reflexivity].
Qed.

Section SearchFacts.
Variable index_search : IndexFlatL2 -> vec -> Z -> outcome (list slot).
Hypothesis index_search_ok : search_contract index_search.

Lemma search_listing (idx : IndexFlatL2) (meta : gmap string MetaEntry) (q : vec) (k : Z) :
  length q = d idx -> ntotal idx <> 0%nat -> (0 < k)%Z ->
  exists results,
    (index_search idx q (Z.min k (Z.of_nat (ntotal idx)))
       ≫= fun hits => Returns (collect_results meta hits)) = Returns results
    /\ nearest_listing idx meta q (Z.to_nat (Z.min k (Z.of_nat (ntotal idx)))) results.
Proof.
  intros Hd Hn Hk.
  destruct (index_search_ok idx q (Z.min k (Z.of_nat (ntotal idx))) Hd)
    as (hits & Hret & Hlen & Hsorted & Hall); [lia|].
  rewrite Hret. eexists. split; [reflexivity|].
  rewrite collect_results_hits. split; [|split].
  - now rewrite length_map.
  - eapply StronglySorted_fmap; [|exact Hsorted].
    intros x y Hxy. simpl. lra.
  - apply Forall_fmap. eapply Forall_impl; [exact Hall|].
    intros h (v & Hv & Hdist). exists v. simpl.
    split; [exact Hv|]. split; [lra|reflexivity].
Qed.

End SearchFacts.

(** *** The order of the exact search *)

Lemma hit_before_le (h1 h2 : R * nat) : hit_before h1 h2 -> fst h1 <= fst h2.
Proof. intros [H | [H _]]; lra. Qed.

(** Inserting a hit whose ordinal is below all those of a list in
    [hit_before] order keeps that order: among equal distances the new hit
    goes first. *)
Lemma insert_by_hit_before (x : R * nat) (l : list (R * nat)) :
  StronglySorted hit_before l ->
  Forall (fun h => (snd x < snd h)%nat) l ->
  StronglySorted hit_before (insert_by hit_le x l).
Proof.
  intros Hs. induction Hs as [|y l Hs IH Hy]; intros Hx; simpl.
  - repeat constructor.
  - apply Forall_cons in Hx as [Hxy Hx].
    unfold hit_le at 1. case_bool_decide as Hle.
    + constructor; [now constructor|].
      assert (Hxz : forall z, fst y <= fst z -> (snd x < snd z)%nat -> hit_before x z).
      { intros z Hyz Hlt. destruct (Rle_lt_or_eq_dec (fst x) (fst z)) as [H|H]; [lra| |].
        - now left.
        - right. now split. }
      constructor; [apply Hxz; [lra|exact Hxy]|].
      rewrite Forall_forall in Hy, Hx. apply Forall_forall. intros z Hz.
      apply Hxz; [apply hit_before_le, Hy, Hz|apply Hx, Hz].
    + constructor; [apply IH, Hx|].
      rewrite (insert_by_perm hit_le x l). constructor; [left; lra|exact Hy].
Qed.

Lemma sort_by_hit_before (q : vec) (vs : list vec) :
  forall n : nat,
    StronglySorted hit_before (sort_by hit_le (imap (fun i v => (l2sqr q v, n + i)%nat) vs)).
Proof.
  induction vs as [|v vs IH]; intros n; [constructor|].
  rewrite imap_cons. cbn [sort_by fold_right].
  rewrite (imap_ext ((fun i v0 => (l2sqr q v0, (n + i)%nat)) ∘ S)
             (fun i v0 => (l2sqr q v0, (S n + i)%nat)) vs)
    by (intros i x _; simpl; f_equal; lia).
  apply insert_by_hit_before; [apply (IH (S n))|].
  change (fold_right (insert_by hit_le) []
            (imap (fun i v0 => (l2sqr q v0, (S n + i)%nat)) vs))
    with (sort_by hit_le (imap (fun i v0 => (l2sqr q v0, (S n + i)%nat)) vs)).
  rewrite (sort_by_perm hit_le). apply Forall_forall. intros h Hh.
  apply elem_of_lookup_imap_1 in Hh as (i & w & -> & _). simpl. lia.
Qed.

(** The model [flat_search] is an exact search in this sense. *)
Lemma flat_search_exact : exact_search_contract flat_search.
Proof.
  split.
  - intros idx q k Hk. unfold flat_search.
    destruct (decide (length q = d idx)); [|reflexivity].
    now rewrite decide_False by lia.
  - intros idx q k Hd [Hk0 Hkn]. unfold flat_search.
    rewrite decide_True by exact Hd. rewrite decide_True by exact Hk0.
    set (scored := imap (fun i v => (l2sqr q v, i)) (xb idx)).
    assert (Hlen : length (take (Z.to_nat k) (sort_by hit_le scored)) = Z.to_nat k).
    { apply length_take_le. rewrite (Permutation_length (sort_by_perm hit_le scored)).
      unfold scored. rewrite length_imap. unfold ntotal in Hkn. lia. }
    exists (take (Z.to_nat k) (sort_by hit_le scored)).
    rewrite Hlen, Nat.sub_diag. simpl. rewrite app_nil_r.
    split; [reflexivity|]. split; [reflexivity|].
    pose proof (sort_by_hit_before q (xb idx) 0) as Hs. simpl in Hs. fold scored in Hs.
    rewrite <- (take_drop (Z.to_nat k) (sort_by hit_le scored)) in Hs.
    split; [exact (StronglySorted_app_1_l _ _ _ Hs)|]. split.
    + apply Forall_forall. intros h Hh.
      apply subseteq_take in Hh.
      rewrite (sort_by_perm hit_le scored) in Hh.
      apply elem_of_lookup_imap_1 in Hh as (i & v & -> & Hv).
      exists v. simpl. split; [exact Hv|reflexivity].
    + intros i v Hv.
      assert (Hin : (l2sqr q v, i) ∈ take (Z.to_nat k) (sort_by hit_le scored)
                                      ++ drop (Z.to_nat k) (sort_by hit_le scored)).
      { rewrite take_drop, (sort_by_perm hit_le scored).
        exact (elem_of_lookup_imap_2 (fun i v => (l2sqr q v, i)) (xb idx) v i Hv). }
      apply elem_of_app in Hin as [Hin | Hin].
      * left. apply in_map_iff. exists (l2sqr q v, i). split; [reflexivity|].
        now apply list_elem_of_In.
      * right. apply Forall_forall. intros h Hh.
        exact (hit_before_le _ _ (StronglySorted_app_1_elem_of _ _ _ _ _ Hs Hh Hin)).
Qed.

Section NearestFacts.
Variable index_search : IndexFlatL2 -> vec -> Z -> outcome (list slot).
Hypothesis index_search_exact : exact_search_contract index_search.

Lemma search_nearest (idx : IndexFlatL2) (meta : gmap string MetaEntry) (q : vec) (k : Z) :
  length q = d idx -> ntotal idx <> 0%nat -> (0 < k)%Z ->
  exists results,
    (index_search idx q (Z.min k (Z.of_nat (ntotal idx)))
       ≫= fun hits => Returns (collect_results meta hits)) = Returns results
    /\ nearest_first idx meta q (Z.to_nat (Z.min k (Z.of_nat (ntotal idx)))) results.
Proof.
  intros Hd Hn Hk.
  destruct (proj2 index_search_exact idx q (Z.min k (Z.of_nat (ntotal idx))) Hd)
    as (hits & Hret & Hlen & Hsorted & Hall & Hnear); [lia|].
  rewrite Hret. eexists. split; [reflexivity|].
  rewrite collect_results_hits. split; [|split; [|split]].
  - now rewrite length_map.
  - eapply StronglySorted_fmap; [|exact Hsorted].
    intros x y [Hxy | [Hxy Hord]]; simpl; [left; lra|right; split; [lra|exact Hord]].
  - apply Forall_fmap. eapply Forall_impl; [exact Hall|].
    intros h (v & Hv & Hdist). exists v. simpl.
    split; [exact Hv|]. split; [lra|reflexivity].
  - intros i v Hv. destruct (Hnear i v Hv) as [Hin | Hfar].
    + left. now rewrite map_map.
    + right. apply Forall_fmap. eapply Forall_impl; [exact Hfar|].
      intros h Hh. simpl. lra.
Qed.

Lemma search_refused (idx : IndexFlatL2) (meta : gmap string MetaEntry) (q : vec) (k : Z) :
  (k <= 0)%Z ->
  (index_search idx q (Z.min k (Z.of_nat (ntotal idx)))
     ≫= fun hits => Returns (collect_results meta hits)) = Raises AssertionError.
Proof.
  intros Hk. now rewrite (proj1 index_search_exact idx q _) by lia.
Qed.

(** C8, as amended: with an exact search as the index library's, and a
    query of the collection's dimension, a search on an empty collection
    returns the empty list for every [k], zero and negative ones included
    (the code tests for emptiness first and never looks at [k]); on a
    collection that is not empty a positive [k] yields the min(k, ntotal)
    nearest records, by non-decreasing distance with ties broken by
    ascending ordinal, and a [k <= 0] fails with the AssertionError of the
    index library. *)
Theorem search_similar_nearest (self : EmbeddingService) (text : string) (k : Z) :
  length (get_embedding self text) = d (jd_index self) ->
  length (get_embedding self text) = d (resume_index self) ->
  ((ntotal (jd_index self) = 0%nat ->
      search_similar_jds index_search self text k = Returns [])
   /\ (ntotal (jd_index self) <> 0%nat -> (0 < k)%Z ->
       exists results,
         search_similar_jds index_search self text k = Returns results
         /\ nearest_first (jd_index self) (jd_metadata self) (get_embedding self text)
              (Z.to_nat (Z.min k (Z.of_nat (ntotal (jd_index self))))) results)
   /\ (ntotal (jd_index self) <> 0%nat -> (k <= 0)%Z ->
       search_similar_jds index_search self text k = Raises AssertionError))
  /\ ((ntotal (resume_index self) = 0%nat ->
      search_similar_resumes index_search self text k = Returns [])
   /\ (ntotal (resume_index self) <> 0%nat -> (0 < k)%Z ->
       exists results,
         search_similar_resumes index_search self text k = Returns results
         /\ nearest_first (resume_index self) (resume_metadata self)
              (get_embedding self text)
              (Z.to_nat (Z.min k (Z.of_nat (ntotal (resume_index self))))) results)
   /\ (ntotal (resume_index self) <> 0%nat -> (k <= 0)%Z ->
       search_similar_resumes index_search self text k = Raises AssertionError)).
Proof.
  intros Hj Hr. split; (split; [|split]).
  - intros H0. unfold search_similar_jds. now rewrite decide_True by exact H0.
  - intros Hn Hk. unfold search_similar_jds. rewrite decide_False by exact Hn.
    now apply search_nearest.
  - intros Hn Hk. unfold search_similar_jds. rewrite decide_False by exact Hn.
    now apply search_refused.
  - intros H0. unfold search_similar_resumes. now rewrite decide_True by exact H0.
  - intros Hn Hk. unfold search_similar_resumes. rewrite decide_False by exact Hn.
    now apply search_nearest.
  - intros Hn Hk. unfold search_similar_resumes. rewrite decide_False by exact Hn.
    now apply search_refused.
Qed.

End NearestFacts.

End EmbeddingFacts.

Section SearchExamples.
Import Embedding Examples.

(** On [svc3] the first and the third job description are equally near
    to the query "jd", the second is farther: a search with [k = 2] hands
    back the ordinals 0 and 2, in this order. A search with [k = 0] fails. *)
Lemma search_ties_by_ordinal :
  search_similar_jds flat_search svc3 "jd" 2
  = Returns [{| index_id := 0; found_id := "J1"; found_metadata := [];
                similarity := (1 - l2sqr [1] [1])%R |};
             {| index_id := 2; found_id := "J3"; found_metadata := [];
                similarity := (1 - l2sqr [1] [1])%R |}]
  /\ search_similar_jds flat_search svc3 "jd" 0 = Raises AssertionError.
Proof.
  split; [|reflexivity].
  unfold search_similar_jds, flat_search. simpl. unfold hit_le. simpl.
  change (sign_encoder "jd") with [1%R]. unfold l2sqr. simpl.
  rewrite (bool_decide_eq_false_2 (_ <= _)%R) by lra. simpl.
  rewrite (bool_decide_eq_true_2 (_ <= _)%R) by lra.
  reflexivity.
Qed.

(** The statement above for the model [flat_search] of the index search, at
    [svc3], where distances tie, with [k = 2]. *)
Lemma search_similar_nearest_witness :
  ((ntotal (jd_index svc3) = 0%nat ->
      search_similar_jds flat_search svc3 "jd" 2 = Returns [])
   /\ (ntotal (jd_index svc3) <> 0%nat -> (0 < 2)%Z ->
       exists results,
         search_similar_jds flat_search svc3 "jd" 2 = Returns results
         /\ nearest_first (jd_index svc3) (jd_metadata svc3) (get_embedding svc3 "jd")
              (Z.to_nat (Z.min 2 (Z.of_nat (ntotal (jd_index svc3))))) results)
   /\ (ntotal (jd_index svc3) <> 0%nat -> (2 <= 0)%Z ->
       search_similar_jds flat_search svc3 "jd" 2 = Raises AssertionError))
  /\ ((ntotal (resume_index svc3) = 0%nat ->
      search_similar_resumes flat_search svc3 "jd" 2 = Returns [])
   /\ (ntotal (resume_index svc3) <> 0%nat -> (0 < 2)%Z ->
       exists results,
         search_similar_resumes flat_search svc3 "jd" 2 = Returns results
         /\ nearest_first (resume_index svc3) (resume_metadata svc3)
              (get_embedding svc3 "jd")
              (Z.to_nat (Z.min 2 (Z.of_nat (ntotal (resume_index svc3))))) results)
   /\ (ntotal (resume_index svc3) <> 0%nat -> (2 <= 0)%Z ->
       search_similar_resumes flat_search svc3 "jd" 2 = Raises AssertionError)).
Proof.
  apply (search_similar_nearest flat_search flat_search_exact svc3 "jd" 2); reflexivity.
Defined.

(** C8 as stated fails: on the empty collections of a fresh service a
    search with [k = 0] or [k = -1] does not fail, it returns the empty
    list. *)
Lemma search_with_bad_k_returns :
  (0 <= 0)%Z /\ (-1 <= 0)%Z
  /\ ntotal (jd_index svc0) = 0%nat
  /\ search_similar_jds flat_search svc0 "jd" 0 = Returns []
  /\ search_similar_jds flat_search svc0 "jd" (-1) = Returns []
  /\ search_similar_resumes flat_search svc0 "cv" 0 = Returns []
  /\ search_similar_resumes flat_search svc0 "cv" (-1) = Returns [].
Proof.
  repeat split; try reflexivity; lia.
Qed.

End SearchExamples.

(** ** The transaction of [shortlist_candidate] *)

Section TransactionFacts.
Import Embedding Database Shortlister.
Local Open Scope R_scope.

Lemma fault_within_0 (fault : option nat) (n : nat) : fault_within fault n 0 = false.
Proof.
  destruct fault as [m|]; simpl; [|reflexivity].
  apply bool_decide_eq_false. lia.
Qed.

Lemma fault_within_here (n len : nat) : fault_within (Some n) n (S len) = true.
Proof. simpl. apply bool_decide_eq_true. lia. Qed.

Lemma fault_within_next (fault : option nat) (n len : nat) :
  fault <> Some n -> fault_within fault n (S len) = fault_within fault (S n) len.
Proof.
  intros Hne. destruct fault as [m|]; simpl; [|reflexivity].
  assert (m <> n) by congruence.
  apply bool_decide_ext. lia.
Qed.

Lemma fault_within_1 (fault : option nat) (n : nat) :
  fault_within fault n 1 = bool_decide (fault = Some n).
Proof.
  destruct fault as [m|]; simpl.
  - apply bool_decide_ext. split; [intros; f_equal; lia|intros [= ->]; lia].
  - reflexivity.
Qed.

Lemma fault_within_snoc (fault : option nat) (lo len : nat) :
  fault_within fault lo (S len)
  = fault_within fault lo len || fault_within fault (lo + len) 1.
Proof.
  destruct fault as [m|]; simpl; [|reflexivity].
  destruct (decide (lo ≤ m < lo + len)%nat) as [Hin|Hout].
  - rewrite (bool_decide_eq_true_2 (lo ≤ m < lo + len)%nat) by exact Hin.
    apply bool_decide_eq_true. lia.
  - rewrite (bool_decide_eq_false_2 (lo ≤ m < lo + len)%nat) by exact Hout.
    apply bool_decide_ext. lia.
Qed.

Lemma execute_run {A : Type} (fault : option nat) (stmt : list Ranking -> A * list Ranking)
    (c : Conn) :
  execute fault stmt c
  = if fault_within fault (executed c) 1 then Raises OperationalError
    else Returns (fst (stmt (work c)),
                  {| work := snd (stmt (work c)); executed := S (executed c) |}).
Proof.
  unfold execute. destruct (decide (fault = Some (executed c))) as [->|Hne].
  - now rewrite fault_within_here.
  - rewrite fault_within_next, fault_within_0 by exact Hne.
    now destruct (stmt (work c)).
Qed.

Lemma update_ranks_run (fault : option nat) (j : string) (ranked : list (string * R)) :
  forall (rank : nat) (c : Conn),
    update_ranks fault j rank ranked c
    = if fault_within fault (executed c) (length ranked) then Raises OperationalError
      else Returns (tt, {| work := assign_ranks j rank ranked (work c);
                           executed := executed c + length ranked |}).
Proof.
  induction ranked as [|[r s] rest IH]; intros rank [w n]; simpl.
  - rewrite fault_within_0. unfold sql_ret. now rewrite Nat.add_0_r.
  - unfold sql_bind, execute. simpl.
    destruct (decide (fault = Some n)) as [->|Hne].
    + now rewrite fault_within_here.
    + rewrite IH. simpl. rewrite (fault_within_next fault n) by exact Hne.
      now rewrite Nat.add_succ_r.
Qed.

Lemma store_ranking_run (order : list Ranking -> list Ranking) (fault : option nat)
    (r j : string) (s : R) (f : bool) (t : list Ranking) :
  store_ranking order fault r j s f {| work := t; executed := 0 |}
  = if fault_within fault 0 (4 + length (select_ranked order j (insert_or_replace r j s f t)))
    then Raises OperationalError
    else Returns (tt, {| work := assign_ranks j 1
                                   (select_ranked order j (insert_or_replace r j s f t))
                                   (insert_or_replace r j s f t);
                         executed := 4 + length (select_ranked order j
                                                   (insert_or_replace r j s f t)) |}).
Proof.
  unfold store_ranking, sql_bind.
  destruct (decide (fault = Some 0%nat)) as [->|H0].
  { reflexivity. }
  rewrite execute_run. simpl executed. rewrite (fault_within_next fault 0 0), fault_within_0 by exact H0.
  simpl fst. simpl snd.
  destruct (decide (fault = Some 1%nat)) as [->|H1].
  { reflexivity. }
  rewrite execute_run. simpl executed. rewrite (fault_within_next fault 1 0), fault_within_0 by exact H1.
  simpl fst. simpl snd. simpl work.
  destruct (decide (fault = Some 2%nat)) as [->|H2].
  { reflexivity. }
  rewrite execute_run. simpl executed. rewrite (fault_within_next fault 2 0), fault_within_0 by exact H2.
  simpl fst. simpl snd. simpl work.
  rewrite update_ranks_run. simpl executed. simpl work.
  set (ranked := select_ranked order j (insert_or_replace r j s f t)).
  change (4 + length ranked)%nat with (S (S (S (S (length ranked))))).
  rewrite 3 fault_within_next by assumption.
  rewrite fault_within_snoc.
  destruct (fault_within fault 3 (length ranked)); [reflexivity|].
  rewrite execute_run. simpl executed. simpl orb.
  destruct (fault_within fault (3 + length ranked) 1); reflexivity.
Qed.

End TransactionFacts.

(** ** The rankings table *)

Section TableFacts.
Import Embedding Database Shortlister.
Local Open Scope R_scope.

Lemma rerank_fields (j : string) (ranked : list (string * R)) :
  forall (n : nat) (row : Ranking),
    resume_id (rerank j n ranked row) = resume_id row
    /\ job_id (rerank j n ranked row) = job_id row
    /\ match_score (rerank j n ranked row) = match_score row
    /\ shortlisted (rerank j n ranked row) = shortlisted row.
Proof.
  induction ranked as [|[r s] rest IH]; intros n row; simpl; [easy|].
  destruct (same_pair r j row); [|apply IH].
  destruct (IH (S n) (set_rank n row)) as (H1 & H2 & H3 & H4).
  now rewrite H1, H2, H3, H4.
Qed.

Lemma rerank_pair (j : string) (ranked : list (string * R)) (n : nat) (row : Ranking) :
  pair_of (rerank j n ranked row) = pair_of row.
Proof.
  unfold pair_of. destruct (rerank_fields j ranked n row) as (-> & -> & _). reflexivity.
Qed.

Lemma assign_ranks_map (j : string) (ranked : list (string * R)) :
  forall (n : nat) (t : list Ranking),
    assign_ranks j n ranked t = map (rerank j n ranked) t.
Proof.
  induction ranked as [|[r s] rest IH]; intros n t; simpl.
  - now rewrite map_id.
  - rewrite IH. unfold update_rank. now rewrite map_map.
Qed.

Lemma same_pair_true (r j : string) (row : Ranking) :
  same_pair r j row = true <-> pair_of row = (r, j).
Proof.
  unfold same_pair, pair_of. rewrite bool_decide_eq_true.
  split; [intros [-> ->]; reflexivity|intros [= -> ->]; split; reflexivity].
Qed.

Lemma same_pair_false (r j : string) (row : Ranking) :
  same_pair r j row = false <-> pair_of row <> (r, j).
Proof.
  rewrite <- same_pair_true. destruct (same_pair r j row); split; congruence.
Qed.

Lemma rerank_absent (j : string) (ranked : list (string * R)) :
  forall (n : nat) (row : Ranking),
    ~ In (resume_id row) (map fst ranked) -> rerank j n ranked row = row.
Proof.
  induction ranked as [|[r s] rest IH]; intros n row Hnot; simpl; [reflexivity|].
  simpl in Hnot.
  assert (Hsp : same_pair r j row = false).
  { apply same_pair_false. unfold pair_of. intros [= Hr _]. apply Hnot. now left. }
  rewrite Hsp. apply IH. tauto.
Qed.

Lemma rerank_other_job (j : string) (ranked : list (string * R)) :
  forall (n : nat) (row : Ranking), job_id row <> j -> rerank j n ranked row = row.
Proof.
  induction ranked as [|[r s] rest IH]; intros n row Hj; simpl; [reflexivity|].
  assert (Hsp : same_pair r j row = false).
  { apply same_pair_false. unfold pair_of. intros [= _ Hj']. contradiction. }
  rewrite Hsp. now apply IH.
Qed.

(** With distinct ids in [ranked], a row of the job that stands at
    position [i] of the list is given rank [n + i]. *)
Lemma rerank_at (j : string) (ranked : list (string * R)) :
  forall (n i : nat) (row : Ranking),
    NoDup (map fst ranked) -> job_id row = j ->
    map fst ranked !! i = Some (resume_id row) ->
    rerank j n ranked row = set_rank (n + i) row.
Proof.
  induction ranked as [|[r s] rest IH]; intros n i row Hnd Hj Hi; simpl in *.
  - discriminate.
  - apply NoDup_cons in Hnd as [Hr Hnd]. destruct i as [|i]; simpl in Hi.
    + injection Hi as ->.
      assert (Hsp : same_pair (resume_id row) j row = true).
      { apply same_pair_true. unfold pair_of. now rewrite Hj. }
      rewrite Hsp, Nat.add_0_r. apply rerank_absent. simpl.
      intros Hin. apply Hr. now apply list_elem_of_In.
    + assert (Hsp : same_pair r j row = false).
      { apply same_pair_false. unfold pair_of. intros [= Hrow _]. apply Hr.
        rewrite <- Hrow. eapply list_elem_of_lookup_2. exact Hi. }
      rewrite Hsp. replace (n + S i)%nat with (S n + i)%nat by lia. now apply IH.
Qed.

Lemma pairs_filter_NoDup (f : Ranking -> bool) (t : list Ranking) :
  NoDup (map pair_of t) -> NoDup (map pair_of (List.filter f t)).
Proof.
  induction t as [|a t IH]; simpl; intros H; [constructor|].
  apply NoDup_cons in H as [Ha Ht]. destruct (f a); simpl; [|auto].
  apply NoDup_cons. split; [|auto].
  intros Hin. apply Ha. apply list_elem_of_In in Hin. apply list_elem_of_In.
  apply in_map_iff in Hin as (row & Hrow & Hin). apply in_map_iff.
  exists row. split; [exact Hrow|]. apply filter_In in Hin. tauto.
Qed.

Lemma insert_or_replace_pairs (r j : string) (s : R) (f : bool) (t : list Ranking) :
  NoDup (map pair_of t) -> NoDup (map pair_of (insert_or_replace r j s f t)).
Proof.
  intros H. unfold insert_or_replace. rewrite map_app. simpl.
  apply NoDup_app. split; [now apply pairs_filter_NoDup|]. split; [|apply NoDup_singleton].
  intros x Hx Hnew. apply list_elem_of_In in Hx, Hnew.
  destruct Hnew as [<-|[]].
  apply in_map_iff in Hx as (row & Hrow & Hin). apply filter_In in Hin as [_ Hneg].
  apply negb_true_iff, same_pair_false in Hneg. contradiction.
Qed.

Lemma where_job_rerank (j : string) (ranked : list (string * R)) (n : nat) (t : list Ranking) :
  where_job j (map (rerank j n ranked) t) = map (rerank j n ranked) (where_job j t).
Proof.
  unfold where_job. induction t as [|a t IH]; simpl; [reflexivity|].
  destruct (rerank_fields j ranked n a) as (_ & Hj & _). rewrite Hj.
  destruct (bool_decide (job_id a = j)); simpl; now rewrite IH.
Qed.

Lemma where_job_In (j : string) (t : list Ranking) (row : Ranking) :
  In row (where_job j t) <-> In row t /\ job_id row = j.
Proof.
  unfold where_job. rewrite filter_In, bool_decide_eq_true. reflexivity.
Qed.

Lemma where_job_insert_fresh (r j : string) (s : R) (f : bool) (t : list Ranking) :
  ~ In r (map resume_id (where_job j t)) ->
  where_job j (insert_or_replace r j s f t)
  = where_job j t
    ++ [{| resume_id := r; job_id := j; match_score := s; rank := None; shortlisted := f |}].
Proof.
  intros Hfresh. unfold insert_or_replace, where_job at 1. rewrite List.filter_app. simpl.
  rewrite bool_decide_eq_true_2 by reflexivity. f_equal.
  unfold where_job in *. induction t as [|a t IH]; simpl in *; [reflexivity|].
  destruct (bool_decide (job_id a = j)) eqn:Hj; simpl in *.
  - assert (Hsp : same_pair r j a = false).
    { apply same_pair_false. unfold pair_of. intros [= Hr _]. apply Hfresh. now left. }
    rewrite Hsp. simpl. rewrite Hj. f_equal. apply IH. tauto.
  - destruct (negb (same_pair r j a)); simpl; [rewrite Hj|]; now apply IH.
Qed.

Lemma resume_ids_NoDup (j : string) (l : list Ranking) :
  NoDup (map pair_of l) -> Forall (fun x => job_id x = j) l -> NoDup (map resume_id l).
Proof.
  induction l as [|a l IH]; simpl; intros Hnd Hall; [constructor|].
  apply NoDup_cons in Hnd as [Ha Hnd]. apply Forall_cons in Hall as [Hj Hall].
  apply NoDup_cons. split; [|auto].
  intros Hin. apply Ha. apply list_elem_of_In in Hin. apply list_elem_of_In.
  apply in_map_iff in Hin as (row & Hrow & Hin). apply in_map_iff.
  exists row. split; [|exact Hin].
  rewrite Forall_forall in Hall. unfold pair_of. rewrite Hrow, Hj.
  f_equal. apply Hall. now apply list_elem_of_In.
Qed.

Lemma StronglySorted_lookup_lt {A : Type} (Rel : A -> A -> Prop) (l : list A) :
  StronglySorted Rel l ->
  forall (i k : nat) (x y : A),
    (i < k)%nat -> l !! i = Some x -> l !! k = Some y -> Rel x y.
Proof.
  induction 1 as [|a l Hs IH Ha]; intros i k x y Hik Hi Hk; [discriminate|].
  destruct k as [|k]; [lia|]. simpl in Hk. destruct i as [|i]; simpl in Hi.
  - injection Hi as ->. rewrite Forall_forall in Ha. apply Ha.
    eapply list_elem_of_lookup_2. exact Hk.
  - apply (IH i k); [lia|assumption|assumption].
Qed.

Lemma imap_set_rank_ranks (l : list Ranking) :
  forall start : nat,
    map rank (imap (fun i x => set_rank (start + i) x) l) = map Some (seq start (length l)).
Proof.
  induction l as [|a l IH]; intros start; simpl; [reflexivity|].
  rewrite Nat.add_0_r. f_equal.
  rewrite <- IH. f_equal. apply imap_ext. intros i x _. simpl. f_equal. lia.
Qed.

Lemma dense_ranking_perm (l l' : list Ranking) :
  Permutation l l' -> dense_ranking l -> dense_ranking l'.
Proof.
  intros Hp [Hranks Hord]. split.
  - rewrite <- (Permutation_length Hp). now rewrite <- (Permutation_map rank Hp).
  - intros a b m n Ha Hb.
    apply Hord; [exact (Permutation_in _ (Permutation_sym Hp) Ha)
                |exact (Permutation_in _ (Permutation_sym Hp) Hb)].
Qed.

Section Renumbering.
Variable order : list Ranking -> list Ranking.
Hypothesis order_perm : forall rows, Permutation (order rows) rows.
Hypothesis order_sorted :
  forall rows, StronglySorted (fun a b => match_score b <= match_score a) (order rows).

Lemma renumbered_rows (j : string) (t : list Ranking) :
  NoDup (map pair_of t) ->
  map (rerank j 1 (select_ranked order j t)) (order (where_job j t))
  = imap (fun i x => set_rank (1 + i) x) (order (where_job j t)).
Proof.
  intros Hnd. unfold select_ranked.
  set (L := order (where_job j t)).
  assert (Hjob : Forall (fun x => job_id x = j) L).
  { apply Forall_forall. intros x Hx. apply list_elem_of_In in Hx.
    apply (Permutation_in _ (order_perm _)) in Hx. now apply where_job_In in Hx. }
  assert (Hids : map fst (map (fun r => (resume_id r, match_score r)) L) = map resume_id L).
  { rewrite map_map. reflexivity. }
  assert (HndL : NoDup (map resume_id L)).
  { apply (resume_ids_NoDup j); [|exact Hjob]. unfold L.
    rewrite (Permutation_map pair_of (order_perm (where_job j t))).
    now apply pairs_filter_NoDup. }
  apply list_eq. intros i.
  change (map (rerank j 1 (map (fun r => (resume_id r, match_score r)) L)) L)
    with (rerank j 1 (map (fun r => (resume_id r, match_score r)) L) <$> L).
  rewrite list_lookup_fmap, list_lookup_imap.
  destruct (L !! i) as [x|] eqn:Hx; simpl; [|reflexivity].
  f_equal. apply rerank_at.
  - now rewrite Hids.
  - rewrite Forall_forall in Hjob. apply Hjob. eapply list_elem_of_lookup_2. exact Hx.
  - rewrite Hids. change (map resume_id L) with (resume_id <$> L).
    rewrite list_lookup_fmap, Hx. reflexivity.
Qed.

Lemma renumbered_dense (j : string) (t : list Ranking) :
  NoDup (map pair_of t) ->
  dense_ranking (where_job j (assign_ranks j 1 (select_ranked order j t) t)).
Proof.
  intros Hnd. rewrite assign_ranks_map, where_job_rerank.
  apply (dense_ranking_perm
           (map (rerank j 1 (select_ranked order j t)) (order (where_job j t)))).
  { apply Permutation_map, order_perm. }
  rewrite (renumbered_rows j t Hnd).
  set (L := order (where_job j t)). split.
  - rewrite length_imap, imap_set_rank_ranks. reflexivity.
  - intros a b m n Ha Hb Hm Hn Hlt.
    apply list_elem_of_In, elem_of_lookup_imap_1 in Ha as (i & x & -> & Hx).
    apply list_elem_of_In, elem_of_lookup_imap_1 in Hb as (k & y & -> & Hy).
    simpl in *. injection Hm as <-. injection Hn as <-.
    apply (StronglySorted_lookup_lt _ L (order_sorted _) i k x y); [lia|assumption|assumption].
Qed.

End Renumbering.

End TableFacts.

(** ** The hybrid scorer *)

Section ScorerFacts.
Import Embedding Database Shortlister.
Local Open Scope R_scope.

Variable order : list Ranking -> list Ranking.

Lemma shortlist_candidate_raised (fault : option nat) (self : Agent) (db : DB)
    (j r : string) (e : exn) :
  llm_score_of (fst (evaluate_detailed_match self db j r)) = Raises e ->
  shortlist_candidate order fault self db j r
  = {| returned := Raises e; db_after := db;
       printed := snd (evaluate_detailed_match self db j r) |}.
Proof.
  intros H. unfold shortlist_candidate.
  destruct (evaluate_detailed_match self db j r) as [dm out]. simpl in *.
  now rewrite H.
Qed.

Lemma shortlist_candidate_scored (fault : option nat) (self : Agent) (db : DB)
    (j r : string) (x : R) :
  llm_score_of (fst (evaluate_detailed_match self db j r)) = Returns x ->
  shortlist_candidate order fault self db j r
  = let s := (0.6 * evaluate_semantic_similarity self db j r + 0.4 * x) * 100 in
    let f := bool_decide (shortlist_threshold self * 100 <= s) in
    let t1 := insert_or_replace r j s f (rankings db) in
    let ranked := select_ranked order j t1 in
    if fault_within fault 0 (4 + length ranked)
    then {| returned := Returns (s, f); db_after := db;
            printed := snd (evaluate_detailed_match self db j r)
                       ++ [StoringRankingError OperationalError] |}
    else {| returned := Returns (s, f);
            db_after := {| job_descriptions := job_descriptions db;
                           resumes := resumes db;
                           rankings := assign_ranks j 1 ranked t1 |};
            printed := snd (evaluate_detailed_match self db j r) |}.
Proof.
  intros H. unfold shortlist_candidate.
  destruct (evaluate_detailed_match self db j r) as [dm out]. simpl in *.
  rewrite H, store_ranking_run.
  destruct (fault_within fault 0 _); reflexivity.
Qed.

Lemma filter_same_after_removal (r j : string) (t : list Ranking) :
  List.filter (same_pair r j) (List.filter (fun x => negb (same_pair r j x)) t) = [].
Proof.
  induction t as [|a t IH]; simpl; [reflexivity|].
  destruct (same_pair r j a) eqn:Ha; simpl; [exact IH|]. now rewrite Ha.
Qed.

Lemma filter_same_rerank (r j j' : string) (n : nat) (ranked : list (string * R))
    (l : list Ranking) :
  List.filter (same_pair r j) (map (rerank j' n ranked) l)
  = map (rerank j' n ranked) (List.filter (same_pair r j) l).
Proof.
  induction l as [|a l IH]; simpl; [reflexivity|].
  assert (Ha : same_pair r j (rerank j' n ranked a) = same_pair r j a).
  { unfold same_pair. destruct (rerank_fields j' ranked n a) as (E1 & E2 & _).
    now rewrite E1, E2. }
  rewrite Ha. destruct (same_pair r j a); simpl; now rewrite IH.
Qed.

(** The row written for the pair is in the table after the renumbering,
    and it is the only row of the pair. *)
Lemma committed_row (r j : string) (s : R) (f : bool) (t : list Ranking) :
  exists row,
    List.filter (same_pair r j)
      (assign_ranks j 1 (select_ranked order j (insert_or_replace r j s f t))
         (insert_or_replace r j s f t)) = [row]
    /\ resume_id row = r /\ job_id row = j
    /\ match_score row = s /\ shortlisted row = f.
Proof.
  rewrite assign_ranks_map, filter_same_rerank.
  destruct (rerank_fields j (select_ranked order j (insert_or_replace r j s f t)) 1
              {| resume_id := r; job_id := j; match_score := s;
                 rank := None; shortlisted := f |})
    as (H1 & H2 & H3 & H4).
  eexists. split; [|split; [exact H1|split; [exact H2|split; [exact H3|exact H4]]]].
  unfold insert_or_replace at 2. rewrite List.filter_app, filter_same_after_removal.
  simpl.
  assert (Hnew : same_pair r j {| resume_id := r; job_id := j; match_score := s;
                                  rank := None; shortlisted := f |} = true)
    by (now apply same_pair_true).
  now rewrite Hnew.
Qed.

(** C1: when the judge's dict carries the number [x] under "overall_score",
    the call returns the score (0.6 * s + 0.4 * (x / 100)) * 100, with [s]
    the semantic similarity; it is a real number, nothing is truncated. The
    row that a successful write leaves for the pair holds the same score. *)
Theorem match_score_is_weighted_percentage
    (fault : option nat) (self : Agent) (db : DB) (j r : string)
    (fields : list (string * json)) (x : R) :
  fst (evaluate_detailed_match self db j r) = JObj fields ->
  dict_get fields "overall_score" = Some (JNum x) ->
  exists flag,
    returned (shortlist_candidate order fault self db j r)
    = Returns ((0.6 * evaluate_semantic_similarity self db j r + 0.4 * (x / 100)) * 100, flag)
    /\ (fault = None ->
        exists row,
          List.filter (same_pair r j)
            (rankings (db_after (shortlist_candidate order fault self db j r))) = [row]
          /\ match_score row
             = (0.6 * evaluate_semantic_similarity self db j r + 0.4 * (x / 100)) * 100
          /\ shortlisted row = flag).
Proof.
  intros Hdict Hget.
  assert (Hllm : llm_score_of (fst (evaluate_detailed_match self db j r)) = Returns (x / 100)).
  { rewrite Hdict. simpl. now rewrite Hget. }
  rewrite (shortlist_candidate_scored fault self db j r _ Hllm). cbv zeta.
  eexists. split.
  - destruct (fault_within fault 0 _); reflexivity.
  - intros ->. simpl.
    destruct (committed_row r j
                ((0.6 * evaluate_semantic_similarity self db j r + 0.4 * (x / 100)) * 100)
                (bool_decide (shortlist_threshold self * 100
                              <= (0.6 * evaluate_semantic_similarity self db j r
                                  + 0.4 * (x / 100)) * 100))
                (rankings db)) as (row & Hrow & _ & _ & Hs & Hf).
    exists row. auto.
Qed.

Lemma returned_of_call (fault : option nat) (self : Agent) (db : DB) (j r : string) :
  returned (shortlist_candidate order fault self db j r)
  = match llm_score_of (fst (evaluate_detailed_match self db j r)) with
    | Returns x =>
        Returns ((0.6 * evaluate_semantic_similarity self db j r + 0.4 * x) * 100,
                 bool_decide (shortlist_threshold self * 100
                              <= (0.6 * evaluate_semantic_similarity self db j r + 0.4 * x) * 100))
    | Raises e => Raises e
    end.
Proof.
  destruct (llm_score_of (fst (evaluate_detailed_match self db j r))) as [x|e] eqn:H.
  - rewrite (shortlist_candidate_scored fault self db j r x H). cbv zeta.
    destruct (fault_within fault 0 _); reflexivity.
  - now rewrite (shortlist_candidate_raised fault self db j r e H).
Qed.

Lemma llm_score_of_zero_match : llm_score_of zero_match = Returns (0 / 100).
Proof. reflexivity. Qed.

(** X29: the judge failures that the code does handle. When the agent has
    no chain, or the chain raises (time-out included), or its answer is not
    JSON, the judge's dict is [{"overall_score": 0.0}], the call returns
    (it does not raise) with score (0.6 * s) * 100, [s] being the semantic
    similarity, and a successful write leaves a row with that score for
    the pair. *)
Theorem judge_failure_degrades_to_semantic_only
    (fault : option nat) (self : Agent) (db : DB) (j r : string) :
  (chain self = None
   \/ exists invoke jd resume,
        chain self = Some invoke
        /\ get_job_description db j = Some jd
        /\ get_resume db r = Some resume
        /\ (invoke (jd_text_of indent12 jd)
                   (resume_text_of indent12 (experience_text_long (experience resume)) resume)
            = InvokeRaises
            \/ invoke (jd_text_of indent12 jd)
                      (resume_text_of indent12 (experience_text_long (experience resume)) resume)
               = ReplyText None)) ->
  fst (evaluate_detailed_match self db j r) = zero_match
  /\ exists flag,
      returned (shortlist_candidate order fault self db j r)
      = Returns (0.6 * evaluate_semantic_similarity self db j r * 100, flag)
      /\ (fault = None ->
          exists row,
            List.filter (same_pair r j)
              (rankings (db_after (shortlist_candidate order fault self db j r))) = [row]
            /\ match_score row = 0.6 * evaluate_semantic_similarity self db j r * 100
            /\ shortlisted row = flag).
Proof.
  intros Hfail.
  assert (Hz : fst (evaluate_detailed_match self db j r) = zero_match).
  { unfold evaluate_detailed_match.
    destruct Hfail as [-> | (invoke & jd & resume & -> & -> & -> & [-> | ->])]; reflexivity. }
  split; [exact Hz|].
  assert (Hllm : llm_score_of (fst (evaluate_detailed_match self db j r)) = Returns (0 / 100)).
  { rewrite Hz. apply llm_score_of_zero_match. }
  rewrite (shortlist_candidate_scored fault self db j r _ Hllm). cbv zeta.
  replace ((0.6 * evaluate_semantic_similarity self db j r + 0.4 * (0 / 100)) * 100)
    with (0.6 * evaluate_semantic_similarity self db j r * 100) by lra.
  eexists. split.
  - destruct (fault_within fault 0 _); reflexivity.
  - intros ->. simpl.
    destruct (committed_row r j (0.6 * evaluate_semantic_similarity self db j r * 100)
                (bool_decide (shortlist_threshold self * 100
                              <= 0.6 * evaluate_semantic_similarity self db j r * 100))
                (rankings db)) as (row & Hrow & _ & _ & Hs & Hf).
    exists row. auto.
Qed.

(** C10: when the job description or the resume is not in the database,
    the call does not raise: the semantic score is 0, the judge's dict is
    [{"overall_score": 0.0}], the call returns (0, False), and a successful
    write leaves a row with score 0 for the pair all the same. *)
Theorem missing_entities_score_zero
    (fault : option nat) (service : EmbeddingService) (api_key : string)
    (llm : string -> string -> llm_reply) (db : DB) (j r : string) :
  get_job_description db j = None \/ get_resume db r = None ->
  evaluate_semantic_similarity (__init__ service api_key llm) db j r = 0
  /\ fst (evaluate_detailed_match (__init__ service api_key llm) db j r) = zero_match
  /\ returned (shortlist_candidate order fault (__init__ service api_key llm) db j r)
     = Returns (0, false)
  /\ (fault = None ->
      exists row,
        List.filter (same_pair r j)
          (rankings (db_after (shortlist_candidate order fault
                                 (__init__ service api_key llm) db j r))) = [row]
        /\ match_score row = 0 /\ shortlisted row = false).
Proof.
  intros Hmiss. set (self := __init__ service api_key llm).
  assert (Hsem : evaluate_semantic_similarity self db j r = 0).
  { unfold evaluate_semantic_similarity.
    destruct Hmiss as [-> | ->]; [reflexivity|].
    now destruct (get_job_description db j). }
  assert (Hz : fst (evaluate_detailed_match self db j r) = zero_match).
  { unfold evaluate_detailed_match. destruct (chain self); [|reflexivity].
    destruct Hmiss as [-> | ->]; [reflexivity|].
    now destruct (get_job_description db j). }
  assert (Hllm : llm_score_of (fst (evaluate_detailed_match self db j r)) = Returns (0 / 100)).
  { rewrite Hz. apply llm_score_of_zero_match. }
  split; [exact Hsem|]. split; [exact Hz|].
  rewrite (shortlist_candidate_scored fault self db j r _ Hllm). cbv zeta.
  rewrite Hsem.
  replace ((0.6 * 0 + 0.4 * (0 / 100)) * 100) with 0 by lra.
  assert (Hflag : bool_decide (shortlist_threshold self * 100 <= 0) = false).
  { apply bool_decide_eq_false_2. simpl. lra. }
  rewrite Hflag. split.
  - destruct (fault_within fault 0 _); reflexivity.
  - intros ->. simpl.
    destruct (committed_row r j 0 false (rankings db)) as (row & Hrow & _ & _ & Hs & Hf).
    exists row. auto.
Qed.

(** C6, as amended: a failing write is not reported. Whatever call on the
    connection fails, [shortlist_candidate] returns exactly what it returns
    when nothing fails, and the database is either untouched or as after
    the complete write; when the write raises, the database is untouched
    (no rank of the job is changed) and the only trace is a printed line. *)
Theorem storage_failure_is_swallowed
    (fault : option nat) (self : Agent) (db : DB) (j r : string) :
  returned (shortlist_candidate order fault self db j r)
  = returned (shortlist_candidate order None self db j r)
  /\ (db_after (shortlist_candidate order fault self db j r) = db
      \/ db_after (shortlist_candidate order fault self db j r)
         = db_after (shortlist_candidate order None self db j r))
  /\ (forall (s : R) (f : bool) (e : exn),
        returned (shortlist_candidate order fault self db j r) = Returns (s, f) ->
        store_ranking order fault r j s f {| work := rankings db; executed := 0 |} = Raises e ->
        db_after (shortlist_candidate order fault self db j r) = db
        /\ printed (shortlist_candidate order fault self db j r)
           = printed (shortlist_candidate order None self db j r) ++ [StoringRankingError e]).
Proof.
  split; [now rewrite !returned_of_call|].
  destruct (llm_score_of (fst (evaluate_detailed_match self db j r))) as [x|e0] eqn:H.
  - rewrite (shortlist_candidate_scored fault self db j r x H).
    rewrite (shortlist_candidate_scored None self db j r x H). cbv zeta. simpl fault_within.
    destruct (fault_within fault 0 _) eqn:Hf; simpl.
    + split; [now left|]. intros s f e [= <- <-] Hstore.
      rewrite store_ranking_run in Hstore. simpl in Hstore, Hf. rewrite Hf in Hstore.
      injection Hstore as <-. now split.
    + split; [now right|]. intros s f e [= <- <-] Hstore.
      rewrite store_ranking_run in Hstore. simpl in Hstore, Hf. rewrite Hf in Hstore.
      discriminate.
  - rewrite (shortlist_candidate_raised fault self db j r e0 H). simpl.
    split; [now left|]. intros s f e Hret. discriminate.
Qed.

End ScorerFacts.

(** ** Sequences of calls *)

Section HistoryFacts.
Import Embedding Database Shortlister.
Local Open Scope R_scope.

Variable order : list Ranking -> list Ranking.

Lemma returned_call_indep (c : Call) (t t' : list Ranking) :
  returned (call_run order c t) = returned (call_run order c t').
Proof.
  unfold call_run. rewrite !returned_of_call. reflexivity.
Qed.

(** A call changes the table only by a complete write. *)
Lemma call_step (c : Call) (t : list Ranking) :
  rankings (db_after (call_run order c t)) = t
  \/ exists (s : R) (f : bool),
      returned (call_run order c t) = Returns (s, f)
      /\ f = bool_decide (0.8 * 100 <= s)
      /\ rankings (db_after (call_run order c t))
         = assign_ranks (c_job c) 1
             (select_ranked order (c_job c)
                (insert_or_replace (c_resume c) (c_job c) s f t))
             (insert_or_replace (c_resume c) (c_job c) s f t).
Proof.
  unfold call_run.
  set (self := __init__ (c_service c) (c_api_key c) (c_llm c)).
  set (db := {| job_descriptions := c_jobs c; resumes := c_resumes c; rankings := t |}).
  destruct (llm_score_of (fst (evaluate_detailed_match self db (c_job c) (c_resume c))))
    as [x|e] eqn:H.
  - rewrite (shortlist_candidate_scored order (c_fault c) self db _ _ x H). cbv zeta.
    destruct (fault_within (c_fault c) 0 _); [now left|].
    right. do 2 eexists. split; [reflexivity|]. split; reflexivity.
  - rewrite (shortlist_candidate_raised order (c_fault c) self db _ _ e H). now left.
Qed.

Lemma call_committed (c : Call) (t : list Ranking) (s : R) (f : bool) :
  c_fault c = None ->
  returned (call_run order c t) = Returns (s, f) ->
  rankings (db_after (call_run order c t))
  = assign_ranks (c_job c) 1
      (select_ranked order (c_job c) (insert_or_replace (c_resume c) (c_job c) s f t))
      (insert_or_replace (c_resume c) (c_job c) s f t).
Proof.
  unfold call_run. intros Hfault.
  set (self := __init__ (c_service c) (c_api_key c) (c_llm c)).
  set (db := {| job_descriptions := c_jobs c; resumes := c_resumes c; rankings := t |}).
  destruct (llm_score_of (fst (evaluate_detailed_match self db (c_job c) (c_resume c))))
    as [x|e] eqn:H.
  - rewrite (shortlist_candidate_scored order (c_fault c) self db _ _ x H). cbv zeta.
    rewrite Hfault. simpl fault_within. cbn [returned db_after rankings].
    intros [= <- <-]. reflexivity.
  - rewrite (shortlist_candidate_raised order (c_fault c) self db _ _ e H). discriminate.
Qed.

Lemma replay_app (calls : list Call) (c : Call) :
  forall t, replay order (calls ++ [c]) t
            = rankings (db_after (call_run order c (replay order calls t))).
Proof.
  induction calls as [|c0 calls IH]; intros t; simpl; [reflexivity|]. apply IH.
Qed.

Lemma pairs_rerank (j : string) (n : nat) (ranked : list (string * R)) (l : list Ranking) :
  map pair_of (map (rerank j n ranked) l) = map pair_of l.
Proof.
  rewrite map_map. apply map_ext. intros row. apply rerank_pair.
Qed.

Lemma replay_pairs (calls : list Call) :
  forall t, NoDup (map pair_of t) -> NoDup (map pair_of (replay order calls t)).
Proof.
  induction calls as [|c calls IH]; intros t Ht; simpl; [exact Ht|].
  apply IH. destruct (call_step c t) as [-> | (s & f & _ & _ & ->)]; [exact Ht|].
  rewrite assign_ranks_map, pairs_rerank. now apply insert_or_replace_pairs.
Qed.

Lemma replay_flags (calls : list Call) :
  forall t,
    Forall (fun row => shortlisted row = bool_decide (80 <= match_score row)) t ->
    Forall (fun row => shortlisted row = bool_decide (80 <= match_score row))
      (replay order calls t).
Proof.
  induction calls as [|c calls IH]; intros t Ht; simpl; [exact Ht|].
  apply IH. destruct (call_step c t) as [-> | (s & f & _ & Hf & ->)]; [exact Ht|].
  rewrite assign_ranks_map. rewrite Forall_forall in Ht. apply Forall_forall.
  intros row Hrow. apply list_elem_of_In, in_map_iff in Hrow as (row0 & <- & Hin).
  destruct (rerank_fields (c_job c)
              (select_ranked order (c_job c)
                 (insert_or_replace (c_resume c) (c_job c) s f t)) 1 row0)
    as (_ & _ & -> & ->).
  unfold insert_or_replace in Hin. apply in_app_or in Hin as [Hin | [<- | []]].
  - apply filter_In in Hin as [Hin _]. apply Ht. now apply list_elem_of_In.
  - simpl. rewrite Hf. apply bool_decide_ext. lra.
Qed.

(** C2: the flag returned is true exactly when the score returned is at
    least 80 (the agent's threshold 0.8, times 100), for every call of an
    agent built by [__init__]; and in the table reached by any sequence of
    calls from the empty one, every row has
    shortlisted = (match_score >= 80). *)
Theorem shortlisted_iff_at_least_80 (calls : list Call) (c : Call) :
  (forall (score : R) (flag : bool),
      returned (call_run order c (replay order calls [])) = Returns (score, flag) ->
      flag = bool_decide (80 <= score))
  /\ Forall (fun row => shortlisted row = bool_decide (80 <= match_score row))
       (replay order calls []).
Proof.
  split.
  - intros score flag. unfold call_run. rewrite returned_of_call.
    destruct (llm_score_of _); [|discriminate].
    intros [= <- <-]. apply bool_decide_ext. simpl. lra.
  - apply replay_flags. constructor.
Qed.

(** C9: in the table reached by any sequence of calls from the empty one
    no two rows have the same (resume_id, job_id); and after one more call
    that returns and whose write succeeds, the pair of that call has exactly
    one row, holding the score and the flag just computed. *)
Theorem one_record_per_pair (calls : list Call) (c : Call) :
  NoDup (map pair_of (replay order calls []))
  /\ (forall (score : R) (flag : bool),
        c_fault c = None ->
        returned (call_run order c (replay order calls [])) = Returns (score, flag) ->
        exists row,
          List.filter (same_pair (c_resume c) (c_job c)) (replay order (calls ++ [c]) [])
          = [row]
          /\ match_score row = score /\ shortlisted row = flag).
Proof.
  split; [apply replay_pairs; constructor|].
  intros score flag Hfault Hret.
  rewrite replay_app, (call_committed c _ score flag Hfault Hret).
  destruct (committed_row order (c_resume c) (c_job c) score flag (replay order calls []))
    as (row & Hrow & _ & _ & Hs & Hf).
  exists row. auto.
Qed.

Hypothesis order_perm : forall rows, Permutation (order rows) rows.
Hypothesis order_sorted :
  forall rows, StronglySorted (fun a b => match_score b <= match_score a) (order rows).

Lemma replay_upserts (j : string) (calls : list Call) :
  forall (t : list Ranking) (ids : list string),
    NoDup (map pair_of t) ->
    Permutation (map resume_id (where_job j t)) ids ->
    NoDup (ids ++ map c_resume calls) ->
    dense_ranking (where_job j t) ->
    Forall (fun c => c_job c = j /\ c_fault c = None
                     /\ exists v, returned (call_run order c []) = Returns v) calls ->
    Permutation (map resume_id (where_job j (replay order calls t)))
      (ids ++ map c_resume calls)
    /\ dense_ranking (where_job j (replay order calls t)).
Proof.
  induction calls as [|c calls IH]; intros t ids Hnd Hids Hfresh Hdense Hall; simpl.
  - rewrite app_nil_r. now split.
  - apply Forall_cons in Hall as [(Hj & Hfault & [s f] & Hret) Hall].
    rewrite (returned_call_indep c [] t) in Hret.
    rewrite (call_committed c t s f Hfault Hret), Hj.
    set (t1 := insert_or_replace (c_resume c) j s f t).
    assert (Hnd1 : NoDup (map pair_of t1)) by (now apply insert_or_replace_pairs).
    assert (Hr : ~ In (c_resume c) (map resume_id (where_job j t))).
    { intros Hin. apply (Permutation_in _ Hids) in Hin.
      simpl in Hfresh. apply NoDup_app in Hfresh as (_ & Hdisj & _).
      apply (Hdisj (c_resume c)); [now apply list_elem_of_In|]. left. }
    destruct (IH (assign_ranks j 1 (select_ranked order j t1) t1) (ids ++ [c_resume c]))
      as [Hp Hd].
    + rewrite assign_ranks_map, pairs_rerank. exact Hnd1.
    + rewrite assign_ranks_map, where_job_rerank, map_map.
      rewrite (map_ext _ resume_id)
        by (intros row; now destruct (rerank_fields j (select_ranked order j t1) 1 row)).
      unfold t1. rewrite (where_job_insert_fresh _ _ _ _ _ Hr), map_app. simpl.
      now apply Permutation_app_tail.
    + now rewrite <- app_assoc.
    + now apply renumbered_dense.
    + exact Hall.
    + split; [|exact Hd]. now rewrite <- app_assoc in Hp.
Qed.

(** C3, as amended: after N calls that return and store, for N distinct
    profiles and one posting that had no row before, the posting has N rows,
    one per profile; their ranks are a permutation of 1..N; and a row with a
    smaller rank never has a smaller score. The order of rows with equal
    scores is the one the database engine yields for
    [ORDER BY match_score DESC]. *)
Theorem ranks_after_upserts (j : string) (calls : list Call) (t0 : list Ranking) :
  NoDup (map pair_of t0) ->
  where_job j t0 = [] ->
  NoDup (map c_resume calls) ->
  Forall (fun c => c_job c = j /\ c_fault c = None
                   /\ exists v, returned (call_run order c []) = Returns v) calls ->
  Permutation (map resume_id (where_job j (replay order calls t0))) (map c_resume calls)
  /\ Permutation (map rank (where_job j (replay order calls t0)))
       (map Some (seq 1 (length calls)))
  /\ forall (a b : Ranking) (m n : nat),
       In a (where_job j (replay order calls t0)) ->
       In b (where_job j (replay order calls t0)) ->
       rank a = Some m -> rank b = Some n -> (m < n)%nat ->
       match_score b <= match_score a.
Proof.
  intros Hnd Hempty Hdistinct Hall.
  destruct (replay_upserts j calls t0 [] Hnd) as [Hp [Hranks Hord]].
  - now rewrite Hempty.
  - exact Hdistinct.
  - rewrite Hempty. split; [reflexivity|]. intros a b m n [].
  - exact Hall.
  - simpl in Hp. split; [exact Hp|]. split; [|exact Hord].
    rewrite Hranks. apply Permutation_length in Hp. rewrite !length_map in Hp.
    now rewrite Hp.
Qed.

End HistoryFacts.

(** ** The definitions at work on the sample data *)

Section ExampleRuns.
Import Embedding Database Shortlister Examples.
Local Open Scope R_scope.

Lemma score_ge_total (r1 r2 : Ranking) : score_ge r1 r2 = false -> score_ge r2 r1 = true.
Proof.
  unfold score_ge. intros H. apply bool_decide_eq_false in H.
  apply bool_decide_eq_true. lra.
Qed.

Lemma score_ge_trans (r1 r2 r3 : Ranking) :
  score_ge r1 r2 = true -> score_ge r2 r3 = true -> score_ge r1 r3 = true.
Proof.
  unfold score_ge. rewrite !bool_decide_eq_true. lra.
Qed.

(** The stable sort is one of the orderings [ORDER BY match_score DESC]
    allows. *)
Lemma stable_order_perm (rows : list Ranking) :
  Permutation (stable_order_by_score_desc rows) rows.
Proof. apply sort_by_perm. Qed.

Lemma stable_order_sorted (rows : list Ranking) :
  StronglySorted (fun a b => match_score b <= match_score a)
    (stable_order_by_score_desc rows).
Proof.
  unfold stable_order_by_score_desc.
  rewrite <- (list_fmap_id (sort_by score_ge rows)).
  eapply StronglySorted_fmap;
    [|exact (sort_by_sorted score_ge score_ge_total score_ge_trans rows)].
  intros x y Hxy. unfold score_ge in Hxy. now apply bool_decide_eq_true in Hxy.
Qed.

(** The statement above for the judge that answers 90, on [db1]. *)
Lemma match_score_is_weighted_percentage_witness :
  exists flag,
    returned (shortlist_candidate stable_order_by_score_desc None agent90 db1 "J1" "R1")
    = Returns ((0.6 * evaluate_semantic_similarity agent90 db1 "J1" "R1" + 0.4 * (90 / 100))
               * 100, flag)
    /\ (@None nat = None ->
        exists row,
          List.filter (same_pair "R1" "J1")
            (rankings (db_after (shortlist_candidate stable_order_by_score_desc None
                                   agent90 db1 "J1" "R1"))) = [row]
          /\ match_score row
             = (0.6 * evaluate_semantic_similarity agent90 db1 "J1" "R1" + 0.4 * (90 / 100))
               * 100
          /\ shortlisted row = flag).
Proof.
  apply (match_score_is_weighted_percentage stable_order_by_score_desc None agent90 db1
           "J1" "R1" [("skills_score", JNum 95); ("overall_score", JNum 90)] 90);
    reflexivity.
Defined.

(** The statement above for the judge whose call raises, on [db1]. *)
Lemma judge_failure_degrades_to_semantic_only_witness :
  fst (evaluate_detailed_match agent_down db1 "J1" "R1") = zero_match
  /\ exists flag,
      returned (shortlist_candidate stable_order_by_score_desc None agent_down db1 "J1" "R1")
      = Returns (0.6 * evaluate_semantic_similarity agent_down db1 "J1" "R1" * 100, flag)
      /\ (@None nat = None ->
          exists row,
            List.filter (same_pair "R1" "J1")
              (rankings (db_after (shortlist_candidate stable_order_by_score_desc None
                                     agent_down db1 "J1" "R1"))) = [row]
            /\ match_score row = 0.6 * evaluate_semantic_similarity agent_down db1 "J1" "R1" * 100
            /\ shortlisted row = flag).
Proof.
  apply (judge_failure_degrades_to_semantic_only stable_order_by_score_desc None
           agent_down db1 "J1" "R1").
  right. exists judge_down, jd1, resume1.
  split; [reflexivity|]. split; [reflexivity|]. split; [reflexivity|].
  left. reflexivity.
Defined.

(** The statement above on the empty database. *)
Lemma missing_entities_score_zero_witness :
  evaluate_semantic_similarity (__init__ svc0 "" judge90) init_db "J1" "R1" = 0
  /\ fst (evaluate_detailed_match (__init__ svc0 "" judge90) init_db "J1" "R1") = zero_match
  /\ returned (shortlist_candidate stable_order_by_score_desc None
                 (__init__ svc0 "" judge90) init_db "J1" "R1")
     = Returns (0, false)
  /\ (@None nat = None ->
      exists row,
        List.filter (same_pair "R1" "J1")
          (rankings (db_after (shortlist_candidate stable_order_by_score_desc None
                                 (__init__ svc0 "" judge90) init_db "J1" "R1"))) = [row]
        /\ match_score row = 0 /\ shortlisted row = false).
Proof.
  apply (missing_entities_score_zero stable_order_by_score_desc None svc0 "" judge90
           init_db "J1" "R1").
  left. reflexivity.
Defined.

(** A call whose semantic score is 0 and whose judge dict is the default
    returns (0, False), whatever happens to the write. *)
Lemma returned_zero (order : list Ranking -> list Ranking) (fault : option nat)
    (self : Agent) (db : DB) (j r : string) :
  shortlist_threshold self = 0.8 ->
  evaluate_semantic_similarity self db j r = 0 ->
  fst (evaluate_detailed_match self db j r) = zero_match ->
  returned (shortlist_candidate order fault self db j r) = Returns (0, false).
Proof.
  intros Hthr Hsem Hz. rewrite returned_of_call, Hz, llm_score_of_zero_match, Hsem, Hthr.
  replace ((0.6 * 0 + 0.4 * (0 / 100)) * 100) with 0 by lra.
  rewrite bool_decide_eq_false_2 by lra. reflexivity.
Qed.

(** C6 as stated fails: with the INSERT failing (call number 1 on the
    connection) the write raises, yet [shortlist_candidate] returns, and
    returns the very pair it returns when the write succeeds. *)
Lemma failed_write_is_not_surfaced :
  store_ranking stable_order_by_score_desc (Some 1%nat) "R1" "J1" 0 false
    {| work := rankings init_db; executed := 0 |} = Raises OperationalError
  /\ returned (shortlist_candidate stable_order_by_score_desc (Some 1%nat)
                 agent_nokey init_db "J1" "R1") = Returns (0, false)
  /\ returned (shortlist_candidate stable_order_by_score_desc None
                 agent_nokey init_db "J1" "R1") = Returns (0, false).
Proof.
  split; [reflexivity|].
  split; apply returned_zero; reflexivity.
Qed.

Lemma call_for_returns_zero (r : string) (t : list Ranking) :
  returned (call_run stable_order_by_score_desc (call_for r) t) = Returns (0, false).
Proof. unfold call_run. apply returned_zero; reflexivity. Qed.

Lemma call_for_table (r : string) (t : list Ranking) :
  rankings (db_after (call_run stable_order_by_score_desc (call_for r) t))
  = assign_ranks "J1" 1
      (select_ranked stable_order_by_score_desc "J1" (insert_or_replace r "J1" 0 false t))
      (insert_or_replace r "J1" 0 false t).
Proof.
  apply (call_committed stable_order_by_score_desc (call_for r) t 0 false);
    [reflexivity|apply call_for_returns_zero].
Qed.

(** The statement above for the stable ordering and two calls, for "b" and
    then "a". *)
Lemma ranks_after_upserts_witness :
  Permutation
    (map resume_id
       (where_job "J1" (replay stable_order_by_score_desc [call_for "b"; call_for "a"] [])))
    (map c_resume [call_for "b"; call_for "a"])
  /\ Permutation
       (map rank
          (where_job "J1" (replay stable_order_by_score_desc [call_for "b"; call_for "a"] [])))
       (map Some (seq 1 (length [call_for "b"; call_for "a"])))
  /\ forall (a b : Ranking) (m n : nat),
       In a (where_job "J1"
               (replay stable_order_by_score_desc [call_for "b"; call_for "a"] [])) ->
       In b (where_job "J1"
               (replay stable_order_by_score_desc [call_for "b"; call_for "a"] [])) ->
       rank a = Some m -> rank b = Some n -> (m < n)%nat ->
       match_score b <= match_score a.
Proof.
  apply (ranks_after_upserts stable_order_by_score_desc stable_order_perm stable_order_sorted
           "J1" [call_for "b"; call_for "a"] []).
  - constructor.
  - reflexivity.
  - apply (bool_decide_unpack _). reflexivity.
  - repeat constructor; eexists; apply call_for_returns_zero.
Defined.

(** C3 as stated fails on ties: "b" is scored first, then "a", both with
    score 0 for job "J1". With the rows ordered by [match_score] alone, "b"
    gets rank 1 and "a" rank 2, although "a" comes before "b". *)
Lemma tie_not_broken_by_profile_id :
  replay stable_order_by_score_desc [call_for "b"; call_for "a"] []
  = [ {| resume_id := "b"; job_id := "J1"; match_score := 0;
         rank := Some 1%nat; shortlisted := false |};
      {| resume_id := "a"; job_id := "J1"; match_score := 0;
         rank := Some 2%nat; shortlisted := false |} ]
  /\ String.ltb "a" "b" = true.
Proof.
  split; [|reflexivity].
  unfold replay. rewrite (call_for_table "b" []).
  change (assign_ranks "J1" 1
            (select_ranked stable_order_by_score_desc "J1"
               (insert_or_replace "b" "J1" 0 false []))
            (insert_or_replace "b" "J1" 0 false []))
    with [ {| resume_id := "b"; job_id := "J1"; match_score := 0;
              rank := Some 1%nat; shortlisted := false |} ].
  rewrite (call_for_table "a" _).
  unfold select_ranked, stable_order_by_score_desc.
  change (where_job "J1" (insert_or_replace "a" "J1" 0 false
            [ {| resume_id := "b"; job_id := "J1"; match_score := 0;
                 rank := Some 1%nat; shortlisted := false |} ]))
    with [ {| resume_id := "b"; job_id := "J1"; match_score := 0;
              rank := Some 1%nat; shortlisted := false |};
           {| resume_id := "a"; job_id := "J1"; match_score := 0;
              rank := None; shortlisted := false |} ].
  unfold sort_by. simpl fold_right. unfold score_ge. simpl match_score.
  rewrite bool_decide_eq_true_2 by lra.
  reflexivity.
Qed.

(** The end-to-end example of the specification: similarity 0.75 and an
    overall score of 90 give 81, which is shortlisted. *)
Lemma similarity_075_judge_90 (order : list Ranking -> list Ranking) (fault : option nat)
    (self : Agent) (db : DB) (j r : string) :
  shortlist_threshold self = 0.8 ->
  evaluate_semantic_similarity self db j r = 0.75 ->
  fst (evaluate_detailed_match self db j r) = JObj [("overall_score", JNum 90)] ->
  returned (shortlist_candidate order fault self db j r) = Returns (81, true).
Proof.
  intros Hthr Hsem Hdict. rewrite returned_of_call, Hdict, Hsem, Hthr. simpl.
  replace ((0.6 * 0.75 + 0.4 * (90 / 100)) * 100) with 81 by lra.
  rewrite bool_decide_eq_true_2 by lra. reflexivity.
Qed.


End ExampleRuns.

(** * Further properties of the code *)

(** ** The cosine computed by [calculate_similarity] *)

Section CosineFacts.
Import Embedding.
Local Open Scope R_scope.

Lemma dot_comm (a : vec) : forall b : vec, dot a b = dot b a.
Proof.
  unfold dot. induction a as [|x a IH]; intros [|y b]; simpl; try reflexivity.
  rewrite IH. ring.
Qed.

Lemma dot_self_nonneg (a : vec) : 0 <= dot a a.
Proof.
  unfold dot. induction a as [|x a IH]; simpl; [lra|]. nra.
Qed.

(** Cauchy-Schwarz, for the products over the common prefix. *)
Lemma dot_square_le (a : vec) : forall b : vec, dot a b * dot a b <= dot a a * dot b b.
Proof.
  induction a as [|x a IH]; intros [|y b].
  - unfold dot. simpl. lra.
  - unfold dot. simpl. lra.
  - pose proof (dot_self_nonneg (x :: a)). unfold dot at 1 2 4. simpl. lra.
  - specialize (IH b).
    pose proof (dot_self_nonneg a) as HA. pose proof (dot_self_nonneg b) as HB.
    change (dot (x :: a) (y :: b)) with (x * y + dot a b).
    change (dot (x :: a) (x :: a)) with (x * x + dot a a).
    change (dot (y :: b) (y :: b)) with (y * y + dot b b).
    set (s := dot a b) in *. set (A := dot a a) in *. set (B := dot b b) in *.
    assert (Hx : 0 <= x * x) by nra. assert (Hy : 0 <= y * y) by nra.
    assert (HxB : 0 <= x * x * B) by (now apply Rmult_le_pos).
    assert (HyA : 0 <= y * y * A) by (now apply Rmult_le_pos).
    assert (Hcross : 2 * (x * y * s) <= x * x * B + y * y * A).
    { apply Rsqr_incr_0_var; [|lra]. unfold Rsqr.
      assert (H1 : x * x * (y * y) * (s * s) <= x * x * (y * y) * (A * B)).
      { apply Rmult_le_compat_l; [now apply Rmult_le_pos|exact IH]. }
      pose proof (Rle_0_sqr (x * x * B - y * y * A)) as H2. unfold Rsqr in H2.
      lra. }
    lra.
Qed.

Lemma norm_nonneg (a : vec) : 0 <= norm a.
Proof. unfold norm. apply sqrt_pos. Qed.

Lemma norm_square (a : vec) : norm a * norm a = dot a a.
Proof. unfold norm. apply sqrt_sqrt, dot_self_nonneg. Qed.

(** X1: the similarity of two texts does not depend on which one is the
    job description and which one the resume. *)
Theorem calculate_similarity_symmetric (self : EmbeddingService) (text1 text2 : string) :
  calculate_similarity self text1 text2 = calculate_similarity self text2 text1.
Proof.
  unfold calculate_similarity. apply dot_comm.
Qed.

(** X2: a text whose embedding is not the zero vector has similarity 1
    with itself. *)
Theorem calculate_similarity_self (self : EmbeddingService) (text : string) :
  norm (get_embedding self text) <> 0 ->
  calculate_similarity self text text = 1.
Proof.
  intros Hn. unfold calculate_similarity. rewrite dot_div_by by exact Hn.
  rewrite norm_square. apply Rdiv_diag. rewrite <- norm_square. nra.
Qed.

(** The statement above at the sample service, for the text "jd". *)
Lemma calculate_similarity_self_witness :
  norm (get_embedding Examples.svc0 "jd") <> 0
  /\ calculate_similarity Examples.svc0 "jd" "jd" = 1.
Proof.
  assert (H : norm (get_embedding Examples.svc0 "jd") <> 0).
  { change (norm [1] <> 0). rewrite norm_singleton_1. lra. }
  split; [exact H|]. exact (calculate_similarity_self Examples.svc0 "jd" H).
Defined.

Lemma cosine_range (a b : vec) :
  norm a <> 0 -> norm b <> 0 ->
  -1 <= dot (div_by a (norm a)) (div_by b (norm b)) <= 1.
Proof.
  intros Ha Hb. rewrite dot_div_by by assumption.
  pose proof (norm_nonneg a) as Hna. pose proof (norm_nonneg b) as Hnb.
  assert (Hp : 0 < norm a * norm b) by (apply Rmult_lt_0_compat; lra).
  pose proof (dot_square_le a b) as Hcs.
  rewrite <- (norm_square a), <- (norm_square b) in Hcs.
  assert (Hup : dot a b <= norm a * norm b).
  { apply Rsqr_incr_0_var; [|lra]. unfold Rsqr. lra. }
  assert (Hlow : - dot a b <= norm a * norm b).
  { apply Rsqr_incr_0_var; [|lra]. unfold Rsqr. lra. }
  assert (Hc : dot a b / (norm a * norm b) * (norm a * norm b) = dot a b)
    by (field; lra).
  set (c := dot a b / (norm a * norm b)) in *.
  set (n := norm a * norm b) in *.
  split; nra.
Qed.

(** X3: for embeddings that are not zero vectors the similarity lies
    between -1 and 1; nothing is cut off at 0. *)
Theorem calculate_similarity_range (self : EmbeddingService) (jd_text resume_text : string) :
  norm (get_embedding self jd_text) <> 0 ->
  norm (get_embedding self resume_text) <> 0 ->
  -1 <= calculate_similarity self jd_text resume_text <= 1.
Proof.
  intros Ha Hb. unfold calculate_similarity. now apply cosine_range.
Qed.

(** The statement above at the sample service, for the texts "jd" and "cv". *)
Lemma calculate_similarity_range_witness :
  norm (get_embedding Examples.svc0 "jd") <> 0
  /\ norm (get_embedding Examples.svc0 "cv") <> 0
  /\ -1 <= calculate_similarity Examples.svc0 "jd" "cv" <= 1.
Proof.
  assert (H1 : norm (get_embedding Examples.svc0 "jd") <> 0).
  { change (norm [1] <> 0). rewrite norm_singleton_1. lra. }
  assert (H2 : norm (get_embedding Examples.svc0 "cv") <> 0).
  { change (norm [-1] <> 0). rewrite norm_singleton_m1. lra. }
  split; [exact H1|]. split; [exact H2|].
  exact (calculate_similarity_range Examples.svc0 "jd" "cv" H1 H2).
Defined.

End CosineFacts.

(** ** Inserting and finding again *)

Section InsertSearchFacts.
Import Embedding Examples.
Local Open Scope R_scope.

Lemma collect_results_In (meta : gmap string MetaEntry) (hits : list slot) (r : SearchResult) :
  In r (collect_results meta hits) ->
  found_id r = from_option ext_id "" (meta !! pretty (index_id r))
  /\ found_metadata r = from_option metadata [] (meta !! pretty (index_id r))
  /\ In (Some (1 - similarity r, index_id r)) hits.
Proof.
  induction hits as [|[[dist idx]|] hits IH]; simpl; intros Hin.
  - contradiction.
  - destruct Hin as [<- | Hin]; simpl.
    + split; [reflexivity|]. split; [reflexivity|]. left. do 2 f_equal. lra.
    + destruct (IH Hin) as (H1 & H2 & H3). auto.
  - destruct (IH Hin) as (H1 & H2 & H3). auto.
Qed.

Variable index_search : IndexFlatL2 -> vec -> Z -> outcome (list slot).

Lemma search_jds_In (self : EmbeddingService) (query : string) (k : Z)
    (results : list SearchResult) (r : SearchResult) :
  search_similar_jds index_search self query k = Returns results ->
  In r results ->
  found_id r = from_option ext_id "" (jd_metadata self !! pretty (index_id r))
  /\ found_metadata r = from_option metadata [] (jd_metadata self !! pretty (index_id r)).
Proof.
  unfold search_similar_jds. destruct (decide _); [intros [= <-] []|].
  destruct (index_search _ _ _) as [hits|e]; simpl; [|discriminate].
  intros [= <-] Hin. apply collect_results_In in Hin. tauto.
Qed.

Lemma search_resumes_In (self : EmbeddingService) (query : string) (k : Z)
    (results : list SearchResult) (r : SearchResult) :
  search_similar_resumes index_search self query k = Returns results ->
  In r results ->
  found_id r = from_option ext_id "" (resume_metadata self !! pretty (index_id r))
  /\ found_metadata r
     = from_option metadata [] (resume_metadata self !! pretty (index_id r)).
Proof.
  unfold search_similar_resumes. destruct (decide _); [intros [= <-] []|].
  destruct (index_search _ _ _) as [hits|e]; simpl; [|discriminate].
  intros [= <-] Hin. apply collect_results_In in Hin. tauto.
Qed.

(** X4: what an insert files is what a later search reports. After
    [add_jd_embedding] (or [add_resume_embedding]) has returned the ordinal
    [i], every record a search returns for that ordinal carries the id and
    the metadata given to the insert, and the records of all other ordinals
    carry what was on file before. This holds whatever the index search
    returns. *)
Theorem inserted_id_is_reported
    (self self_j self_r : EmbeddingService) (jd_id resume_id text_j text_r : string)
    (meta_j meta_r : list (string * json)) (i_j i_r : nat) :
  add_jd_embedding self jd_id text_j meta_j = Returns (i_j, self_j) ->
  add_resume_embedding self resume_id text_r meta_r = Returns (i_r, self_r) ->
  (forall query k results r,
      search_similar_jds index_search self_j query k = Returns results ->
      In r results ->
      (index_id r = i_j -> found_id r = jd_id /\ found_metadata r = meta_j)
      /\ (index_id r <> i_j ->
          found_id r = from_option ext_id "" (jd_metadata self !! pretty (index_id r))
          /\ found_metadata r
             = from_option metadata [] (jd_metadata self !! pretty (index_id r))))
  /\ (forall query k results r,
        search_similar_resumes index_search self_r query k = Returns results ->
        In r results ->
        (index_id r = i_r -> found_id r = resume_id /\ found_metadata r = meta_r)
        /\ (index_id r <> i_r ->
            found_id r = from_option ext_id "" (resume_metadata self !! pretty (index_id r))
            /\ found_metadata r
               = from_option metadata [] (resume_metadata self !! pretty (index_id r)))).
Proof.
  unfold add_jd_embedding, add_resume_embedding.
  destruct (index_add (jd_index self) _) as [idx_j|]; simpl; [|discriminate].
  destruct (index_add (resume_index self) _) as [idx_r|]; simpl; [|discriminate].
  intros [= <- <-] [= <- <-]. split.
  - intros query k results r Hs Hin.
    destruct (search_jds_In _ query k results r Hs Hin) as [-> ->]. simpl.
    split.
    + intros ->. now rewrite lookup_insert_eq.
    + intros Hne. rewrite lookup_insert_ne; [tauto|].
      intros Heq. apply Hne. symmetry. now apply (inj pretty).
  - intros query k results r Hs Hin.
    destruct (search_resumes_In _ query k results r Hs Hin) as [-> ->]. simpl.
    split.
    + intros ->. now rewrite lookup_insert_eq.
    + intros Hne. rewrite lookup_insert_ne; [tauto|].
      intros Heq. apply Hne. symmetry. now apply (inj pretty).
Qed.

End InsertSearchFacts.

Section InsertSearchExamples.
Import Embedding Examples.
Local Open Scope R_scope.

(** The statement above at [svc1], adding the job description "J2" and the
    resume "R2", with the exact-search model of the index. *)
Lemma inserted_id_is_reported_witness :
  (forall query k results r,
      search_similar_jds flat_search svc1_J2 query k = Returns results ->
      In r results ->
      (index_id r = 1%nat ->
       found_id r = "J2" /\ found_metadata r = [("job_title", JStr "Data Engineer")])
      /\ (index_id r <> 1%nat ->
          found_id r = from_option ext_id "" (jd_metadata svc1 !! pretty (index_id r))
          /\ found_metadata r
             = from_option metadata [] (jd_metadata svc1 !! pretty (index_id r))))
  /\ (forall query k results r,
        search_similar_resumes flat_search svc1_R2 query k = Returns results ->
        In r results ->
        (index_id r = 1%nat ->
         found_id r = "R2" /\ found_metadata r = [("name", JStr "John Roe")])
        /\ (index_id r <> 1%nat ->
            found_id r = from_option ext_id "" (resume_metadata svc1 !! pretty (index_id r))
            /\ found_metadata r
               = from_option metadata [] (resume_metadata svc1 !! pretty (index_id r)))).
Proof.
  apply (inserted_id_is_reported flat_search svc1 svc1_J2 svc1_R2 "J2" "R2" "data" "cv2"
           [("job_title", JStr "Data Engineer")] [("name", JStr "John Roe")] 1 1);
    reflexivity.
Defined.

End InsertSearchExamples.

(** ** Similarities reported by a search *)

Section SearchSimilarityFacts.
Import Embedding Examples.
Local Open Scope R_scope.

Lemma l2sqr_nonneg (q : vec) : forall v : vec, 0 <= l2sqr q v.
Proof.
  unfold l2sqr. induction q as [|x q IH]; intros [|y v]; simpl; try lra.
  specialize (IH v). pose proof (Rle_0_sqr (x - y)) as Hsq. unfold Rsqr in Hsq. lra.
Qed.

Lemma l2sqr_self (q : vec) : l2sqr q q = 0.
Proof.
  unfold l2sqr. induction q as [|x q IH]; simpl; [reflexivity|]. rewrite IH. ring.
Qed.

Lemma nearest_listing_at_most_1 (idx : IndexFlatL2) (meta : gmap string MetaEntry)
    (q : vec) (n : nat) (results : list SearchResult) :
  nearest_listing idx meta q n results -> Forall (fun r => similarity r <= 1) results.
Proof.
  intros (_ & _ & Hall). eapply Forall_impl; [exact Hall|].
  intros r (v & _ & Hd & _). pose proof (l2sqr_nonneg q v). lra.
Qed.

(** X5: no record returned by a search with [k >= 1] has a similarity above
    1, for an index search that reports true squared distances (the
    similarity is 1 minus the squared distance, so it has no lower bound). *)
Theorem search_similarity_at_most_1
    (index_search : IndexFlatL2 -> vec -> Z -> outcome (list slot))
    (self : EmbeddingService) (text : string) (k : Z) :
  search_contract index_search ->
  length (get_embedding self text) = d (jd_index self) ->
  length (get_embedding self text) = d (resume_index self) ->
  (0 < k)%Z ->
  (exists results,
      search_similar_jds index_search self text k = Returns results
      /\ Forall (fun r => similarity r <= 1) results)
  /\ (exists results,
      search_similar_resumes index_search self text k = Returns results
      /\ Forall (fun r => similarity r <= 1) results).
Proof.
  intros Hc Hj Hr Hk. split.
  - unfold search_similar_jds. destruct (decide _) as [|Hn]; [eexists; split; eauto|].
    destruct (search_listing index_search Hc (jd_index self) (jd_metadata self) _ k Hj Hn Hk)
      as (results & -> & Hl).
    exists results. split; [reflexivity|]. eapply nearest_listing_at_most_1. exact Hl.
  - unfold search_similar_resumes. destruct (decide _) as [|Hn]; [eexists; split; eauto|].
    destruct (search_listing index_search Hc (resume_index self) (resume_metadata self)
                _ k Hr Hn Hk) as (results & -> & Hl).
    exists results. split; [reflexivity|]. eapply nearest_listing_at_most_1. exact Hl.
Qed.

(** The statement above for the exact-search model, at [svc1] with [k = 3]. *)
Lemma search_similarity_at_most_1_witness :
  (exists results,
      search_similar_jds flat_search svc1 "jd" 3 = Returns results
      /\ Forall (fun r => similarity r <= 1) results)
  /\ (exists results,
      search_similar_resumes flat_search svc1 "jd" 3 = Returns results
      /\ Forall (fun r => similarity r <= 1) results).
Proof.
  apply (search_similarity_at_most_1 flat_search svc1 "jd" 3 flat_search_contract);
    [reflexivity|reflexivity|lia].
Defined.

End SearchSimilarityFacts.

(** ** More on the hybrid scorer *)

Section ScorerMoreFacts.
Import Embedding Database Shortlister Examples.
Local Open Scope R_scope.

Lemma semantic_similarity_range (self : Agent) (db : DB) (j r : string) :
  (forall text, norm (encode (embedding_service self) text) <> 0) ->
  -1 <= evaluate_semantic_similarity self db j r <= 1.
Proof.
  intros Hn. unfold evaluate_semantic_similarity.
  destruct (get_job_description db j); [|lra].
  destruct (get_resume db r); [|lra].
  unfold calculate_similarity, get_embedding. apply cosine_range; apply Hn.
Qed.

(** X6: the score grows with both of its inputs. Of two calls made with
    the same threshold, the one with the larger semantic similarity and the
    larger judge score returns the larger match score, and is shortlisted
    whenever the other one is. *)
Theorem match_score_monotone
    (order1 order2 : list Ranking -> list Ranking) (fault1 fault2 : option nat)
    (self1 self2 : Agent) (db1 db2 : DB) (j1 r1 j2 r2 : string) (x1 x2 : R) :
  shortlist_threshold self1 = shortlist_threshold self2 ->
  llm_score_of (fst (evaluate_detailed_match self1 db1 j1 r1)) = Returns x1 ->
  llm_score_of (fst (evaluate_detailed_match self2 db2 j2 r2)) = Returns x2 ->
  evaluate_semantic_similarity self1 db1 j1 r1 <= evaluate_semantic_similarity self2 db2 j2 r2 ->
  x1 <= x2 ->
  exists s1 f1 s2 f2,
    returned (shortlist_candidate order1 fault1 self1 db1 j1 r1) = Returns (s1, f1)
    /\ returned (shortlist_candidate order2 fault2 self2 db2 j2 r2) = Returns (s2, f2)
    /\ s1 <= s2
    /\ (f1 = true -> f2 = true).
Proof.
  intros Hthr H1 H2 Hsem Hx. rewrite !returned_of_call, H1, H2.
  do 4 eexists. split; [reflexivity|]. split; [reflexivity|]. split; [lra|].
  rewrite !bool_decide_eq_true, Hthr. lra.
Qed.

(** X7: with an encoder that never yields the zero vector, an agent built
    by [__init__] shortlists only when the judge answered with an overall
    score of at least 50: the semantic part contributes at most 60 points.
    In particular nobody is shortlisted when the judge fails. *)
Theorem shortlisted_needs_judge
    (order : list Ranking -> list Ranking) (fault : option nat)
    (service : EmbeddingService) (api_key : string) (llm : string -> string -> llm_reply)
    (db : DB) (j r : string) (s : R) :
  (forall text, norm (encode service text) <> 0) ->
  returned (shortlist_candidate order fault (__init__ service api_key llm) db j r)
  = Returns (s, true) ->
  exists x,
    llm_score_of (fst (evaluate_detailed_match (__init__ service api_key llm) db j r))
    = Returns x
    /\ 50 <= 100 * x
    /\ s <= 60 + 40 * x.
Proof.
  intros Hn. rewrite returned_of_call.
  pose proof (semantic_similarity_range (__init__ service api_key llm) db j r Hn) as Hsem.
  destruct (llm_score_of _) as [x|e]; [|discriminate].
  intros [= <- Hflag]. exists x. split; [reflexivity|].
  apply bool_decide_eq_true in Hflag. simpl in Hflag. lra.
Qed.

(** A row-by-row view of the rows of the other jobs. *)
Lemma where_job_other_insert (r j j' : string) (s : R) (f : bool) (t : list Ranking) :
  j' <> j -> where_job j' (insert_or_replace r j s f t) = where_job j' t.
Proof.
  intros Hne. unfold insert_or_replace, where_job. rewrite List.filter_app. simpl.
  rewrite bool_decide_eq_false_2 by congruence. rewrite app_nil_r.
  induction t as [|a t IH]; simpl; [reflexivity|].
  destruct (same_pair r j a) eqn:Hsp; simpl.
  - apply same_pair_true in Hsp. unfold pair_of in Hsp. injection Hsp as _ Hj.
    rewrite bool_decide_eq_false_2 by congruence. exact IH.
  - destruct (bool_decide (job_id a = j')); simpl; now rewrite IH.
Qed.

Lemma where_job_other_rerank (j j' : string) (n : nat) (ranked : list (string * R))
    (t : list Ranking) :
  j' <> j -> where_job j' (map (rerank j n ranked) t) = where_job j' t.
Proof.
  intros Hne. unfold where_job. induction t as [|a t IH]; simpl; [reflexivity|].
  destruct (rerank_fields j ranked n a) as (_ & Hj & _). rewrite Hj.
  destruct (bool_decide (job_id a = j')) eqn:Ha; simpl; [|exact IH].
  apply bool_decide_eq_true in Ha. rewrite rerank_other_job by congruence.
  now rewrite IH.
Qed.

Lemma shortlist_candidate_table (order : list Ranking -> list Ranking) (fault : option nat)
    (self : Agent) (db : DB) (j r : string) :
  db_after (shortlist_candidate order fault self db j r) = db
  \/ exists (s : R) (f : bool),
      rankings (db_after (shortlist_candidate order fault self db j r))
      = map (rerank j 1 (select_ranked order j (insert_or_replace r j s f (rankings db))))
          (insert_or_replace r j s f (rankings db)).
Proof.
  destruct (llm_score_of (fst (evaluate_detailed_match self db j r))) as [x|e] eqn:H.
  - rewrite (shortlist_candidate_scored order fault self db j r x H). cbv zeta.
    destruct (fault_within fault 0 _); [now left|].
    right. do 2 eexists. simpl. apply assign_ranks_map.
  - rewrite (shortlist_candidate_raised order fault self db j r e H). now left.
Qed.

(** X8: a call for one job leaves the rows of every other job exactly as
    they were, ranks included, whether the write succeeds or not. *)
Theorem other_jobs_untouched
    (order : list Ranking -> list Ranking) (fault : option nat)
    (self : Agent) (db : DB) (j r j' : string) :
  j' <> j ->
  where_job j' (rankings (db_after (shortlist_candidate order fault self db j r)))
  = where_job j' (rankings db).
Proof.
  intros Hne.
  destruct (shortlist_candidate_table order fault self db j r) as [-> | (s & f & ->)];
    [reflexivity|].
  rewrite where_job_other_rerank by exact Hne. now apply where_job_other_insert.
Qed.

Lemma filter_not_same_idem (r j : string) (t : list Ranking) :
  List.filter (fun row => negb (same_pair r j row))
    (List.filter (fun row => negb (same_pair r j row)) t)
  = List.filter (fun row => negb (same_pair r j row)) t.
Proof.
  induction t as [|a l IH]; simpl; [reflexivity|].
  destruct (same_pair r j a) eqn:Ha; simpl; [exact IH|]. rewrite Ha. simpl. now rewrite IH.
Qed.

(** X9: a call changes the score and the flag of no other pair: the rows
    of the pairs other than the one scored keep their order, their scores
    and their flags (only ranks may change), whether the write succeeds or
    not. *)
Theorem other_pairs_keep_scores
    (order : list Ranking -> list Ranking) (fault : option nat)
    (self : Agent) (db : DB) (j r : string) :
  map (fun row => (resume_id row, job_id row, match_score row, shortlisted row))
    (List.filter (fun row => negb (same_pair r j row))
       (rankings (db_after (shortlist_candidate order fault self db j r))))
  = map (fun row => (resume_id row, job_id row, match_score row, shortlisted row))
      (List.filter (fun row => negb (same_pair r j row)) (rankings db)).
Proof.
  destruct (shortlist_candidate_table order fault self db j r) as [-> | (s & f & ->)];
    [reflexivity|].
  set (rr := rerank j 1 _).
  assert (Hmap : forall l,
             map (fun row => (resume_id row, job_id row, match_score row, shortlisted row))
               (List.filter (fun row => negb (same_pair r j row)) (map rr l))
             = map (fun row => (resume_id row, job_id row, match_score row, shortlisted row))
                 (List.filter (fun row => negb (same_pair r j row)) l)).
  { induction l as [|a l IH]; simpl; [reflexivity|].
    destruct (rerank_fields j (select_ranked order j
                                 (insert_or_replace r j s f (rankings db))) 1 a)
      as (E1 & E2 & E3 & E4). fold rr in E1, E2, E3, E4.
    assert (Ha : same_pair r j (rr a) = same_pair r j a).
    { unfold same_pair. now rewrite E1, E2. }
    rewrite Ha. destruct (same_pair r j a); simpl; [exact IH|].
    now rewrite E1, E2, E3, E4, IH. }
  rewrite Hmap. unfold insert_or_replace. rewrite List.filter_app. simpl.
  assert (Hnew : same_pair r j {| resume_id := r; job_id := j; match_score := s;
                                  rank := None; shortlisted := f |} = true)
    by (now apply same_pair_true).
  rewrite Hnew. simpl. rewrite app_nil_r. f_equal. apply filter_not_same_idem.
Qed.

End ScorerMoreFacts.

Section ScorerMoreExamples.
Import Embedding Database Shortlister Examples.
Local Open Scope R_scope.

Lemma sign_encoder_nonzero (text : string) : norm (sign_encoder text) <> 0.
Proof.
  unfold sign_encoder. destruct (String.eqb text "jd").
  - rewrite norm_singleton_1. lra.
  - rewrite norm_singleton_m1. lra.
Qed.

(** On [db1] the two texts are both sent to [-1]: their similarity is 1. *)
Lemma sample_similarity_1 (self : Agent) :
  embedding_service self = svc0 ->
  evaluate_semantic_similarity self db1 "J1" "R1" = 1.
Proof.
  intros Hsvc.
  assert (H : evaluate_semantic_similarity self db1 "J1" "R1"
              = dot (div_by [-1] (norm [-1])) (div_by [-1] (norm [-1]))).
  { unfold evaluate_semantic_similarity. rewrite Hsvc. reflexivity. }
  rewrite H, norm_singleton_m1. unfold dot, div_by. simpl. lra.
Qed.

Lemma sample_run_96 (order : list Ranking -> list Ranking) (fault : option nat) :
  returned (shortlist_candidate order fault agent90 db1 "J1" "R1") = Returns (96, true).
Proof.
  rewrite returned_of_call.
  assert (Hllm : llm_score_of (fst (evaluate_detailed_match agent90 db1 "J1" "R1"))
                 = Returns (90 / 100)) by reflexivity.
  rewrite Hllm, (sample_similarity_1 agent90 eq_refl).
  replace ((0.6 * 1 + 0.4 * (90 / 100)) * 100) with 96 by lra.
  rewrite bool_decide_eq_true_2 by (simpl; lra). reflexivity.
Qed.

(** The statement of [match_score_monotone] for a call without API key on
    the empty database and a call with the judge that answers 90 on [db1]. *)
Lemma match_score_monotone_witness :
  exists s1 f1 s2 f2,
    returned (shortlist_candidate stable_order_by_score_desc None agent_nokey init_db "J1" "R1")
    = Returns (s1, f1)
    /\ returned (shortlist_candidate stable_order_by_score_desc None agent90 db1 "J1" "R1")
       = Returns (s2, f2)
    /\ s1 <= s2
    /\ (f1 = true -> f2 = true).
Proof.
  apply (match_score_monotone stable_order_by_score_desc stable_order_by_score_desc None None
           agent_nokey agent90 init_db db1 "J1" "R1" "J1" "R1" (0 / 100) (90 / 100)).
  - reflexivity.
  - reflexivity.
  - reflexivity.
  - rewrite (sample_similarity_1 agent90 eq_refl).
    change (evaluate_semantic_similarity agent_nokey init_db "J1" "R1") with 0. lra.
  - lra.
Defined.

(** The statement of [shortlisted_needs_judge] for the judge that answers
    90 on [db1], where the call returns (96, True). *)
Lemma shortlisted_needs_judge_witness :
  exists x,
    llm_score_of (fst (evaluate_detailed_match (__init__ svc0 "gsk" judge90) db1 "J1" "R1"))
    = Returns x
    /\ 50 <= 100 * x
    /\ 96 <= 60 + 40 * x.
Proof.
  apply (shortlisted_needs_judge stable_order_by_score_desc None svc0 "gsk" judge90
           db1 "J1" "R1" 96).
  - exact sign_encoder_nonzero.
  - exact (sample_run_96 stable_order_by_score_desc None).
Defined.

(** The statement of [other_jobs_untouched] for a call for "J1" and the
    rows of "J2". *)
Lemma other_jobs_untouched_witness :
  where_job "J2"
    (rankings (db_after (shortlist_candidate stable_order_by_score_desc None
                           agent90 db1 "J1" "R1")))
  = where_job "J2" (rankings db1).
Proof.
  apply (other_jobs_untouched stable_order_by_score_desc None agent90 db1 "J1" "R1" "J2").
  discriminate.
Defined.

End ScorerMoreExamples.

(** ** Ranks in every reachable table *)

Section RankInvariant.
Import Embedding Database Shortlister Examples.
Local Open Scope R_scope.

Variable order : list Ranking -> list Ranking.
Hypothesis order_perm : forall rows, Permutation (order rows) rows.
Hypothesis order_sorted :
  forall rows, StronglySorted (fun a b => match_score b <= match_score a) (order rows).

Lemma call_keeps_dense (c : Call) (t : list Ranking) :
  NoDup (map pair_of t) ->
  (forall j, dense_ranking (where_job j t)) ->
  NoDup (map pair_of (rankings (db_after (call_run order c t))))
  /\ forall j, dense_ranking (where_job j (rankings (db_after (call_run order c t)))).
Proof.
  intros Hnd Hdense.
  destruct (call_step order c t) as [-> | (s & f & _ & _ & ->)]; [now split|].
  assert (Hnd1 : NoDup (map pair_of (insert_or_replace (c_resume c) (c_job c) s f t)))
    by (now apply insert_or_replace_pairs).
  split.
  - now rewrite assign_ranks_map, pairs_rerank.
  - intros j. destruct (decide (j = c_job c)) as [->|Hne].
    + now apply renumbered_dense.
    + rewrite assign_ranks_map, where_job_other_rerank, where_job_other_insert by exact Hne.
      apply Hdense.
Qed.

Lemma replay_keeps_dense (calls : list Call) :
  forall t,
    NoDup (map pair_of t) ->
    (forall j, dense_ranking (where_job j t)) ->
    forall j, dense_ranking (where_job j (replay order calls t)).
Proof.
  induction calls as [|c calls IH]; intros t Hnd Hdense; simpl; [exact Hdense|].
  destruct (call_keeps_dense c t Hnd Hdense) as [Hnd' Hdense'].
  now apply IH.
Qed.

(** X10: in the table reached by any sequence of calls from the empty one
    (calls that re-score a pair, that raise or whose write fails included),
    the rows of every job carry the ranks 1..N, each once, and a row with a
    smaller rank never has a smaller score; this for every ordering the
    engine may use for [ORDER BY match_score DESC]. *)
Theorem every_job_densely_ranked (calls : list Call) (j : string) :
  Permutation (map rank (where_job j (replay order calls [])))
    (map Some (seq 1 (length (where_job j (replay order calls [])))))
  /\ forall (a b : Ranking) (m n : nat),
       In a (where_job j (replay order calls [])) ->
       In b (where_job j (replay order calls [])) ->
       rank a = Some m -> rank b = Some n -> (m < n)%nat ->
       match_score b <= match_score a.
Proof.
  apply (replay_keeps_dense calls []); [constructor|].
  intros j'. split; [reflexivity|]. intros a b m n [].
Qed.

End RankInvariant.

Section RankInvariantExamples.
Import Embedding Database Shortlister Examples.
Local Open Scope R_scope.

(** The statement above for the stable ordering, with "b" scored, then
    "a", then "b" once more. *)
Lemma every_job_densely_ranked_witness :
  Permutation
    (map rank (where_job "J1"
                 (replay stable_order_by_score_desc
                    [call_for "b"; call_for "a"; call_for "b"] [])))
    (map Some
       (seq 1 (length (where_job "J1"
                         (replay stable_order_by_score_desc
                            [call_for "b"; call_for "a"; call_for "b"] [])))))
  /\ forall (a b : Ranking) (m n : nat),
       In a (where_job "J1"
               (replay stable_order_by_score_desc
                  [call_for "b"; call_for "a"; call_for "b"] [])) ->
       In b (where_job "J1"
               (replay stable_order_by_score_desc
                  [call_for "b"; call_for "a"; call_for "b"] [])) ->
       rank a = Some m -> rank b = Some n -> (m < n)%nat ->
       match_score b <= match_score a.
Proof.
  exact (every_job_densely_ranked stable_order_by_score_desc stable_order_perm
           stable_order_sorted [call_for "b"; call_for "a"; call_for "b"] "J1").
Defined.

End RankInvariantExamples.

(** ** Judge answers that are JSON but not as expected *)

Section JudgeAnswerFacts.
Import Embedding Database Shortlister Examples.
Local Open Scope R_scope.

Variable order : list Ranking -> list Ranking.

(** X11: when the judge's answer parses as JSON but is not an object, or
    is an object whose "overall_score" is neither a number nor a boolean,
    [shortlist_candidate] raises (AttributeError, respectively TypeError)
    and writes nothing: the database is as before the call. *)
Theorem unusable_judge_answer_raises
    (fault : option nat) (self : Agent) (db : DB) (j r : string) :
  ((forall fields, fst (evaluate_detailed_match self db j r) <> JObj fields)
   \/ exists fields w,
       fst (evaluate_detailed_match self db j r) = JObj fields
       /\ dict_get fields "overall_score" = Some w
       /\ (forall x, w <> JNum x) /\ (forall b, w <> JBool b)) ->
  exists e,
    (e = AttributeError \/ e = TypeError)
    /\ shortlist_candidate order fault self db j r
       = {| returned := Raises e; db_after := db;
            printed := snd (evaluate_detailed_match self db j r) |}.
Proof.
  intros H.
  assert (He : exists e, (e = AttributeError \/ e = TypeError)
                         /\ llm_score_of (fst (evaluate_detailed_match self db j r))
                            = Raises e).
  { destruct H as [Hno | (fields & w & Hv & Hget & Hnum & Hbool)].
    - exists AttributeError. split; [now left|].
      destruct (fst (evaluate_detailed_match self db j r)); try reflexivity.
      now contradiction (Hno fields).
    - exists TypeError. split; [now right|].
      rewrite Hv. simpl. rewrite Hget. simpl.
      destruct w; try reflexivity; [now contradiction (Hbool b)|now contradiction (Hnum x)]. }
  destruct He as (e & Hkind & Hllm). exists e. split; [exact Hkind|].
  now apply shortlist_candidate_raised.
Qed.

(** X12: a judge object without the key "overall_score" counts as an
    overall score of 0: the call returns the semantic part alone,
    (0.6 * s) * 100. *)
Theorem missing_overall_score_counts_as_zero
    (fault : option nat) (self : Agent) (db : DB) (j r : string)
    (fields : list (string * json)) :
  fst (evaluate_detailed_match self db j r) = JObj fields ->
  dict_get fields "overall_score" = None ->
  exists flag,
    returned (shortlist_candidate order fault self db j r)
    = Returns (0.6 * evaluate_semantic_similarity self db j r * 100, flag).
Proof.
  intros Hv Hget. rewrite returned_of_call, Hv. simpl. rewrite Hget. simpl.
  replace ((0.6 * evaluate_semantic_similarity self db j r + 0.4 * (0 / 100)) * 100)
    with (0.6 * evaluate_semantic_similarity self db j r * 100) by lra.
  eexists. reflexivity.
Qed.

End JudgeAnswerFacts.

Section JudgeAnswerExamples.
Import Embedding Database Shortlister Examples.
Local Open Scope R_scope.

(** The statement of [unusable_judge_answer_raises] for the judge whose
    "overall_score" is a string. *)
Lemma unusable_judge_answer_raises_witness :
  exists e,
    (e = AttributeError \/ e = TypeError)
    /\ shortlist_candidate stable_order_by_score_desc None agent_text db1 "J1" "R1"
       = {| returned := Raises e; db_after := db1;
            printed := snd (evaluate_detailed_match agent_text db1 "J1" "R1") |}.
Proof.
  apply (unusable_judge_answer_raises stable_order_by_score_desc None agent_text db1 "J1" "R1").
  right. exists [("overall_score", JStr "90%")], (JStr "90%").
  split; [reflexivity|]. split; [reflexivity|]. split; intros; discriminate.
Defined.

(** The statement of [missing_overall_score_counts_as_zero] for the judge
    whose object has only a "skills_score". *)
Lemma missing_overall_score_counts_as_zero_witness :
  exists flag,
    returned (shortlist_candidate stable_order_by_score_desc None agent_partial db1 "J1" "R1")
    = Returns (0.6 * evaluate_semantic_similarity agent_partial db1 "J1" "R1" * 100, flag).
Proof.
  apply (missing_overall_score_counts_as_zero stable_order_by_score_desc None agent_partial
           db1 "J1" "R1" [("skills_score", JNum 70)]); reflexivity.
Defined.

End JudgeAnswerExamples.


(** ** The controller's index and metadata *)

Section IngestFacts.
Import Embedding Database.
Local Open Scope R_scope.

Lemma in_step_add (idx idx' : IndexFlatL2) (meta : gmap string MetaEntry) (x : vec)
    (e : MetaEntry) :
  Controller.in_step idx meta ->
  index_add idx x = Returns idx' ->
  Controller.in_step idx' (<[pretty (ntotal idx) := e]> meta).
Proof.
  intros [Hkeys Hdim]. unfold index_add.
  destruct (decide (length x = d idx)) as [Hx|]; [|discriminate].
  intros [= <-]. split.
  - intros key. unfold ntotal. simpl. rewrite length_app. simpl.
    destruct (decide (key = pretty (length (xb idx)))) as [->|Hne].
    + rewrite lookup_insert_eq. split; [|now eauto].
      intros _. exists (length (xb idx)). split; [lia|reflexivity].
    + rewrite lookup_insert_ne by congruence. rewrite Hkeys. unfold ntotal.
      split; intros (i & Hi & ->); exists i; (split; [|reflexivity]).
      * lia.
      * destruct (decide (i = length (xb idx))) as [->|]; [contradiction|lia].
  - simpl. apply Forall_app. split; [exact Hdim|]. now constructor.
Qed.

Lemma ids_given_insert (meta : gmap string MetaEntry) (key id : string)
    (m : list (string * json)) :
  id <> "" -> Controller.ids_given meta ->
  Controller.ids_given (<[key := {| ext_id := id; metadata := m |}]> meta).
Proof.
  intros Hid Hmeta key' e. destruct (decide (key = key')) as [->|Hne].
  - rewrite lookup_insert_eq. now intros [= <-].
  - rewrite lookup_insert_ne by exact Hne. apply Hmeta.
Qed.

Variable resume_email : string -> string.

Lemma step_keeps_in_step (self : Controller.MAS) (s : Controller.Step) :
  Controller.in_step (jd_index (Controller.embedding_service self))
    (jd_metadata (Controller.embedding_service self)) ->
  Controller.in_step (resume_index (Controller.embedding_service self))
    (resume_metadata (Controller.embedding_service self)) ->
  Controller.ids_given (jd_metadata (Controller.embedding_service self)) ->
  Controller.ids_given (resume_metadata (Controller.embedding_service self)) ->
  Controller.in_step
    (jd_index (Controller.embedding_service (Controller.step resume_email self s)))
    (jd_metadata (Controller.embedding_service (Controller.step resume_email self s)))
  /\ Controller.in_step
       (resume_index (Controller.embedding_service (Controller.step resume_email self s)))
       (resume_metadata (Controller.embedding_service (Controller.step resume_email self s)))
  /\ Controller.ids_given
       (jd_metadata (Controller.embedding_service (Controller.step resume_email self s)))
  /\ Controller.ids_given
       (resume_metadata (Controller.embedding_service (Controller.step resume_email self s)))
  /\ encode (Controller.embedding_service (Controller.step resume_email self s))
     = encode (Controller.embedding_service self)
  /\ d (jd_index (Controller.embedding_service (Controller.step resume_email self s)))
     = d (jd_index (Controller.embedding_service self))
  /\ d (resume_index (Controller.embedding_service (Controller.step resume_email self s)))
     = d (resume_index (Controller.embedding_service self)).
Proof.
  intros Hj Hr Hij Hir.
  destruct s as [db stored | db stored]; simpl.
  - unfold Controller.process_job_description.
    destruct stored as [j_id|]; [|simpl; intuition].
    destruct (bool_decide (j_id = "")) eqn:Hid; [simpl; intuition|].
    apply bool_decide_eq_false in Hid.
    destruct (Shortlister.get_job_description db j_id) as [jd|]; [|simpl; intuition].
    unfold add_jd_embedding.
    destruct (index_add (jd_index (Controller.embedding_service self)) _) as [idx'|] eqn:Hadd;
      simpl; [|simpl; intuition].
    split; [now apply (in_step_add _ _ _ _ _ Hj Hadd)|].
    split; [exact Hr|]. split; [now apply ids_given_insert|]. split; [exact Hir|].
    split; [reflexivity|]. split; [|reflexivity].
    unfold index_add in Hadd. destruct (decide _); [|discriminate]. now injection Hadd as <-.
  - unfold Controller.process_resume.
    destruct stored as [r_id|]; [|simpl; intuition].
    destruct (bool_decide (r_id = "")) eqn:Hid; [simpl; intuition|].
    apply bool_decide_eq_false in Hid.
    destruct (Shortlister.get_resume db r_id) as [resume|]; [|simpl; intuition].
    unfold add_resume_embedding.
    destruct (index_add (resume_index (Controller.embedding_service self)) _) as [idx'|]
      eqn:Hadd; simpl; [|simpl; intuition].
    split; [exact Hj|].
    split; [now apply (in_step_add _ _ _ _ _ Hr Hadd)|].
    split; [exact Hij|]. split; [now apply ids_given_insert|].
    split; [reflexivity|]. split; [reflexivity|].
    unfold index_add in Hadd. destruct (decide _); [|discriminate]. now injection Hadd as <-.
Qed.

Lemma ingest_keeps_in_step (steps : list Controller.Step) :
  forall self : Controller.MAS,
    Controller.in_step (jd_index (Controller.embedding_service self))
      (jd_metadata (Controller.embedding_service self)) ->
    Controller.in_step (resume_index (Controller.embedding_service self))
      (resume_metadata (Controller.embedding_service self)) ->
    Controller.ids_given (jd_metadata (Controller.embedding_service self)) ->
    Controller.ids_given (resume_metadata (Controller.embedding_service self)) ->
    Controller.in_step
      (jd_index (Controller.embedding_service (Controller.ingest resume_email self steps)))
      (jd_metadata (Controller.embedding_service (Controller.ingest resume_email self steps)))
    /\ Controller.in_step
         (resume_index (Controller.embedding_service
                          (Controller.ingest resume_email self steps)))
         (resume_metadata (Controller.embedding_service
                             (Controller.ingest resume_email self steps)))
    /\ Controller.ids_given
         (jd_metadata (Controller.embedding_service
                         (Controller.ingest resume_email self steps)))
    /\ Controller.ids_given
         (resume_metadata (Controller.embedding_service
                             (Controller.ingest resume_email self steps)))
    /\ encode (Controller.embedding_service (Controller.ingest resume_email self steps))
       = encode (Controller.embedding_service self)
    /\ d (jd_index (Controller.embedding_service (Controller.ingest resume_email self steps)))
       = d (jd_index (Controller.embedding_service self))
    /\ d (resume_index (Controller.embedding_service
                          (Controller.ingest resume_email self steps)))
       = d (resume_index (Controller.embedding_service self)).
Proof.
  unfold Controller.ingest.
  induction steps as [|s steps IH]; intros self Hj Hr Hij Hir; simpl; [intuition|].
  destruct (step_keeps_in_step self s Hj Hr Hij Hir) as (H1 & H2 & H3 & H4 & H5 & H6 & H7).
  destruct (IH _ H1 H2 H3 H4) as (G1 & G2 & G3 & G4 & G5 & G6 & G7).
  split; [exact G1|]. split; [exact G2|]. split; [exact G3|]. split; [exact G4|].
  split; [congruence|]. split; congruence.
Qed.

Lemma fresh_in_step (encoder : string -> vec) (dim : nat) :
  Controller.in_step (jd_index (Controller.fresh_service encoder dim))
    (jd_metadata (Controller.fresh_service encoder dim))
  /\ Controller.ids_given (jd_metadata (Controller.fresh_service encoder dim)).
Proof.
  split; [split|].
  - intros key. simpl. rewrite lookup_empty. split.
    + intros [? [=]].
    + intros (i & Hi & _). unfold ntotal in Hi. simpl in Hi. lia.
  - constructor.
  - intros key e. simpl. now rewrite lookup_empty.
Qed.

(** X13: the controller keeps its indices and metadata in step. Starting
    from a service with no files, after any sequence of
    [process_job_description] and [process_resume] (failed ones included)
    the keys of each metadata dict are exactly the ordinals below [ntotal]
    of its index, every stored vector has the dimension of the index, and
    no entry has an empty id. *)
Theorem ingest_keeps_index_and_metadata_in_step
    (agent : Shortlister.Agent) (encoder : string -> vec) (dim : nat)
    (steps : list Controller.Step) :
  Controller.in_step
    (jd_index (Controller.embedding_service
                 (Controller.ingest resume_email
                    {| Controller.shortlister_agent := agent;
                       Controller.embedding_service := Controller.fresh_service encoder dim |}
                    steps)))
    (jd_metadata (Controller.embedding_service
                    (Controller.ingest resume_email
                       {| Controller.shortlister_agent := agent;
                          Controller.embedding_service :=
                            Controller.fresh_service encoder dim |}
                       steps)))
  /\ Controller.in_step
       (resume_index (Controller.embedding_service
                        (Controller.ingest resume_email
                           {| Controller.shortlister_agent := agent;
                              Controller.embedding_service :=
                                Controller.fresh_service encoder dim |}
                           steps)))
       (resume_metadata (Controller.embedding_service
                           (Controller.ingest resume_email
                              {| Controller.shortlister_agent := agent;
                                 Controller.embedding_service :=
                                   Controller.fresh_service encoder dim |}
                              steps)))
  /\ Controller.ids_given
       (jd_metadata (Controller.embedding_service
                       (Controller.ingest resume_email
                          {| Controller.shortlister_agent := agent;
                             Controller.embedding_service :=
                               Controller.fresh_service encoder dim |}
                          steps)))
  /\ Controller.ids_given
       (resume_metadata (Controller.embedding_service
                           (Controller.ingest resume_email
                              {| Controller.shortlister_agent := agent;
                                 Controller.embedding_service :=
                                   Controller.fresh_service encoder dim |}
                              steps))).
Proof.
  destruct (fresh_in_step encoder dim) as [Hs Hi].
  destruct (ingest_keeps_in_step steps
              {| Controller.shortlister_agent := agent;
                 Controller.embedding_service := Controller.fresh_service encoder dim |}
              Hs Hs Hi Hi) as (H1 & H2 & H3 & H4 & _).
  auto.
Qed.

End IngestFacts.

(** ** The matching loops of the controller *)

Section MatchingFacts.
Import Embedding Database.
Local Open Scope R_scope.

Variable index_search : IndexFlatL2 -> vec -> Z -> outcome (list slot).
Variable order : list Ranking -> list Ranking.
Variable faults : nat -> option nat.

Lemma returned_flag (fault : option nat) (self : Shortlister.Agent) (db : DB)
    (j r : string) (s : R) (f : bool) :
  Shortlister.returned (Shortlister.shortlist_candidate order fault self db j r)
  = Returns (s, f) ->
  f = bool_decide (Shortlister.shortlist_threshold self * 100 <= s).
Proof.
  rewrite returned_of_call. destruct (Shortlister.llm_score_of _); [|discriminate].
  now intros [= <- <-].
Qed.

Lemma call_pairs_kept (fault : option nat) (self : Shortlister.Agent) (db : DB)
    (j r : string) (p : string * string) :
  In p (map pair_of (rankings db)) ->
  In p (map pair_of
          (rankings (Shortlister.db_after
                       (Shortlister.shortlist_candidate order fault self db j r)))).
Proof.
  intros Hp.
  destruct (shortlist_candidate_table order fault self db j r) as [-> | (s & f & ->)];
    [exact Hp|].
  rewrite pairs_rerank. unfold insert_or_replace. rewrite map_app. apply in_or_app.
  destruct (decide (p = (r, j))) as [->|Hne]; [right; now left|]. left.
  apply in_map_iff in Hp as (row & <- & Hrow). apply in_map_iff.
  exists row. split; [reflexivity|]. apply filter_In. split; [exact Hrow|].
  apply negb_true_iff. now apply same_pair_false.
Qed.

Lemma call_pair_added (self : Shortlister.Agent) (db : DB) (j r : string) (v : R * bool) :
  Shortlister.returned (Shortlister.shortlist_candidate order None self db j r) = Returns v ->
  In (r, j)
    (map pair_of
       (rankings (Shortlister.db_after
                    (Shortlister.shortlist_candidate order None self db j r)))).
Proof.
  rewrite returned_of_call.
  destruct (Shortlister.llm_score_of _) as [x|e] eqn:H; [|discriminate]. intros _.
  rewrite (shortlist_candidate_scored order None self db j r x H). cbv zeta.
  simpl Shortlister.fault_within. cbn [Shortlister.db_after rankings].
  rewrite assign_ranks_map, pairs_rerank. unfold insert_or_replace.
  rewrite map_app. apply in_or_app. right. now left.
Qed.

(** What the loop of [match_resume_to_all_jobs] appends when it runs to
    its end. *)
Lemma score_jobs_returns (self : Controller.MAS) (r_id : string)
    (similar : list SearchResult) :
  forall (n : nat) (db : DB) (results0 : list Controller.JobMatch)
         (out0 : list Shortlister.message) (results : list Controller.JobMatch),
    Controller.result (Controller.score_jobs order faults self r_id similar n db results0 out0)
    = Returns results ->
    exists new,
      results = results0 ++ new
      /\ (length new <= length similar)%nat
      /\ Forall (fun m =>
                   Controller.jm_job_id m <> ""
                   /\ Controller.jm_shortlisted m
                      = bool_decide
                          (Shortlister.shortlist_threshold (Controller.shortlister_agent self)
                           * 100 <= Controller.jm_match_score m)) new
      /\ (Forall (fun jd => found_id jd <> "") similar -> length new = length similar).
Proof.
  induction similar as [|jd rest IH]; intros n db results0 out0 results; simpl.
  - intros [= <-]. exists []. rewrite app_nil_r. repeat split; auto.
  - destruct (bool_decide (found_id jd = "")) eqn:Hid.
    + intros Hres. destruct (IH _ _ _ _ _ Hres) as (new & -> & Hlen & Hall & Hfull).
      exists new. split; [reflexivity|]. split; [lia|]. split; [exact Hall|].
      intros Hne. apply Forall_cons in Hne as [Hjd _].
      apply bool_decide_eq_true in Hid. contradiction.
    + apply bool_decide_eq_false in Hid.
      destruct (Shortlister.returned _) as [[s f]|e] eqn:Hret; simpl; [|discriminate].
      intros Hres. destruct (IH _ _ _ _ _ Hres) as (new & -> & Hlen & Hall & Hfull).
      eexists (_ :: new). rewrite <- app_assoc. split; [reflexivity|].
      split; [simpl; lia|]. split.
      * constructor; [|exact Hall]. simpl. split; [exact Hid|].
        eapply returned_flag. exact Hret.
      * intros Hne. apply Forall_cons in Hne as [_ Hne]. simpl. now rewrite Hfull.
Qed.

Lemma job_match_ge_total (a b : Controller.JobMatch) :
  Controller.job_match_ge a b = false -> Controller.job_match_ge b a = true.
Proof.
  unfold Controller.job_match_ge. intros H. apply bool_decide_eq_false in H.
  apply bool_decide_eq_true. lra.
Qed.

Lemma job_match_ge_trans (a b c : Controller.JobMatch) :
  Controller.job_match_ge a b = true -> Controller.job_match_ge b c = true ->
  Controller.job_match_ge a c = true.
Proof.
  unfold Controller.job_match_ge. rewrite !bool_decide_eq_true. lra.
Qed.

Lemma sorted_job_matches (l : list Controller.JobMatch) :
  StronglySorted (fun a b => Controller.jm_match_score b <= Controller.jm_match_score a)
    (sort_by Controller.job_match_ge l).
Proof.
  rewrite <- (list_fmap_id (sort_by Controller.job_match_ge l)).
  eapply StronglySorted_fmap;
    [|exact (sort_by_sorted Controller.job_match_ge job_match_ge_total job_match_ge_trans l)].
  intros x y Hxy. unfold Controller.job_match_ge in Hxy. now apply bool_decide_eq_true in Hxy.
Qed.

Lemma search_jds_length (self : EmbeddingService) (text : string) (k : Z)
    (found : list SearchResult) :
  search_contract index_search ->
  length (get_embedding self text) = d (jd_index self) ->
  (0 < k)%Z ->
  search_similar_jds index_search self text k = Returns found ->
  length found = Z.to_nat (Z.min k (Z.of_nat (ntotal (jd_index self))))
  /\ Forall (fun r => (index_id r < ntotal (jd_index self))%nat
                      /\ found_id r
                         = from_option ext_id "" (jd_metadata self !! pretty (index_id r)))
       found.
Proof.
  intros Hc Hd Hk. unfold search_similar_jds.
  destruct (decide (ntotal (jd_index self) = 0%nat)) as [H0|Hn].
  - intros [= <-]. rewrite H0. split; [simpl; lia|constructor].
  - destruct (search_listing index_search Hc (jd_index self) (jd_metadata self) _ k Hd Hn Hk)
      as (results & -> & Hlen & _ & Hall).
    intros [= <-]. split; [exact Hlen|].
    eapply Forall_impl; [exact Hall|]. intros r (v & Hv & _ & Hid).
    split; [|exact Hid]. unfold ntotal. eapply lookup_lt_Some. exact Hv.
Qed.

Lemma search_resumes_length (self : EmbeddingService) (text : string) (k : Z)
    (found : list SearchResult) :
  search_contract index_search ->
  length (get_embedding self text) = d (resume_index self) ->
  (0 < k)%Z ->
  search_similar_resumes index_search self text k = Returns found ->
  length found = Z.to_nat (Z.min k (Z.of_nat (ntotal (resume_index self))))
  /\ Forall (fun r => (index_id r < ntotal (resume_index self))%nat
                      /\ found_id r
                         = from_option ext_id "" (resume_metadata self !! pretty (index_id r)))
       found.
Proof.
  intros Hc Hd Hk. unfold search_similar_resumes.
  destruct (decide (ntotal (resume_index self) = 0%nat)) as [H0|Hn].
  - intros [= <-]. rewrite H0. split; [simpl; lia|constructor].
  - destruct (search_listing index_search Hc (resume_index self) (resume_metadata self)
                _ k Hd Hn Hk) as (results & -> & Hlen & _ & Hall).
    intros [= <-]. split; [exact Hlen|].
    eapply Forall_impl; [exact Hall|]. intros r (v & Hv & _ & Hid).
    split; [|exact Hid]. unfold ntotal. eapply lookup_lt_Some. exact Hv.
Qed.

(** X14: when [match_resume_to_all_jobs] returns, its list is in order of
    non-increasing match score, has at most 10 entries (for an index search
    that keeps to its contract), names no empty job id, and every entry is
    flagged exactly when its score reaches the shortlister's threshold. *)
Theorem match_resume_to_all_jobs_listing
    (self : Controller.MAS) (db : DB) (r_id : string)
    (results : list Controller.JobMatch) :
  search_contract index_search ->
  (forall text,
      length (encode (Controller.embedding_service self) text)
      = d (jd_index (Controller.embedding_service self))) ->
  Controller.result (Controller.match_resume_to_all_jobs index_search order faults self db r_id)
  = Returns results ->
  StronglySorted (fun a b => Controller.jm_match_score b <= Controller.jm_match_score a)
    results
  /\ (length results <= 10)%nat
  /\ Forall (fun m =>
               Controller.jm_job_id m <> ""
               /\ Controller.jm_shortlisted m
                  = bool_decide
                      (Shortlister.shortlist_threshold (Controller.shortlister_agent self)
                       * 100 <= Controller.jm_match_score m)) results.
Proof.
  intros Hc Hdim. unfold Controller.match_resume_to_all_jobs.
  destruct (Shortlister.get_resume db r_id) as [resume|]; simpl;
    [|intros [= <-]; split; [apply SSorted_nil|split; [simpl; lia|constructor]]].
  destruct (search_similar_jds index_search _ _ 10) as [found|e] eqn:Hs; simpl;
    [|discriminate].
  destruct (Controller.result (Controller.score_jobs order faults self r_id found 0 db [] []))
    as [unsorted|e] eqn:Hrun; [|discriminate].
  intros [= <-].
  destruct (score_jobs_returns self r_id found _ _ _ _ _ Hrun) as (new & -> & Hlen & Hall & _).
  simpl in *.
  destruct (search_jds_length _ _ 10 found Hc (Hdim _) ltac:(lia) Hs) as [Hfound _].
  split; [apply sorted_job_matches|]. split.
  - rewrite (Permutation_length (sort_by_perm Controller.job_match_ge new)). lia.
  - now rewrite (sort_by_perm Controller.job_match_ge new).
Qed.

(** X15: after ingestion from a service with no files, with an encoder of
    the index's dimension and an index search that keeps to its contract,
    [match_resume_to_all_jobs] skips none of the records found: when it
    returns for a resume that is on file, it has scored min(10, ntotal)
    jobs. *)
Theorem match_resume_to_all_jobs_scores_every_hit
    (resume_email : string -> string) (agent : Shortlister.Agent)
    (encoder : string -> vec) (dim : nat) (steps : list Controller.Step)
    (db : DB) (r_id : string) (results : list Controller.JobMatch) :
  search_contract index_search ->
  (forall text, length (encoder text) = dim) ->
  is_Some (Shortlister.get_resume db r_id) ->
  Controller.result
    (Controller.match_resume_to_all_jobs index_search order faults
       (Controller.ingest resume_email
          {| Controller.shortlister_agent := agent;
             Controller.embedding_service := Controller.fresh_service encoder dim |} steps)
       db r_id)
  = Returns results ->
  length results
  = Nat.min 10
      (ntotal (jd_index
                 (Controller.embedding_service
                    (Controller.ingest resume_email
                       {| Controller.shortlister_agent := agent;
                          Controller.embedding_service :=
                            Controller.fresh_service encoder dim |} steps)))).
Proof.
  intros Hc Hdim [resume Hresume].
  set (self0 := {| Controller.shortlister_agent := agent;
                   Controller.embedding_service := Controller.fresh_service encoder dim |}).
  set (self := Controller.ingest resume_email self0 steps).
  destruct (fresh_in_step encoder dim) as [Hs Hi].
  destruct (ingest_keeps_in_step resume_email steps self0 Hs Hs Hi Hi)
    as ([Hkeys _] & _ & Hids & _ & Henc & Hd & _).
  fold self in Hkeys, Hids, Henc, Hd.
  unfold Controller.match_resume_to_all_jobs. rewrite Hresume.
  destruct (search_similar_jds index_search _ _ 10) as [found|e] eqn:Hsearch;
    cbn [Controller.result]; [|discriminate].
  destruct (Controller.result (Controller.score_jobs order faults self r_id found 0 db [] []))
    as [unsorted|e] eqn:Hrun; [|discriminate].
  intros [= <-].
  assert (Hlen : length (get_embedding (Controller.embedding_service self)
                           (Controller.resume_text_short resume))
                 = d (jd_index (Controller.embedding_service self))).
  { unfold get_embedding. rewrite Henc, Hd. simpl. apply Hdim. }
  destruct (search_jds_length _ _ 10 found Hc Hlen ltac:(lia) Hsearch) as [Hfound Hall].
  destruct (score_jobs_returns self r_id found _ _ _ _ _ Hrun) as (new & -> & _ & _ & Hfull).
  rewrite app_nil_l, (Permutation_length (sort_by_perm Controller.job_match_ge new)).
  rewrite Hfull; [lia|].
  eapply Forall_impl; [exact Hall|]. intros r [Hlt ->].
  destruct (proj2 (Hkeys (pretty (index_id r)))) as [e He]; [now eauto|].
  rewrite He. simpl. now apply (Hids _ _ He).
Qed.

Lemma candidate_match_ge_total (a b : Controller.CandidateMatch) :
  Controller.candidate_match_ge a b = false -> Controller.candidate_match_ge b a = true.
Proof.
  unfold Controller.candidate_match_ge. intros H. apply bool_decide_eq_false in H.
  apply bool_decide_eq_true. lra.
Qed.

Lemma candidate_match_ge_trans (a b c : Controller.CandidateMatch) :
  Controller.candidate_match_ge a b = true -> Controller.candidate_match_ge b c = true ->
  Controller.candidate_match_ge a c = true.
Proof.
  unfold Controller.candidate_match_ge. rewrite !bool_decide_eq_true. lra.
Qed.

Lemma sorted_candidate_matches (l : list Controller.CandidateMatch) :
  StronglySorted (fun a b => Controller.cm_match_score b <= Controller.cm_match_score a)
    (sort_by Controller.candidate_match_ge l).
Proof.
  rewrite <- (list_fmap_id (sort_by Controller.candidate_match_ge l)).
  eapply StronglySorted_fmap;
    [|exact (sort_by_sorted Controller.candidate_match_ge candidate_match_ge_total
               candidate_match_ge_trans l)].
  intros x y Hxy. unfold Controller.candidate_match_ge in Hxy.
  now apply bool_decide_eq_true in Hxy.
Qed.

Variable resume_email : string -> string.

(** What the loop of [find_candidates_for_job] appends and stores when it
    runs to its end. *)
Lemma score_candidates_returns (self : Controller.MAS) (j_id : string) (min_score : R)
    (similar : list SearchResult) :
  forall (n : nat) (db : DB) (results0 : list Controller.CandidateMatch)
         (out0 : list Shortlister.message) (results : list Controller.CandidateMatch),
    Controller.result
      (Controller.score_candidates resume_email order faults self j_id min_score
         similar n db results0 out0)
    = Returns results ->
    (exists new,
        results = results0 ++ new
        /\ (length new <= length similar)%nat
        /\ Forall (fun m =>
                     Controller.cm_resume_id m <> ""
                     /\ min_score <= Controller.cm_match_score m
                     /\ Controller.cm_shortlisted m
                        = bool_decide
                            (Shortlister.shortlist_threshold
                               (Controller.shortlister_agent self)
                             * 100 <= Controller.cm_match_score m)) new)
    /\ (forall p, In p (map pair_of (rankings db)) ->
                  In p (map pair_of
                          (rankings (Controller.final_db
                                       (Controller.score_candidates resume_email order faults
                                          self j_id min_score similar n db results0 out0)))))
    /\ ((forall k, faults k = None) ->
        Forall (fun hit =>
                  found_id hit <> "" ->
                  In (found_id hit, j_id)
                    (map pair_of
                       (rankings (Controller.final_db
                                    (Controller.score_candidates resume_email order faults
                                       self j_id min_score similar n db results0 out0)))))
          similar).
Proof.
  induction similar as [|hit rest IH]; intros n db results0 out0 results; simpl.
  - intros [= <-]. split; [|split; [auto|constructor]].
    exists []. rewrite app_nil_r. repeat split; auto.
  - destruct (bool_decide (found_id hit = "")) eqn:Hid.
    + intros Hres. destruct (IH _ _ _ _ _ Hres) as ((new & -> & Hlen & Hall) & Hkept & Hnew).
      split; [|split; [exact Hkept|]].
      * exists new. split; [reflexivity|]. split; [lia|exact Hall].
      * intros Hf. constructor; [|auto].
        intros Hne. apply bool_decide_eq_true in Hid. contradiction.
    + apply bool_decide_eq_false in Hid.
      destruct (Shortlister.returned _) as [[s f]|e] eqn:Hret; cbn [Controller.result];
        [|discriminate].
      pose proof (returned_flag _ _ _ _ _ _ _ Hret) as Hflag.
      destruct (bool_decide (min_score <= s)) eqn:Hmin.
      * apply bool_decide_eq_true in Hmin.
        intros Hres.
        destruct (IH _ _ _ _ _ Hres) as ((new & -> & Hlen & Hall) & Hkept & Hnew).
        split; [|split].
        -- eexists (_ :: new). rewrite <- app_assoc. split; [reflexivity|].
           split; [simpl; lia|]. constructor; [|exact Hall]. simpl. auto.
        -- intros p Hp. apply Hkept. now apply call_pairs_kept.
        -- intros Hf. constructor; [|auto].
           intros _. apply Hkept. rewrite Hf in *. eapply call_pair_added. exact Hret.
      * intros Hres.
        destruct (IH _ _ _ _ _ Hres) as ((new & -> & Hlen & Hall) & Hkept & Hnew).
        split; [|split].
        -- exists new. split; [reflexivity|]. split; [lia|exact Hall].
        -- intros p Hp. apply Hkept. now apply call_pairs_kept.
        -- intros Hf. constructor; [|auto].
           intros _. apply Hkept. rewrite Hf in *. eapply call_pair_added. exact Hret.
Qed.

(** X16: when [find_candidates_for_job] returns, every entry of its list
    has a match score of at least [min_score], the list is in order of
    non-increasing score, has at most 20 entries (for an index search that
    keeps to its contract), names no empty resume id, and every entry is
    flagged exactly when its score reaches the shortlister's threshold. *)
Theorem find_candidates_for_job_listing
    (self : Controller.MAS) (db : DB) (j_id : string) (min_score : R)
    (results : list Controller.CandidateMatch) :
  search_contract index_search ->
  (forall text,
      length (encode (Controller.embedding_service self) text)
      = d (resume_index (Controller.embedding_service self))) ->
  Controller.result
    (Controller.find_candidates_for_job resume_email index_search order faults
       self db j_id min_score)
  = Returns results ->
  StronglySorted (fun a b => Controller.cm_match_score b <= Controller.cm_match_score a)
    results
  /\ (length results <= 20)%nat
  /\ Forall (fun m =>
               Controller.cm_resume_id m <> ""
               /\ min_score <= Controller.cm_match_score m
               /\ Controller.cm_shortlisted m
                  = bool_decide
                      (Shortlister.shortlist_threshold (Controller.shortlister_agent self)
                       * 100 <= Controller.cm_match_score m)) results.
Proof.
  intros Hc Hdim. unfold Controller.find_candidates_for_job.
  destruct (Shortlister.get_job_description db j_id) as [jd|]; cbn [Controller.result];
    [|intros [= <-]; split; [apply SSorted_nil|split; [simpl; lia|constructor]]].
  destruct (search_similar_resumes index_search _ _ 20) as [found|e] eqn:Hs;
    cbn [Controller.result]; [|discriminate].
  destruct (Controller.result
              (Controller.score_candidates resume_email order faults self j_id min_score
                 found 0 db [] [])) as [unsorted|e] eqn:Hrun; [|discriminate].
  intros [= <-].
  destruct (score_candidates_returns self j_id min_score found _ _ _ _ _ Hrun)
    as ((new & -> & Hlen & Hall) & _).
  rewrite app_nil_l.
  destruct (search_resumes_length _ _ 20 found Hc (Hdim _) ltac:(lia) Hs) as [Hfound _].
  split; [apply sorted_candidate_matches|]. split.
  - rewrite (Permutation_length (sort_by_perm Controller.candidate_match_ge new)). lia.
  - now rewrite (sort_by_perm Controller.candidate_match_ge new).
Qed.

(** X17: [find_candidates_for_job] scores and stores every candidate the
    search hands it, also those it then leaves out of its answer for
    scoring below [min_score]: when it returns and no write failed, the
    rankings table has a row for the job and each resume id found, and has
    lost no pair it had before. *)
Theorem find_candidates_for_job_stores_every_hit
    (self : Controller.MAS) (db : DB) (j_id : string) (min_score : R)
    (jd : JobDescription) (found : list SearchResult)
    (results : list Controller.CandidateMatch) :
  (forall k, faults k = None) ->
  Shortlister.get_job_description db j_id = Some jd ->
  search_similar_resumes index_search (Controller.embedding_service self)
    (Shortlister.jd_text_of Shortlister.indent8 jd) 20 = Returns found ->
  Controller.result
    (Controller.find_candidates_for_job resume_email index_search order faults
       self db j_id min_score)
  = Returns results ->
  Forall (fun hit =>
            found_id hit <> "" ->
            In (found_id hit, j_id)
              (map pair_of
                 (rankings
                    (Controller.final_db
                       (Controller.find_candidates_for_job resume_email index_search order
                          faults self db j_id min_score))))) found
  /\ forall p, In p (map pair_of (rankings db)) ->
               In p (map pair_of
                       (rankings
                          (Controller.final_db
                             (Controller.find_candidates_for_job resume_email index_search
                                order faults self db j_id min_score)))).
Proof.
  intros Hf Hjd Hs. unfold Controller.find_candidates_for_job. rewrite Hjd, Hs.
  cbn [Controller.result Controller.final_db].
  destruct (Controller.result
              (Controller.score_candidates resume_email order faults self j_id min_score
                 found 0 db [] [])) as [unsorted|e] eqn:Hrun; [|discriminate].
  intros _.
  destruct (score_candidates_returns self j_id min_score found _ _ _ _ _ Hrun)
    as (_ & Hkept & Hnew).
  split; [now apply Hnew|exact Hkept].
Qed.

End MatchingFacts.

Section MatchingExamples.
Import Embedding Database Examples.
Local Open Scope R_scope.

Lemma db_after_tables (order : list Ranking -> list Ranking) (fault : option nat)
    (self : Shortlister.Agent) (db : DB) (j r : string) :
  job_descriptions
    (Shortlister.db_after (Shortlister.shortlist_candidate order fault self db j r))
  = job_descriptions db
  /\ resumes (Shortlister.db_after (Shortlister.shortlist_candidate order fault self db j r))
     = resumes db.
Proof.
  destruct (Shortlister.llm_score_of (fst (Shortlister.evaluate_detailed_match self db j r)))
    as [x|e] eqn:H.
  - rewrite (shortlist_candidate_scored order fault self db j r x H). cbv zeta.
    destruct (Shortlister.fault_within fault 0 _); now split.
  - rewrite (shortlist_candidate_raised order fault self db j r e H). now split.
Qed.

Lemma sign_encoder_length (text : string) : length (sign_encoder text) = 1%nat.
Proof. unfold sign_encoder. now destruct (String.eqb text "jd"). Qed.

Lemma sample_match_all (self : Controller.MAS) (hit : SearchResult) :
  Controller.shortlister_agent self = agent90 ->
  search_similar_jds flat_search (Controller.embedding_service self)
    (Controller.resume_text_short resume1) 10 = Returns [hit] ->
  found_id hit = "J1" ->
  Controller.result
    (Controller.match_resume_to_all_jobs flat_search stable_order_by_score_desc no_fault
       self db1 "R1")
  = Returns sample_job_matches.
Proof.
  intros Hagent Hs Hid. unfold Controller.match_resume_to_all_jobs.
  change (Shortlister.get_resume db1 "R1") with (Some resume1).
  cbv iota beta. rewrite Hs. cbv iota beta zeta. cbn [Controller.result].
  cbn [Controller.score_jobs]. rewrite Hid, Hagent.
  rewrite bool_decide_eq_false_2 by discriminate.
  rewrite (sample_run_96 stable_order_by_score_desc (no_fault 0)).
  unfold Scheduler.get_job_details.
  rewrite (proj1 (db_after_tables stable_order_by_score_desc (no_fault 0)
                    agent90 db1 "J1" "R1")).
  reflexivity.
Qed.

(** The statement of [match_resume_to_all_jobs_listing] for the controller
    [mas1] and the resume "R1" of [db1]. *)
Lemma match_resume_to_all_jobs_listing_witness :
  StronglySorted (fun a b => Controller.jm_match_score b <= Controller.jm_match_score a)
    sample_job_matches
  /\ (length sample_job_matches <= 10)%nat
  /\ Forall (fun m =>
               Controller.jm_job_id m <> ""
               /\ Controller.jm_shortlisted m
                  = bool_decide
                      (Shortlister.shortlist_threshold (Controller.shortlister_agent mas1)
                       * 100 <= Controller.jm_match_score m)) sample_job_matches.
Proof.
  apply (match_resume_to_all_jobs_listing flat_search stable_order_by_score_desc no_fault
           mas1 db1 "R1" sample_job_matches flat_search_contract).
  - intros text. apply sign_encoder_length.
  - eapply (sample_match_all mas1); reflexivity.
Defined.

(** The statement of [match_resume_to_all_jobs_scores_every_hit] after the
    ingestion of the job "J1" of [db1]. *)
Lemma match_resume_to_all_jobs_scores_every_hit_witness :
  length sample_job_matches
  = Nat.min 10
      (ntotal (jd_index
                 (Controller.embedding_service
                    (Controller.ingest sample_email
                       {| Controller.shortlister_agent := agent90;
                          Controller.embedding_service :=
                            Controller.fresh_service sign_encoder 1 |}
                       [Controller.ProcessJD db1 (Some "J1")])))).
Proof.
  apply (match_resume_to_all_jobs_scores_every_hit flat_search stable_order_by_score_desc
           no_fault sample_email agent90 sign_encoder 1
           [Controller.ProcessJD db1 (Some "J1")] db1 "R1" sample_job_matches
           flat_search_contract sign_encoder_length).
  - now exists resume1.
  - eapply sample_match_all; reflexivity.
Defined.

Lemma sample_resume_search :
  search_similar_resumes flat_search svc1 (Shortlister.jd_text_of Shortlister.indent8 jd1) 20
  = Returns [sample_resume_hit].
Proof. reflexivity. Qed.

Lemma sample_find_candidates (min_score : R) :
  Controller.result
    (Controller.find_candidates_for_job sample_email flat_search
       stable_order_by_score_desc no_fault mas1 db1 "J1" min_score)
  = Returns (if bool_decide (min_score <= 96) then sample_candidate_matches else []).
Proof.
  unfold Controller.find_candidates_for_job.
  change (Shortlister.get_job_description db1 "J1") with (Some jd1).
  cbv iota beta. change (Controller.embedding_service mas1) with svc1.
  rewrite sample_resume_search. cbv iota beta zeta. cbn [Controller.result].
  cbn [Controller.score_candidates]. change (found_id sample_resume_hit) with "R1".
  change (Controller.shortlister_agent mas1) with agent90.
  rewrite bool_decide_eq_false_2 by discriminate.
  rewrite (sample_run_96 stable_order_by_score_desc (no_fault 0)).
  unfold Shortlister.get_resume.
  rewrite (proj2 (db_after_tables stable_order_by_score_desc (no_fault 0)
                    agent90 db1 "J1" "R1")).
  destruct (bool_decide (min_score <= 96)); reflexivity.
Qed.

(** The statement of [find_candidates_for_job_listing] for the controller
    [mas1], the job "J1" of [db1] and [min_score = 50]. *)
Lemma find_candidates_for_job_listing_witness :
  StronglySorted (fun a b => Controller.cm_match_score b <= Controller.cm_match_score a)
    sample_candidate_matches
  /\ (length sample_candidate_matches <= 20)%nat
  /\ Forall (fun m =>
               Controller.cm_resume_id m <> ""
               /\ 50 <= Controller.cm_match_score m
               /\ Controller.cm_shortlisted m
                  = bool_decide
                      (Shortlister.shortlist_threshold (Controller.shortlister_agent mas1)
                       * 100 <= Controller.cm_match_score m)) sample_candidate_matches.
Proof.
  apply (find_candidates_for_job_listing flat_search stable_order_by_score_desc no_fault
           sample_email mas1 db1 "J1" 50 sample_candidate_matches flat_search_contract).
  - intros text. apply sign_encoder_length.
  - rewrite sample_find_candidates. now rewrite bool_decide_eq_true_2 by lra.
Defined.

(** The statement of [find_candidates_for_job_stores_every_hit] for the
    controller [mas1], the job "J1" of [db1] and [min_score = 100]: the
    answer is empty, the pair is stored. *)
Lemma find_candidates_for_job_stores_every_hit_witness :
  Forall (fun hit =>
            found_id hit <> "" ->
            In (found_id hit, "J1")
              (map pair_of
                 (rankings
                    (Controller.final_db
                       (Controller.find_candidates_for_job sample_email flat_search
                          stable_order_by_score_desc no_fault mas1 db1 "J1" 100)))))
    [sample_resume_hit]
  /\ forall p, In p (map pair_of (rankings db1)) ->
               In p (map pair_of
                       (rankings
                          (Controller.final_db
                             (Controller.find_candidates_for_job sample_email flat_search
                                stable_order_by_score_desc no_fault mas1 db1 "J1" 100)))).
Proof.
  apply (find_candidates_for_job_stores_every_hit flat_search stable_order_by_score_desc
           no_fault sample_email mas1 db1 "J1" 100 jd1 [sample_resume_hit] []).
  - reflexivity.
  - reflexivity.
  - apply sample_resume_search.
  - rewrite sample_find_candidates. now rewrite bool_decide_eq_false_2 by lra.
Defined.

End MatchingExamples.

(** ** The scheduler's view of the rankings *)

Section SchedulerFacts.
Import Embedding Database Shortlister.
Local Open Scope R_scope.

Lemma filter_filter_sublist {A : Type} (p q r : A -> bool) (l : list A) :
  (forall x, p x = true -> q x = true) ->
  sublist (List.filter p (List.filter r l)) (List.filter q l).
Proof.
  intros Hpq. induction l as [|x l IH]; simpl; [constructor|].
  destruct (r x); simpl.
  - destruct (p x) eqn:Hp.
    + rewrite (Hpq x Hp). now constructor.
    + destruct (q x); [now constructor|exact IH].
  - destruct (q x); [now constructor|exact IH].
Qed.

Lemma filter_sublist {A : Type} (q : A -> bool) (l : list A) :
  sublist (List.filter q l) l.
Proof.
  induction l as [|x l IH]; simpl; [constructor|].
  destruct (q x); now constructor.
Qed.

Lemma shortlisted_rows_spec (db : DB) (j : string) (row : Ranking) :
  In row (Scheduler.shortlisted_rows db j) ->
  In row (where_job j (rankings db)) /\ job_id row = j /\ shortlisted row = true.
Proof.
  unfold Scheduler.shortlisted_rows, where_job. rewrite !filter_In.
  intros [[Hin _] Hb]. apply andb_prop in Hb as [Hj Hs].
  split; [split; [exact Hin|exact Hj]|]. split; [|exact Hs].
  now apply bool_decide_eq_true in Hj.
Qed.

Lemma dense_rank_known (rows : list Ranking) (row : Ranking) :
  dense_ranking rows -> In row rows -> exists m, rank row = Some m.
Proof.
  intros [Hperm _] Hin.
  assert (Hr : In (rank row) (map Some (seq 1 (length rows)))).
  { eapply Permutation_in; [exact Hperm|]. now apply in_map. }
  apply in_map_iff in Hr as (m & Hm & _). now exists m.
Qed.

(** Rows in [rank] order with no rank twice, all of one densely ranked
    job: ranks go up strictly and scores never go up. *)
Lemma rank_order_is_score_order (rows l : list Ranking) :
  dense_ranking rows ->
  (forall row, In row l -> In row rows) ->
  NoDup (map rank l) ->
  StronglySorted (fun a b => Scheduler.rank_le a b = true) l ->
  StronglySorted
    (fun a b => match_score b <= match_score a
                /\ exists m n, rank a = Some m /\ rank b = Some n /\ (m < n)%nat) l.
Proof.
  intros Hdense Hsub Hnd Hs. induction Hs as [|a l Hs IH Hall]; [constructor|].
  simpl in Hnd. apply NoDup_cons in Hnd as [Hnotin Hnd].
  constructor.
  - apply IH; [|exact Hnd]. intros row Hrow. apply Hsub. now right.
  - rewrite Forall_forall in Hall. apply Forall_forall. intros b Hb.
    apply list_elem_of_In in Hb.
    assert (Ha' : In a rows) by (apply Hsub; now left).
    assert (Hb' : In b rows) by (apply Hsub; now right).
    destruct (dense_rank_known rows a Hdense Ha') as [m Hm].
    destruct (dense_rank_known rows b Hdense Hb') as [n Hn].
    assert (Hle : Scheduler.rank_le a b = true) by (apply Hall; now apply list_elem_of_In).
    unfold Scheduler.rank_le in Hle. rewrite Hm, Hn in Hle.
    apply bool_decide_eq_true in Hle.
    assert (Hne : m <> n).
    { intros ->. apply Hnotin. apply list_elem_of_In. rewrite Hm, <- Hn. now apply in_map. }
    assert (Hlt : (m < n)%nat) by lia.
    split; [|now exists m, n].
    destruct Hdense as [_ Hord]. exact (Hord a b m n Ha' Hb' Hm Hn Hlt).
Qed.

Variable order : list Ranking -> list Ranking.
Hypothesis order_perm : forall rows, Permutation (order rows) rows.
Hypothesis order_sorted :
  forall rows, StronglySorted (fun a b => match_score b <= match_score a) (order rows).

Variable order_by_rank_asc : list Ranking -> list Ranking.
Hypothesis rank_order_perm : forall rows, Permutation (order_by_rank_asc rows) rows.
Hypothesis rank_order_sorted :
  forall rows,
    StronglySorted (fun a b => Scheduler.rank_le a b = true) (order_by_rank_asc rows).

Variable resume_email : string -> string.

(** X18: on a rankings table written by any sequence of calls of
    [shortlist_candidate] from the empty one, [get_shortlisted_candidates]
    lists the candidates of the job best first: scores never go up along
    the list, ranks go up strictly, every score is at least 80, and no
    resume is listed twice. This holds for every ordering the engine may
    use for the two ORDER BY clauses. *)
Theorem shortlisted_candidates_best_first (calls : list Call) (db : DB) (j : string) :
  rankings db = replay order calls [] ->
  StronglySorted
    (fun a b => Scheduler.cand_match_score b <= Scheduler.cand_match_score a)
    (Scheduler.get_shortlisted_candidates resume_email order_by_rank_asc db j)
  /\ StronglySorted
       (fun a b => exists m n, Scheduler.cand_rank a = Some m
                               /\ Scheduler.cand_rank b = Some n /\ (m < n)%nat)
       (Scheduler.get_shortlisted_candidates resume_email order_by_rank_asc db j)
  /\ Forall (fun c => 80 <= Scheduler.cand_match_score c)
       (Scheduler.get_shortlisted_candidates resume_email order_by_rank_asc db j)
  /\ NoDup (map Scheduler.cand_resume_id
              (Scheduler.get_shortlisted_candidates resume_email order_by_rank_asc db j)).
Proof.
  intros Ht.
  assert (Hdense : dense_ranking (where_job j (rankings db))).
  { rewrite Ht. apply (replay_keeps_dense order order_perm order_sorted calls []);
      [constructor|]. intros j'. split; [reflexivity|]. intros a b m n []. }
  assert (Hflags : Forall (fun row => shortlisted row = bool_decide (80 <= match_score row))
                     (rankings db)).
  { rewrite Ht. apply replay_flags. constructor. }
  assert (Hpairs : NoDup (map pair_of (rankings db))).
  { rewrite Ht. apply replay_pairs. constructor. }
  set (rows := Scheduler.shortlisted_rows db j).
  assert (Hsub : sublist rows (where_job j (rankings db))).
  { unfold rows, Scheduler.shortlisted_rows, where_job. apply filter_filter_sublist.
    intros x Hx. now apply andb_prop in Hx as [Hx _]. }
  assert (Hsub' : sublist rows (rankings db)).
  { etransitivity; [exact Hsub|]. apply filter_sublist. }
  assert (Hranks : NoDup (map rank (order_by_rank_asc rows))).
  { rewrite (rank_order_perm rows).
    eapply sublist_NoDup; [|exact (fmap_sublist rank _ _ Hsub)].
    destruct Hdense as [Hperm _]. change (rank <$> where_job j (rankings db))
      with (map rank (where_job j (rankings db))). rewrite Hperm.
    apply NoDup_fmap_2; [intros x y [= ->]; reflexivity|]. apply NoDup_ListNoDup, seq_NoDup. }
  assert (Hin : forall row, In row (order_by_rank_asc rows) ->
                            In row (where_job j (rankings db))
                            /\ job_id row = j /\ shortlisted row = true).
  { intros row Hrow. apply (shortlisted_rows_spec db j).
    eapply Permutation_in; [apply rank_order_perm|exact Hrow]. }
  pose proof (rank_order_is_score_order (where_job j (rankings db))
                (order_by_rank_asc rows) Hdense (fun row H => proj1 (Hin row H))
                Hranks (rank_order_sorted rows)) as Hsorted.
  unfold Scheduler.get_shortlisted_candidates. fold rows.
  split; [|split; [|split]].
  - eapply StronglySorted_fmap; [|exact Hsorted]. now intros x y [Hxy _].
  - eapply StronglySorted_fmap; [|exact Hsorted]. now intros x y [_ Hxy].
  - apply Forall_forall. intros c Hc. apply list_elem_of_In, in_map_iff in Hc as (row & <- & Hrow).
    destruct (Hin row Hrow) as (Hw & _ & Hs). simpl.
    unfold where_job in Hw. apply filter_In in Hw as [Hw _].
    rewrite Forall_forall in Hflags. apply list_elem_of_In in Hw.
    rewrite (Hflags row Hw) in Hs. now apply bool_decide_eq_true in Hs.
  - rewrite map_map. simpl.
    assert (Hnd : NoDup (map pair_of (order_by_rank_asc rows))).
    { rewrite (rank_order_perm rows).
      eapply sublist_NoDup; [exact Hpairs|exact (fmap_sublist pair_of _ _ Hsub')]. }
    assert (Heq : map pair_of (order_by_rank_asc rows)
                  = map (fun r => (r, j)) (map resume_id (order_by_rank_asc rows))).
    { rewrite map_map. apply map_ext_in. intros row Hrow.
      destruct (Hin row Hrow) as (_ & Hj & _). unfold pair_of. now rewrite Hj. }
    rewrite Heq in Hnd. exact (NoDup_fmap_1 _ _ Hnd).
Qed.

End SchedulerFacts.

Section SchedulerExamples.
Import Embedding Database Shortlister Examples.
Local Open Scope R_scope.

Lemma rank_le_total (x y : Ranking) :
  Scheduler.rank_le x y = false -> Scheduler.rank_le y x = true.
Proof.
  unfold Scheduler.rank_le. destruct (rank x) as [m|], (rank y) as [n|]; try easy.
  intros H. apply bool_decide_eq_false in H. apply bool_decide_eq_true. lia.
Qed.

Lemma rank_le_trans (x y z : Ranking) :
  Scheduler.rank_le x y = true -> Scheduler.rank_le y z = true ->
  Scheduler.rank_le x z = true.
Proof.
  unfold Scheduler.rank_le.
  destruct (rank x) as [m|], (rank y) as [n|], (rank z) as [k|]; try easy.
  intros H1 H2. apply bool_decide_eq_true in H1, H2. apply bool_decide_eq_true. lia.
Qed.

Lemma stable_rank_order_perm (rows : list Ranking) :
  Permutation (Scheduler.stable_order_by_rank_asc rows) rows.
Proof. apply sort_by_perm. Qed.

Lemma stable_rank_order_sorted (rows : list Ranking) :
  StronglySorted (fun a b => Scheduler.rank_le a b = true)
    (Scheduler.stable_order_by_rank_asc rows).
Proof. exact (sort_by_sorted Scheduler.rank_le rank_le_total rank_le_trans rows). Qed.

(** The statement of [shortlisted_candidates_best_first] for the two stable
    orderings and the database left by the call that scores "R1" for "J1"
    with 96. *)
Lemma shortlisted_candidates_best_first_witness :
  StronglySorted
    (fun a b => Scheduler.cand_match_score b <= Scheduler.cand_match_score a)
    (Scheduler.get_shortlisted_candidates sample_email Scheduler.stable_order_by_rank_asc
       db1_scored "J1")
  /\ StronglySorted
       (fun a b => exists m n, Scheduler.cand_rank a = Some m
                               /\ Scheduler.cand_rank b = Some n /\ (m < n)%nat)
       (Scheduler.get_shortlisted_candidates sample_email Scheduler.stable_order_by_rank_asc
          db1_scored "J1")
  /\ Forall (fun c => 80 <= Scheduler.cand_match_score c)
       (Scheduler.get_shortlisted_candidates sample_email Scheduler.stable_order_by_rank_asc
          db1_scored "J1")
  /\ NoDup (map Scheduler.cand_resume_id
              (Scheduler.get_shortlisted_candidates sample_email
                 Scheduler.stable_order_by_rank_asc db1_scored "J1")).
Proof.
  apply (shortlisted_candidates_best_first stable_order_by_score_desc stable_order_perm
           stable_order_sorted Scheduler.stable_order_by_rank_asc stable_rank_order_perm
           stable_rank_order_sorted sample_email [call_db1] db1_scored "J1").
  reflexivity.
Defined.

End SchedulerExamples.

(** ** Scheduling interviews *)

Section InterviewFacts.
Import Database Email Scheduler.

Variable resume_email : string -> string.
Variable order_by_rank_asc : list Ranking -> list Ranking.
Variable isoformat : Z -> string.
Variable new_id : list Interview -> Z.
Variable smtp_of : nat -> bool.
Variable fault_of : nat -> option nat.

Lemma add_minutes_slot (start d : Z) (k : nat) (t : Z) :
  add_minutes (slot start d k) d = Some t -> t = slot start d (S k).
Proof.
  unfold add_minutes, slot. case_bool_decide; intros [= <-]. lia.
Qed.

Lemma slot_0 (start d : Z) : slot start d 0 = start.
Proof. unfold slot. lia. Qed.

Lemma send_email_credentials (self : EmailService) (smtp : bool) :
  send_email self smtp = true ->
  smtp = true /\ smtp_username self <> "" /\ smtp_password self <> "".
Proof.
  unfold send_email.
  destruct (bool_decide (smtp_username self = "")) eqn:Hu; [discriminate|].
  destruct (bool_decide (smtp_password self = "")) eqn:Hp; [discriminate|].
  apply bool_decide_eq_false in Hu, Hp. simpl. now intros ->.
Qed.

(** What one invitation does: nothing, a mail alone, or a mail and a row. *)
Lemma send_interview_invitation_cases (self : EmailService) (smtp : bool)
    (fault : option nat) (interviews : list Interview) (jd : JobDetails)
    (c : Candidate) (t : Z) (j : string) :
  let res := send_interview_invitation isoformat new_id self smtp fault interviews
               (cand_email c) (cand_name c) (details_job_title jd) (details_company jd)
               t j (cand_resume_id c) in
  (res = (false, interviews, []))
  \/ (res = (false, interviews, [mail_of jd (c, t)])
      /\ smtp_username self <> "" /\ smtp_password self <> "")
  \/ (exists row, res = (true, interviews ++ [row], [mail_of jd (c, t)])
                  /\ records isoformat j row (c, t)
                  /\ smtp_username self <> "" /\ smtp_password self <> "").
Proof.
  cbv zeta. unfold send_interview_invitation.
  destruct (send_email self smtp) eqn:Hsend; [|now left].
  apply send_email_credentials in Hsend as (_ & Hu & Hp).
  destruct (Shortlister.fault_within fault 0 3).
  - right; left. now repeat split.
  - right; right. eexists. split; [reflexivity|]. now repeat split.
Qed.

(** The invariant of the loop of [schedule_interviews]. *)
Lemma invite_all_inv (self : EmailService) (jd : JobDetails) (j : string) (start d : Z)
    (cands : list Candidate) :
  forall (k count : nat) (rows : list Interview) (sent : list Mail),
  exists (invited stored : list (Candidate * Z)) (added : list Interview),
    sublist stored invited
    /\ sublist invited (imap (fun i c => (c, slot start d (k + i))) cands)
    /\ interviews_after
         (invite_all isoformat new_id smtp_of fault_of self jd j d cands k
            (slot start d k) count rows sent) = rows ++ added
    /\ mails
         (invite_all isoformat new_id smtp_of fault_of self jd j d cands k
            (slot start d k) count rows sent) = sent ++ map (mail_of jd) invited
    /\ Forall2 (records isoformat j) added stored
    /\ (forall r,
          answer
            (invite_all isoformat new_id smtp_of fault_of self jd j d cands k
               (slot start d k) count rows sent) = Some r ->
          r = {| success := true; scheduled := count + length added |})
    /\ (smtp_username self = "" \/ smtp_password self = "" -> invited = []).
Proof.
  induction cands as [|c rest IH]; intros k count rows sent.
  - exists [], [], []. simpl. rewrite !app_nil_r, Nat.add_0_r.
    split; [reflexivity|]. split; [reflexivity|]. split; [reflexivity|].
    split; [reflexivity|]. split; [constructor|]. split; [now intros r [= <-]|reflexivity].
  - cbn [invite_all]. rewrite imap_cons.
    replace (k + 0)%nat with k by lia.
    rewrite (imap_ext ((fun i c0 => (c0, slot start d (k + i))) ∘ S)
               (fun i c0 => (c0, slot start d (S k + i))) rest)
      by (intros i x _; simpl; f_equal; f_equal; lia).
    pose proof (send_interview_invitation_cases self (smtp_of k) (fault_of k) rows jd c
                  (slot start d k) j) as Hcases. cbv zeta in Hcases.
    destruct Hcases as [Hres | [(Hres & Hu & Hp) | (row & Hres & Hrec & Hu & Hp)]];
      rewrite Hres; clear Hres.
    + (* no mail *)
      destruct (add_minutes (slot start d k) d) as [t|] eqn:Ht.
      * apply add_minutes_slot in Ht as ->. rewrite app_nil_r.
        destruct (IH (S k) count rows sent) as
          (invited & stored & added & H1 & H2 & H3 & H4 & H5 & H6 & H7).
        exists invited, stored, added. rewrite H3, H4.
        repeat split; try assumption. now apply sublist_cons.
      * exists [], [], []. cbn [interviews_after mails answer].
        split; [reflexivity|]. split; [apply sublist_nil_l|].
        split; [now rewrite app_nil_r|]. split; [reflexivity|].
        split; [constructor|]. split; [discriminate|reflexivity].
    + (* a mail, no row *)
      destruct (add_minutes (slot start d k) d) as [t|] eqn:Ht.
      * apply add_minutes_slot in Ht as ->.
        destruct (IH (S k) count rows (sent ++ [mail_of jd (c, slot start d k)])) as
          (invited & stored & added & H1 & H2 & H3 & H4 & H5 & H6 & H7).
        exists ((c, slot start d k) :: invited), stored, added. rewrite H3, H4.
        repeat split; try assumption.
        -- now apply sublist_cons.
        -- now apply sublist_skip.
        -- now rewrite <- app_assoc.
        -- intros [Hno | Hno]; contradiction.
      * exists [(c, slot start d k)], [], []. cbn [interviews_after mails answer].
        split; [apply sublist_nil_l|]. split; [apply sublist_skip, sublist_nil_l|].
        split; [now rewrite app_nil_r|]. split; [reflexivity|].
        split; [constructor|]. split; [discriminate|].
        intros [Hno | Hno]; contradiction.
    + (* a mail and a row *)
      destruct (add_minutes (slot start d k) d) as [t|] eqn:Ht.
      * apply add_minutes_slot in Ht as ->.
        destruct (IH (S k) (S count) (rows ++ [row])
                    (sent ++ [mail_of jd (c, slot start d k)])) as
          (invited & stored & added & H1 & H2 & H3 & H4 & H5 & H6 & H7).
        exists ((c, slot start d k) :: invited), ((c, slot start d k) :: stored),
          (row :: added). rewrite H3, H4.
        repeat split; try assumption.
        -- now apply sublist_skip.
        -- now apply sublist_skip.
        -- now rewrite <- app_assoc.
        -- now rewrite <- app_assoc.
        -- now constructor.
        -- intros r Hr. rewrite (H6 r Hr). simpl. f_equal. lia.
        -- intros [Hno | Hno]; contradiction.
      * exists [(c, slot start d k)], [(c, slot start d k)], [row].
        cbn [interviews_after mails answer].
        split; [reflexivity|]. split; [apply sublist_skip, sublist_nil_l|].
        split; [reflexivity|]. split; [reflexivity|].
        split; [constructor; [exact Hrec|constructor]|]. split; [discriminate|].
        intros [Hno | Hno]; contradiction.
Qed.

(** X19: [schedule_interviews] only appends to the interviews table; the
    rows it appends are for the job asked for, in status "scheduled" and
    without notes; the number it reports as "scheduled" is the number of
    rows appended, which is at most the number of mails that went out,
    which is at most the number of shortlisted candidates; and an answer
    with "success" false means that nothing was sent or written. The
    accounting of rows and mails also holds when OverflowError ends the
    call. *)
Theorem schedule_interviews_accounting (self : EmailService) (db : DB)
    (interviews : list Interview) (j : string) (start d : Z) :
  exists added,
    interviews_after
      (schedule_interviews resume_email order_by_rank_asc isoformat new_id smtp_of
         fault_of self db interviews j start d) = interviews ++ added
    /\ Forall (fun i => i_job_id i = j /\ status i = Some "scheduled" /\ notes i = None)
         added
    /\ (length added
        <= length (mails (schedule_interviews resume_email order_by_rank_asc isoformat
                            new_id smtp_of fault_of self db interviews j start d)))%nat
    /\ (length (mails (schedule_interviews resume_email order_by_rank_asc isoformat
                         new_id smtp_of fault_of self db interviews j start d))
        <= length (get_shortlisted_candidates resume_email order_by_rank_asc db j))%nat
    /\ (forall r,
          answer (schedule_interviews resume_email order_by_rank_asc isoformat new_id
                    smtp_of fault_of self db interviews j start d) = Some r ->
          scheduled r = length added
          /\ (success r = false ->
              added = []
              /\ mails (schedule_interviews resume_email order_by_rank_asc isoformat
                          new_id smtp_of fault_of self db interviews j start d) = [])).
Proof.
  unfold schedule_interviews. cbv zeta.
  destruct (get_shortlisted_candidates resume_email order_by_rank_asc db j)
    as [|c cands] eqn:Hc.
  { exists []. cbn [interviews_after mails answer]. rewrite app_nil_r.
    split; [reflexivity|]. split; [constructor|]. split; [simpl; lia|].
    split; [simpl; lia|]. now intros r [= <-]. }
  destruct (get_job_details db j) as [jd|] eqn:Hjd.
  2:{ exists []. cbn [interviews_after mails answer]. rewrite app_nil_r.
      split; [reflexivity|]. split; [constructor|]. split; [simpl; lia|].
      split; [simpl; lia|]. now intros r [= <-]. }
  destruct (invite_all_inv self jd j start d (c :: cands) 0 0 interviews [])
    as (invited & stored & added & H1 & H2 & H3 & H4 & H5 & H6 & _).
  rewrite slot_0 in H3, H4, H6. exists added. rewrite H3, H4, app_nil_l, length_map.
  apply sublist_length in H1, H2. rewrite length_imap in H2.
  pose proof (Forall2_length _ _ _ H5) as Hlen.
  split; [reflexivity|]. split; [|split; [lia|split; [lia|]]].
  - clear -H5. induction H5 as [|i s added stored (_ & Hj & _ & Hs & Hn) _ IH];
      constructor; [now repeat split|exact IH].
  - intros r Hr. rewrite (H6 r Hr). cbn [scheduled success]. split; [lia|discriminate].
Qed.

(** X20: the candidate number [k] of the list (from 0) is invited for
    [start + k * interview_duration] minutes, whatever became of the
    invitations before: the mails that went out are, in order, invitations
    of some of the candidates each at the time of their own place in the
    list, and the rows appended record, in order, some of these
    invitations. *)
Theorem schedule_interviews_slots (self : EmailService) (db : DB)
    (interviews : list Interview) (j : string) (start d : Z) (jd : JobDetails) :
  get_job_details db j = Some jd ->
  exists invited stored,
    sublist stored invited
    /\ sublist invited
         (slots start d (get_shortlisted_candidates resume_email order_by_rank_asc db j))
    /\ mails (schedule_interviews resume_email order_by_rank_asc isoformat new_id
                smtp_of fault_of self db interviews j start d)
       = map (mail_of jd) invited
    /\ Forall2 (records isoformat j)
         (drop (length interviews)
            (interviews_after
               (schedule_interviews resume_email order_by_rank_asc isoformat new_id
                  smtp_of fault_of self db interviews j start d)))
         stored.
Proof.
  intros Hjd. unfold schedule_interviews. cbv zeta. rewrite Hjd.
  destruct (get_shortlisted_candidates resume_email order_by_rank_asc db j)
    as [|c cands] eqn:Hc.
  { exists [], []. cbn [interviews_after mails]. rewrite drop_all.
    split; [reflexivity|]. split; [reflexivity|]. split; [reflexivity|constructor]. }
  destruct (invite_all_inv self jd j start d (c :: cands) 0 0 interviews [])
    as (invited & stored & added & H1 & H2 & H3 & H4 & H5 & _).
  rewrite slot_0 in H3, H4. exists invited, stored. rewrite H3, H4, drop_app_length.
  split; [exact H1|]. split; [exact H2|]. split; [reflexivity|exact H5].
Qed.

(** X21: a service without SMTP user name or password sends nothing and
    writes nothing, and yet [schedule_interviews] answers with "success"
    true (and 0 scheduled) whenever the job exists and has shortlisted
    candidates. *)
Theorem schedule_without_credentials (self : EmailService) (db : DB)
    (interviews : list Interview) (j : string) (start d : Z) :
  smtp_username self = "" \/ smtp_password self = "" ->
  mails (schedule_interviews resume_email order_by_rank_asc isoformat new_id
           smtp_of fault_of self db interviews j start d) = []
  /\ interviews_after
       (schedule_interviews resume_email order_by_rank_asc isoformat new_id
          smtp_of fault_of self db interviews j start d) = interviews
  /\ forall r,
       answer (schedule_interviews resume_email order_by_rank_asc isoformat new_id
                 smtp_of fault_of self db interviews j start d) = Some r ->
       scheduled r = 0%nat
       /\ (success r = true <->
           get_shortlisted_candidates resume_email order_by_rank_asc db j <> []
           /\ is_Some (get_job_details db j)).
Proof.
  intros Hno. unfold schedule_interviews. cbv zeta.
  destruct (get_shortlisted_candidates resume_email order_by_rank_asc db j)
    as [|c cands] eqn:Hc.
  { cbn [interviews_after mails answer]. split; [reflexivity|]. split; [reflexivity|].
    intros r [= <-]. cbn [scheduled success]. split; [reflexivity|].
    split; [discriminate|]. now intros [? _]. }
  destruct (get_job_details db j) as [jd|] eqn:Hjd.
  2:{ cbn [interviews_after mails answer]. split; [reflexivity|]. split; [reflexivity|].
      intros r [= <-]. cbn [scheduled success]. split; [reflexivity|].
      split; [discriminate|]. intros [_ [x Hx]]. discriminate. }
  destruct (invite_all_inv self jd j start d (c :: cands) 0 0 interviews [])
    as (invited & stored & added & H1 & H2 & H3 & H4 & H5 & H6 & H7).
  rewrite slot_0 in H3, H4, H6. rewrite (H7 Hno) in *.
  apply sublist_nil_r in H1 as ->. apply Forall2_nil_inv_r in H5 as ->.
  rewrite H3, H4. cbn [map app]. rewrite app_nil_r.
  split; [reflexivity|]. split; [reflexivity|].
  intros r Hr. rewrite (H6 r Hr). simpl length. cbn [scheduled success]. split; [reflexivity|].
  split; [|reflexivity]. intros _. split; [discriminate|now exists jd].
Qed.

Lemma slot_between (start d : Z) (k n : nat) :
  (k <= n)%nat ->
  (0 <= start <= datetime_max)%Z ->
  (0 <= slot start d n <= datetime_max)%Z ->
  (0 <= slot start d k <= datetime_max)%Z.
Proof.
  unfold slot. intros Hk Hs Hn.
  destruct (Z_le_gt_dec 0 (d * 60000000)) as [Hd|Hd]; nia.
Qed.

Lemma invite_all_returns (self : EmailService) (jd : JobDetails) (j : string)
    (start d : Z) (cands : list Candidate) :
  forall (k count : nat) (rows : list Interview) (sent : list Mail),
    (forall i, (k < i <= k + length cands)%nat ->
               (0 <= slot start d i <= datetime_max)%Z) ->
    is_Some (answer (invite_all isoformat new_id smtp_of fault_of self jd j d cands k
                       (slot start d k) count rows sent)).
Proof.
  induction cands as [|c rest IH]; intros k count rows sent Hrange.
  - now eexists.
  - cbn [invite_all].
    destruct (send_interview_invitation isoformat new_id self (smtp_of k) (fault_of k) rows
                (cand_email c) (cand_name c) (details_job_title jd) (details_company jd)
                (slot start d k) j (cand_resume_id c)) as [[ok rows'] ms].
    assert (Hnext : add_minutes (slot start d k) d = Some (slot start d (S k))).
    { unfold add_minutes.
      replace (slot start d k + d * 60000000)%Z with (slot start d (S k))
        by (unfold slot; lia).
      rewrite bool_decide_eq_true_2; [reflexivity|]. apply Hrange. simpl. lia. }
    rewrite Hnext. apply IH. intros i Hi. apply Hrange. simpl. lia.
Qed.

(** X22: [schedule_interviews] returns its dict when the start date and
    the time one slot past the last candidate are both dates that
    [datetime] can hold, when the duration is negative as well; the
    OverflowError of [current_time += timedelta(...)] can come from nowhere
    else. *)
Theorem schedule_interviews_returns (self : EmailService) (db : DB)
    (interviews : list Interview) (j : string) (start d : Z) :
  (0 <= start <= datetime_max)%Z ->
  (0 <= slot start d
          (length (get_shortlisted_candidates resume_email order_by_rank_asc db j))
   <= datetime_max)%Z ->
  is_Some (answer (schedule_interviews resume_email order_by_rank_asc isoformat new_id
                     smtp_of fault_of self db interviews j start d)).
Proof.
  intros Hstart Hend. unfold schedule_interviews. cbv zeta.
  destruct (get_shortlisted_candidates resume_email order_by_rank_asc db j)
    as [|c cands] eqn:Hc; [now eexists|].
  destruct (get_job_details db j) as [jd|]; [|now eexists].
  rewrite <- (slot_0 start d) at 1.
  apply invite_all_returns. intros i Hi.
  apply (slot_between start d i (length (c :: cands))); [lia|exact Hstart|exact Hend].
Qed.

End InterviewFacts.

Section InterviewExamples.
Import Database Email Scheduler Examples.

Lemma sample_candidates :
  get_shortlisted_candidates sample_email stable_order_by_rank_asc db1_ranked "J1"
  = [{| cand_resume_id := "R1"; cand_name := "Jane Doe";
        cand_email := "jane@example.org"; cand_match_score := 96;
        cand_rank := Some 1%nat |}].
Proof. reflexivity. Qed.

(** The statement of [schedule_interviews_slots] for the job "J1" of
    [db1_ranked], from the empty table, one hour per interview. *)
Lemma schedule_interviews_slots_witness :
  exists invited stored,
    sublist stored invited
    /\ sublist invited
         (slots 0 60
            (get_shortlisted_candidates sample_email stable_order_by_rank_asc
               db1_ranked "J1"))
    /\ mails (schedule_interviews sample_email stable_order_by_rank_asc sample_isoformat
                count_id smtp_up no_fault mailer db1_ranked [] "J1" 0 60)
       = map (mail_of details_J1) invited
    /\ Forall2 (records sample_isoformat "J1")
         (drop (length (@nil Interview))
            (interviews_after
               (schedule_interviews sample_email stable_order_by_rank_asc
                  sample_isoformat count_id smtp_up no_fault mailer db1_ranked []
                  "J1" 0 60)))
         stored.
Proof.
  apply (schedule_interviews_slots sample_email stable_order_by_rank_asc sample_isoformat
           count_id smtp_up no_fault mailer db1_ranked [] "J1" 0 60 details_J1).
  reflexivity.
Defined.

(** The statement of [schedule_without_credentials] for the service
    without credentials. *)
Lemma schedule_without_credentials_witness :
  mails (schedule_interviews sample_email stable_order_by_rank_asc sample_isoformat
           count_id smtp_up no_fault mailer_anon db1_ranked [] "J1" 0 60) = []
  /\ interviews_after
       (schedule_interviews sample_email stable_order_by_rank_asc sample_isoformat
          count_id smtp_up no_fault mailer_anon db1_ranked [] "J1" 0 60) = []
  /\ forall r,
       answer (schedule_interviews sample_email stable_order_by_rank_asc sample_isoformat
                 count_id smtp_up no_fault mailer_anon db1_ranked [] "J1" 0 60) = Some r ->
       scheduled r = 0%nat
       /\ (success r = true <->
           get_shortlisted_candidates sample_email stable_order_by_rank_asc db1_ranked "J1"
           <> []
           /\ is_Some (get_job_details db1_ranked "J1")).
Proof.
  apply (schedule_without_credentials sample_email stable_order_by_rank_asc
           sample_isoformat count_id smtp_up no_fault mailer_anon db1_ranked [] "J1" 0 60).
  now left.
Defined.

(** The statement of [schedule_interviews_returns] for the same call with
    credentials. *)
Lemma schedule_interviews_returns_witness :
  is_Some (answer (schedule_interviews sample_email stable_order_by_rank_asc
                     sample_isoformat count_id smtp_up no_fault mailer db1_ranked []
                     "J1" 0 60)).
Proof.
  apply (schedule_interviews_returns sample_email stable_order_by_rank_asc
           sample_isoformat count_id smtp_up no_fault mailer db1_ranked [] "J1" 0 60).
  - unfold datetime_max. lia.
  - rewrite sample_candidates. unfold slot, datetime_max. simpl. lia.
Defined.

End InterviewExamples.

(** ** The status of an interview *)

Section StatusFacts.
Import Database Email Scheduler.

Lemma map_untouched {A : Type} (p : A -> bool) (f : A -> A) (l : list A) :
  Forall (fun x => p x = false) l -> map (fun x => if p x then f x else x) l = l.
Proof.
  induction 1 as [|x l Hx _ IH]; simpl; [reflexivity|]. now rewrite Hx, IH.
Qed.

Lemma update_keeps_appointments (fault : option nat) (interviews : list Interview)
    (id : Z) (st : string) (nt : option string) :
  map appointment (update_interview_status fault interviews id st nt).1.2
  = map appointment interviews.
Proof.
  unfold update_interview_status.
  destruct (bool_decide (st ∈ valid_statuses)); [|reflexivity].
  destruct (Shortlister.fault_within fault 0 3); [reflexivity|].
  cbn [fst snd]. rewrite map_map. apply map_ext. intros i.
  now destruct (bool_decide (interview_id i = id)).
Qed.

Lemma update_keeps_status_ok (fault : option nat) (interviews : list Interview)
    (id : Z) (st : string) (nt : option string) :
  Forall status_ok interviews ->
  Forall status_ok (update_interview_status fault interviews id st nt).1.2.
Proof.
  intros Hok. unfold update_interview_status.
  destruct (bool_decide (st ∈ valid_statuses)) eqn:Hst; [|exact Hok].
  apply bool_decide_eq_true in Hst.
  destruct (Shortlister.fault_within fault 0 3); [exact Hok|].
  cbn [fst snd]. induction Hok as [|i l Hi _ IH]; simpl; constructor; [|exact IH].
  destruct (bool_decide (interview_id i = id)); [|exact Hi].
  now exists st.
Qed.

(** X23: [update_interview_status] returns True exactly when the status is
    one of the four and no statement failed; when it returns False the
    table is as before; in every case the rows keep their order, ids,
    resumes, jobs and dates, a row with another id is untouched, and after
    True a row with the id has the new status, and the new notes if notes
    were given and not empty, its old notes if not. *)
Theorem update_interview_status_effect (fault : option nat)
    (interviews : list Interview) (id : Z) (st : string) (nt : option string) :
  ((update_interview_status fault interviews id st nt).1.1 = true
   <-> st ∈ valid_statuses /\ Shortlister.fault_within fault 0 3 = false)
  /\ ((update_interview_status fault interviews id st nt).1.1 = false ->
      (update_interview_status fault interviews id st nt).1.2 = interviews)
  /\ Forall2
       (fun old new =>
          appointment new = appointment old
          /\ (interview_id old <> id -> new = old)
          /\ (interview_id old = id ->
              (update_interview_status fault interviews id st nt).1.1 = true ->
              status new = Some st
              /\ notes new = match given nt with
                             | Some text => Some text
                             | None => notes old
                             end))
       interviews (update_interview_status fault interviews id st nt).1.2.
Proof.
  unfold update_interview_status.
  destruct (bool_decide (st ∈ valid_statuses)) eqn:Hst.
  - apply bool_decide_eq_true in Hst.
    destruct (Shortlister.fault_within fault 0 3); cbn [fst snd].
    + split; [split; [discriminate|now intros [_ ?]]|]. split; [reflexivity|].
      apply Forall2_same_length_lookup_2; [reflexivity|].
      intros k old new Ho Hn. rewrite Ho in Hn. injection Hn as <-.
      split; [reflexivity|]. split; [reflexivity|discriminate].
    + split; [now split|]. split; [discriminate|].
      induction interviews as [|i l IH]; simpl; constructor; [|exact IH].
      destruct (bool_decide (interview_id i = id)) eqn:Hid.
      * apply bool_decide_eq_true in Hid. split; [reflexivity|].
        split; [contradiction|]. intros _ _. split; [reflexivity|].
        unfold set_status, given. simpl. destruct nt as [text|]; [|reflexivity].
        now destruct (bool_decide (text = "")).
      * apply bool_decide_eq_false in Hid. split; [reflexivity|].
        split; [reflexivity|contradiction].
  - apply bool_decide_eq_false in Hst. cbn [fst snd].
    split; [split; [discriminate|now intros [? _]]|]. split; [reflexivity|].
    apply Forall2_same_length_lookup_2; [reflexivity|].
    intros k old new Ho Hn. rewrite Ho in Hn. injection Hn as <-.
    split; [reflexivity|]. split; [reflexivity|discriminate].
Qed.

(** X24: [update_interview_status] answers True also when no interview has
    the id: with a status of the four and no failing statement it returns
    True, prints nothing and leaves the table as it was. *)
Theorem update_of_unknown_id_reports_success (fault : option nat)
    (interviews : list Interview) (id : Z) (st : string) (nt : option string) :
  ~ In id (map interview_id interviews) ->
  st ∈ valid_statuses ->
  Shortlister.fault_within fault 0 3 = false ->
  update_interview_status fault interviews id st nt = (true, interviews, []).
Proof.
  intros Hid Hst Hf. unfold update_interview_status.
  rewrite bool_decide_eq_true_2 by exact Hst. rewrite Hf. f_equal. f_equal.
  apply (map_untouched (fun i => bool_decide (interview_id i = id))).
  apply Forall_forall. intros i Hi. apply bool_decide_eq_false. intros Heq.
  apply Hid. rewrite <- Heq. apply in_map. now apply list_elem_of_In.
Qed.

End StatusFacts.

Section StatusExamples.
Import Database Email Scheduler Examples.

(** The statement of [update_of_unknown_id_reports_success] for the id 7 on
    a table whose only row has the id 1. *)
Lemma update_of_unknown_id_reports_success_witness :
  update_interview_status None interviews1 7 "completed" (Some "went well")
  = (true, interviews1, []).
Proof.
  apply (update_of_unknown_id_reports_success None interviews1 7 "completed"
           (Some "went well")).
  - simpl. intros [H|[]]. discriminate.
  - unfold valid_statuses. set_solver.
  - reflexivity.
Defined.

End StatusExamples.

(** ** The interviews table over time *)

Section HistoryFacts.
Import Database Email Scheduler.

Variable resume_email : string -> string.
Variable order_by_rank_asc : list Ranking -> list Ranking.
Variable isoformat : Z -> string.
Variable new_id : list Interview -> Z.

Lemma schedule_interviews_appends (smtp_of : nat -> bool) (fault_of : nat -> option nat)
    (self : EmailService) (db : DB) (interviews : list Interview) (j : string)
    (start d : Z) :
  exists added,
    interviews_after
      (schedule_interviews resume_email order_by_rank_asc isoformat new_id smtp_of
         fault_of self db interviews j start d) = interviews ++ added
    /\ Forall (fun i => status i = Some "scheduled") added.
Proof.
  unfold schedule_interviews. cbv zeta.
  destruct (get_shortlisted_candidates resume_email order_by_rank_asc db j)
    as [|c cands] eqn:Hc.
  { exists []. cbn [interviews_after]. now rewrite app_nil_r. }
  destruct (get_job_details db j) as [jd|] eqn:Hjd.
  2:{ exists []. cbn [interviews_after]. now rewrite app_nil_r. }
  destruct (invite_all_inv isoformat new_id smtp_of fault_of self jd j start d
              (c :: cands) 0 0 interviews [])
    as (invited & stored & added & _ & _ & H3 & _ & H5 & _).
  rewrite slot_0 in H3. exists added. split; [exact H3|].
  clear -H5. induction H5 as [|i s added stored (_ & _ & _ & Hs & _) _ IH];
    constructor; [exact Hs|exact IH].
Qed.

Lemma apply_op_grows (t : list Interview) (op : Op) :
  exists more,
    map appointment (apply_op resume_email order_by_rank_asc isoformat new_id t op)
    = map appointment t ++ more.
Proof.
  destruct op as [smtp_of fault_of self db j start d | fault id st nt]; cbn [apply_op].
  - destruct (schedule_interviews_appends smtp_of fault_of self db t j start d)
      as (added & -> & _).
    exists (map appointment added). apply map_app.
  - exists []. rewrite app_nil_r. apply update_keeps_appointments.
Qed.

Lemma apply_op_status_ok (t : list Interview) (op : Op) :
  Forall status_ok t ->
  Forall status_ok (apply_op resume_email order_by_rank_asc isoformat new_id t op).
Proof.
  intros Hok.
  destruct op as [smtp_of fault_of self db j start d | fault id st nt]; cbn [apply_op].
  - destruct (schedule_interviews_appends smtp_of fault_of self db t j start d)
      as (added & -> & Hadded).
    apply Forall_app. split; [exact Hok|].
    eapply Forall_impl; [exact Hadded|]. intros i Hi. exists "scheduled".
    split; [exact Hi|]. unfold valid_statuses. set_solver.
  - now apply update_keeps_status_ok.
Qed.

(** X25: after any sequence of calls of [schedule_interviews] and
    [update_interview_status] from the empty table, whatever fails on the
    way, every interview has a status, and one of the four that the CHECK
    constraint of the table allows. *)
Theorem statuses_stay_valid (ops : list Op) :
  Forall status_ok (history resume_email order_by_rank_asc isoformat new_id ops).
Proof.
  unfold history.
  assert (H : forall t, Forall status_ok t ->
                        Forall status_ok
                          (fold_left
                             (apply_op resume_email order_by_rank_asc isoformat new_id)
                             ops t)).
  { induction ops as [|op ops IH]; intros t Ht; simpl; [exact Ht|].
    apply IH. now apply apply_op_status_ok. }
  apply H. constructor.
Qed.

(** X26: no call of [schedule_interviews] or [update_interview_status]
    removes, moves or re-dates an interview: the ids, resumes, jobs and
    dates of the rows after a sequence of calls are, in order, the first
    rows after any longer sequence. *)
Theorem interviews_are_never_removed (ops more : list Op) :
  exists later,
    map appointment (history resume_email order_by_rank_asc isoformat new_id (ops ++ more))
    = map appointment (history resume_email order_by_rank_asc isoformat new_id ops)
      ++ later.
Proof.
  unfold history. rewrite fold_left_app.
  generalize (fold_left (apply_op resume_email order_by_rank_asc isoformat new_id) ops []).
  induction more as [|op more IH]; intros t; simpl.
  - exists []. now rewrite app_nil_r.
  - destruct (apply_op_grows t op) as [k1 Hk1].
    destruct (IH (apply_op resume_email order_by_rank_asc isoformat new_id t op))
      as [k2 Hk2].
    exists (k1 ++ k2). now rewrite Hk2, Hk1, app_assoc.
Qed.

End HistoryFacts.

(** ** Reading the schedule back *)

Section ListingFacts.
Import Database Email Scheduler.

Variable resume_email : string -> string.
Variable fromisoformat : string -> option Z.
Variable order_by_date_asc : list Interview -> list Interview.
Hypothesis date_order_perm : forall rows, Permutation (order_by_date_asc rows) rows.

Lemma filter_all {A : Type} (p : A -> bool) (l : list A) :
  Forall (fun x => p x = true) l -> List.filter p l = l.
Proof.
  induction 1 as [|x l Hx _ IH]; simpl; [reflexivity|]. now rewrite Hx, IH.
Qed.

Lemma mapM_Forall {A B : Type} (f : A -> option B) (Q : B -> Prop) (l : list A) :
  Forall (fun x => exists y, f x = Some y /\ Q y) l ->
  exists k, mapM f l = Some k /\ length k = length l /\ Forall Q k.
Proof.
  induction 1 as [|x l (y & Hy & HQ) _ (k & Hk & Hlen & HQk)].
  - exists []. now repeat split.
  - exists (y :: k). simpl. rewrite Hy, Hk. simpl.
    split; [reflexivity|]. split; [now rewrite Hlen|now constructor].
Qed.

(** X27: [get_interview_schedule] answers with the empty list as soon as
    one of the interviews it selects carries a date text that
    [datetime.fromisoformat] rejects, however many others it selects. *)
Theorem one_bad_date_empties_the_schedule (db : DB) (interviews : list Interview)
    (j_id r_id : option string) (i : Interview) (text : string) :
  In i (selected_interviews db interviews j_id r_id) ->
  interview_date i = Some text ->
  text <> "" ->
  fromisoformat text = None ->
  get_interview_schedule resume_email fromisoformat order_by_date_asc db interviews
    j_id r_id = [].
Proof.
  intros Hin Hdate Htext Hparse. unfold get_interview_schedule.
  rewrite mapM_None_2; [reflexivity|].
  apply Exists_exists. exists i. split.
  - apply list_elem_of_In. eapply Permutation_in; [|exact Hin].
    symmetry. apply date_order_perm.
  - unfold entry_of. rewrite Hdate.
    rewrite bool_decide_eq_false_2 by exact Htext. now rewrite Hparse.
Qed.

Variable order_by_rank_asc : list Ranking -> list Ranking.
Hypothesis rank_order_perm : forall rows, Permutation (order_by_rank_asc rows) rows.
Variable isoformat : Z -> string.
Variable new_id : list Interview -> Z.
Variable smtp_of : nat -> bool.
Variable fault_of : nat -> option nat.

Lemma candidate_has_resume (db : DB) (j : string) (c : Candidate) :
  In c (get_shortlisted_candidates resume_email order_by_rank_asc db j) ->
  is_Some (resumes db !! cand_resume_id c)
  /\ cand_name c = from_option name "" (resumes db !! cand_resume_id c)
  /\ cand_email c = resume_email (cand_resume_id c).
Proof.
  unfold get_shortlisted_candidates. intros Hc.
  apply in_map_iff in Hc as (rk & <- & Hrk). simpl.
  split; [|now split].
  apply (Permutation_in _ (rank_order_perm _)) in Hrk.
  unfold shortlisted_rows in Hrk. apply filter_In in Hrk as [Hrk _].
  apply filter_In in Hrk as [_ Hrk]. now apply bool_decide_eq_true in Hrk.
Qed.

(** X28: the interviews that [schedule_interviews] writes into an empty
    table are all read back by [get_interview_schedule] for the same job:
    as many entries as rows (the number reported as scheduled), each for
    that job, in status "scheduled", carrying the id, name and email of a
    shortlisted candidate and, as a datetime, the time of that candidate's
    place in the list. This needs [fromisoformat] to read back what
    [isoformat] wrote for these times, as a text that is not empty. *)
Theorem scheduled_interviews_are_listed (self : EmailService) (db : DB) (j : string)
    (start d : Z) :
  (forall k,
      (k < length (get_shortlisted_candidates resume_email order_by_rank_asc db j))%nat ->
      isoformat (slot start d k) <> ""
      /\ fromisoformat (isoformat (slot start d k)) = Some (slot start d k)) ->
  length (get_interview_schedule resume_email fromisoformat order_by_date_asc db
            (interviews_after
               (schedule_interviews resume_email order_by_rank_asc isoformat new_id
                  smtp_of fault_of self db [] j start d))
            (Some j) None)
  = length (interviews_after
              (schedule_interviews resume_email order_by_rank_asc isoformat new_id
                 smtp_of fault_of self db [] j start d))
  /\ (forall r,
        answer (schedule_interviews resume_email order_by_rank_asc isoformat new_id
                  smtp_of fault_of self db [] j start d) = Some r ->
        length (get_interview_schedule resume_email fromisoformat order_by_date_asc db
                  (interviews_after
                     (schedule_interviews resume_email order_by_rank_asc isoformat new_id
                        smtp_of fault_of self db [] j start d))
                  (Some j) None)
        = scheduled r)
  /\ Forall
       (fun e =>
          e_job_id e = j
          /\ e_status e = Some "scheduled"
          /\ exists k c,
               get_shortlisted_candidates resume_email order_by_rank_asc db j !! k = Some c
               /\ e_resume_id e = cand_resume_id c
               /\ e_candidate_name e = cand_name c
               /\ e_candidate_email e = cand_email c
               /\ e_interview_date e = Parsed (slot start d k))
       (get_interview_schedule resume_email fromisoformat order_by_date_asc db
          (interviews_after
             (schedule_interviews resume_email order_by_rank_asc isoformat new_id
                smtp_of fault_of self db [] j start d))
          (Some j) None).
Proof.
  intros Hround.
  assert (Hempty : get_interview_schedule resume_email fromisoformat order_by_date_asc db
                     [] (Some j) None = []).
  { unfold get_interview_schedule, selected_interviews. simpl.
    now rewrite (Permutation_nil (Permutation_sym (date_order_perm []))). }
  unfold schedule_interviews. cbv zeta.
  destruct (get_shortlisted_candidates resume_email order_by_rank_asc db j)
    as [|c0 cands0] eqn:Hc.
  { cbn [interviews_after answer]. rewrite Hempty.
    split; [reflexivity|]. split; [now intros r [= <-]|constructor]. }
  destruct (get_job_details db j) as [jd|] eqn:Hjd.
  2:{ cbn [interviews_after answer]. rewrite Hempty.
      split; [reflexivity|]. split; [now intros r [= <-]|constructor]. }
  destruct (invite_all_inv isoformat new_id smtp_of fault_of self jd j start d
              (c0 :: cands0) 0 0 [] [])
    as (invited & stored & added & H1 & H2 & H3 & _ & H5 & H6 & _).
  rewrite slot_0 in H3, H6. rewrite H3, app_nil_l. rewrite <- Hc in *.
  set (cands := get_shortlisted_candidates resume_email order_by_rank_asc db j) in *.
  assert (Hjob : is_Some (job_descriptions db !! j)).
  { unfold get_job_details in Hjd. destruct (job_descriptions db !! j); [now eexists|].
    discriminate. }
  (* every row written records a candidate at the time of their place *)
  assert (Hrows : Forall (fun i => exists k c, cands !! k = Some c
                                               /\ records isoformat j i (c, slot start d k))
                    added).
  { assert (Hst : Forall (fun s => exists k c, cands !! k = Some c
                                               /\ s = (c, slot start d k)) stored).
    { apply Forall_forall. intros s Hs.
      assert (Hs' : s ∈ imap (fun i c => (c, slot start d (0 + i))) cands).
      { eapply elem_of_sublist; [|exact H2]. eapply elem_of_sublist; [exact Hs|exact H1]. }
      apply elem_of_lookup_imap_1 in Hs' as (k & c & -> & Hk). now exists k, c. }
    clear -H5 Hst. induction H5 as [|i s added stored Hrec _ IH]; [constructor|].
    apply Forall_cons in Hst as [(k & c & Hk & ->) Hst].
    constructor; [now exists k, c|now apply IH]. }
  (* so the JOINs and the WHERE clause keep them all *)
  assert (Hsel : selected_interviews db added (Some j) None = added).
  { unfold selected_interviews. apply filter_all.
    eapply Forall_impl; [exact Hrows|]. intros i (k & c & Hk & Hr & Hj & _). simpl in Hr.
    assert (Hin : In c cands) by (apply list_elem_of_In; eapply list_elem_of_lookup_2; exact Hk).
    destruct (candidate_has_resume db j c Hin) as (Hres & _).
    rewrite Hr, Hj. rewrite !bool_decide_eq_true_2 by assumption. simpl.
    unfold given. destruct (bool_decide (j = "")); [reflexivity|].
    now rewrite bool_decide_eq_true_2. }
  (* and every one of them is converted *)
  assert (Hconv : Forall
                    (fun i => exists e,
                       entry_of resume_email fromisoformat db i = Some e
                       /\ (e_job_id e = j
                           /\ e_status e = Some "scheduled"
                           /\ exists k c,
                                cands !! k = Some c
                                /\ e_resume_id e = cand_resume_id c
                                /\ e_candidate_name e = cand_name c
                                /\ e_candidate_email e = cand_email c
                                /\ e_interview_date e = Parsed (slot start d k)))
                    (order_by_date_asc added)).
  { rewrite (date_order_perm added).
    eapply Forall_impl; [exact Hrows|].
    intros i (k & c & Hk & Hr & Hj & Hd & Hs & _). simpl in Hr, Hd.
    assert (Hin : In c cands) by (apply list_elem_of_In; eapply list_elem_of_lookup_2; exact Hk).
    destruct (candidate_has_resume db j c Hin) as (_ & Hname & Hmail).
    destruct (Hround k (lookup_lt_Some _ _ _ Hk)) as [Hne Hrt].
    unfold entry_of. rewrite Hd, bool_decide_eq_false_2, Hrt by exact Hne. simpl.
    eexists. split; [reflexivity|]. simpl.
    split; [exact Hj|]. split; [exact Hs|]. exists k, c.
    split; [exact Hk|]. split; [exact Hr|]. rewrite Hr.
    split; [now rewrite Hname|]. split; [now rewrite Hmail|reflexivity]. }
  destruct (mapM_Forall _ _ _ Hconv) as (es & Hes & Hlen & HQ).
  unfold get_interview_schedule. rewrite Hsel, Hes. simpl.
  rewrite Hlen, (Permutation_length (date_order_perm added)).
  split; [reflexivity|]. split; [|exact HQ].
  intros r Hr. rewrite (H6 r Hr). reflexivity.
Qed.

End ListingFacts.

Section ListingExamples.
Import Database Email Scheduler Examples.

Lemma keep_order_perm (rows : list Interview) : Permutation (keep_order rows) rows.
Proof. reflexivity. Qed.

(** The statement of [one_bad_date_empties_the_schedule] for the table
    whose only row is dated "next Monday". *)
Lemma one_bad_date_empties_the_schedule_witness :
  get_interview_schedule sample_email sample_fromisoformat keep_order db1 interviews1
    (Some "J1") None = [].
Proof.
  apply (one_bad_date_empties_the_schedule sample_email sample_fromisoformat keep_order
           keep_order_perm db1 interviews1 (Some "J1") None
           {| interview_id := 1; i_resume_id := "R1"; i_job_id := "J1";
              interview_date := Some "next Monday"; status := Some "scheduled";
              notes := None |} "next Monday").
  - left. reflexivity.
  - reflexivity.
  - discriminate.
  - reflexivity.
Defined.

(** The statement of [scheduled_interviews_are_listed] for the job "J1" of
    [db1_ranked], starting at [datetime.min], one hour per interview. *)
Lemma scheduled_interviews_are_listed_witness :
  length (get_interview_schedule sample_email sample_fromisoformat keep_order db1_ranked
            (interviews_after
               (schedule_interviews sample_email stable_order_by_rank_asc
                  sample_isoformat count_id smtp_up no_fault mailer db1_ranked [] "J1"
                  0 60))
            (Some "J1") None)
  = length (interviews_after
              (schedule_interviews sample_email stable_order_by_rank_asc sample_isoformat
                 count_id smtp_up no_fault mailer db1_ranked [] "J1" 0 60))
  /\ (forall r,
        answer (schedule_interviews sample_email stable_order_by_rank_asc
                  sample_isoformat count_id smtp_up no_fault mailer db1_ranked [] "J1"
                  0 60) = Some r ->
        length (get_interview_schedule sample_email sample_fromisoformat keep_order
                  db1_ranked
                  (interviews_after
                     (schedule_interviews sample_email stable_order_by_rank_asc
                        sample_isoformat count_id smtp_up no_fault mailer db1_ranked []
                        "J1" 0 60))
                  (Some "J1") None)
        = scheduled r)
  /\ Forall
       (fun e =>
          e_job_id e = "J1"
          /\ e_status e = Some "scheduled"
          /\ exists k c,
               get_shortlisted_candidates sample_email stable_order_by_rank_asc
                 db1_ranked "J1" !! k = Some c
               /\ e_resume_id e = cand_resume_id c
               /\ e_candidate_name e = cand_name c
               /\ e_candidate_email e = cand_email c
               /\ e_interview_date e = Parsed (slot 0 60 k))
       (get_interview_schedule sample_email sample_fromisoformat keep_order db1_ranked
          (interviews_after
             (schedule_interviews sample_email stable_order_by_rank_asc sample_isoformat
                count_id smtp_up no_fault mailer db1_ranked [] "J1" 0 60))
          (Some "J1") None).
Proof.
  apply (scheduled_interviews_are_listed sample_email sample_fromisoformat keep_order
           keep_order_perm stable_order_by_rank_asc stable_rank_order_perm
           sample_isoformat count_id smtp_up no_fault mailer db1_ranked "J1" 0 60).
  rewrite sample_candidates. intros k Hk. simpl in Hk.
  assert (k = 0%nat) as -> by lia. split; [discriminate|reflexivity].
Defined.

End ListingExamples.
